(** * Arari PRO: margin calculation, payroll slip and period aggregation

    A shallow embedding of the numeric core of the Arari PRO dashboard:

    - the payroll slip modal ([PayrollSlipModal], Header.tsx lines 171-941):
      margin rate, margin colour bands, billing breakdown, deduction total,
      employer-side statutory costs, the paid-leave back-calculation, the
      printed hours, the bars of the hour composition, the margin bar and
      the performance badge;
    - the employee detail modal ([EmployeeDetailModal], part_001): the
      per-record margin, the newest-first sort of an employee's records and
      the totals of the table;
    - the store (appStore.ts): [loadSampleData], [addPayrollRecords],
      [updateEmployee], [deleteEmployee] and [calculateMonthlySummary];
    - the margin gauge ([MarginGaugeChart]): arc, colour, status badge and
      target indicator;
    - the file uploader ([FileUploader], Header.tsx lines 1063-1138) and
      the two synchronisation handlers ([FolderSync], Header.tsx lines
      1354-1407, and the settings page), as functions of what the outside
      answers.

    Numbers.  A JavaScript number is modelled by [JS.num]: a rational
    ([Fin q]), [NaN], the two infinities, or [undefined] for a property that
    is absent from an object; the special values follow the IEEE rules that
    JavaScript uses.  In the employer-side costs and in the paid-leave
    back-calculation, where [Math.round] turns the last bit of a product or
    of a quotient into a yen or a half day, the operations are those of
    binary64 ([JS.mul64], [JS.div64]: operands and result rounded to the
    nearest double, ties to even).  Elsewhere finite arithmetic is exact.
    Overflow, underflow and the sign of zero are outside the model. *)

From Stdlib Require Import QArith Qround Qpower Qabs ZArith NArith.
From Stdlib Require Import List String Ascii.
From Stdlib Require Import Bool Lia Lqa Sorting Permutation.
Import ListNotations.

Set Implicit Arguments.

(* ================================================================== *)
(** * JavaScript numbers *)
(* ================================================================== *)

Module JS.

Inductive num : Type :=
| undefined                 (* an absent property *)
| NaN
| Inf (negative : bool)     (* Infinity, -Infinity *)
| Fin (q : Q).

Definition Qltb (a b : Q) : bool := negb (Qle_bool b a).

(** ToBoolean: [0], [NaN] and [undefined] are falsy. *)
Definition truthy (v : num) : bool :=
  match v with
  | Fin q => negb (Qeq_bool q 0)
  | Inf _ => true
  | NaN | undefined => false
  end.

(** [a || b] on values. *)
Definition or (a b : num) : num := if truthy a then a else b.

(** [a > b], [a >= b]: false as soon as one side is [NaN] or [undefined]. *)
Definition gt (a b : num) : bool :=
  match a, b with
  | Fin x, Fin y => Qltb y x
  | Inf false, Fin _ => true
  | Inf false, Inf true => true
  | Fin _, Inf true => true
  | _, _ => false
  end.

Definition ge (a b : num) : bool :=
  match a, b with
  | Fin x, Fin y => Qle_bool y x
  | Inf false, Fin _ => true
  | Inf false, Inf _ => true
  | Fin _, Inf true => true
  | Inf true, Inf true => true
  | _, _ => false
  end.

(** [a !== b] on numbers: [NaN] differs from everything, itself included. *)
Definition strict_neq (a b : num) : bool :=
  match a, b with
  | Fin x, Fin y => negb (Qeq_bool x y)
  | Inf s, Inf s' => negb (Bool.eqb s s')
  | undefined, undefined => false
  | _, _ => true
  end.

Definition neg (a : num) : num :=
  match a with
  | Fin q => Fin (- q)
  | Inf s => Inf (negb s)
  | NaN | undefined => NaN
  end.

Definition add (a b : num) : num :=
  match a, b with
  | Fin x, Fin y => Fin (x + y)
  | Inf s, Fin _ => Inf s
  | Fin _, Inf s => Inf s
  | Inf s, Inf s' => if Bool.eqb s s' then Inf s else NaN
  | _, _ => NaN
  end.

Definition sub (a b : num) : num := add a (neg b).

Definition mul (a b : num) : num :=
  match a, b with
  | Fin x, Fin y => Fin (x * y)
  | Inf s, Fin y => if Qeq_bool y 0 then NaN else Inf (xorb s (Qltb y 0))
  | Fin x, Inf s => if Qeq_bool x 0 then NaN else Inf (xorb s (Qltb x 0))
  | Inf s, Inf s' => Inf (xorb s s')
  | _, _ => NaN
  end.

Definition div (a b : num) : num :=
  match a, b with
  | Fin x, Fin y =>
      if Qeq_bool y 0
      then (if Qeq_bool x 0 then NaN else Inf (Qltb x 0))
      else Fin (x / y)
  | Inf s, Fin y => Inf (xorb s (Qltb y 0))
  | Fin _, Inf _ => Fin 0
  | _, _ => NaN
  end.

(** [Math.round]: the nearest integer, halves rounded up. *)
Definition round (a : num) : num :=
  match a with
  | Fin q => Fin (inject_Z (Qfloor (q + (1 # 2))))
  | Inf s => Inf s
  | NaN | undefined => NaN
  end.

(** Doubles.  Where a product or a quotient goes through [Math.round], its
    last bit decides the integer that is printed; there the arithmetic is
    that of binary64: an operand stands for the double nearest to it, and
    the result is the double nearest to the exact result, the one with the
    even significand on a tie.  The exponent range is not modelled: no
    overflow and no underflow. *)

(** [q * 2^k] *)
Definition scale2 (q : Q) (k : Z) : Q := (q * 2 ^ k)%Q.

(** [|q|] *)
Definition magnitude (q : Q) : Q := Z.abs (Qnum q) # Qden q.

(** The exponent [e] of a number other than 0: [2^e <= |q| < 2^(e+1)].
    The difference of the two logarithms is [e] or [e + 1]. *)
Definition exponent (q : Q) : Z :=
  let e := (Z.log2 (Z.abs (Qnum q)) - Z.log2 (Zpos (Qden q)))%Z in
  if Qle_bool (2 ^ e) (magnitude q) then e else (e - 1)%Z.

(** The integer nearest to [m], the even one on a tie. *)
Definition nearest_even (m : Q) : Z :=
  let k := Qfloor m in
  let r := (m - inject_Z k)%Q in
  if Qltb r (1 # 2) then k
  else if Qltb (1 # 2) r then (k + 1)%Z
  else if Z.even k then k else (k + 1)%Z.

(** The double nearest to [q]: a significand of 53 bits. *)
Definition double (q : Q) : Q :=
  let q := Qred q in
  if Qeq_bool q 0 then 0%Q
  else
    let p := (exponent q - 52)%Z in
    Qred (scale2 (inject_Z (nearest_even (scale2 q (- p)))) p).

Definition as_double (a : num) : num :=
  match a with
  | Fin q => Fin (double q)
  | _ => a
  end.

(** [a * b] and [a / b] on doubles. *)
Definition mul64 (a b : num) : num :=
  as_double (mul (as_double a) (as_double b)).

Definition div64 (a b : num) : num :=
  as_double (div (as_double a) (as_double b)).

(** A value that is a finite number. *)
Definition finite (a : num) : bool :=
  match a with Fin _ => true | _ => false end.

(** Numeric equality of two values, up to the representation of a rational. *)
Definition eqb (a b : num) : bool :=
  match a, b with
  | Fin x, Fin y => Qeq_bool x y
  | Inf s, Inf s' => Bool.eqb s s'
  | NaN, NaN => true
  | undefined, undefined => true
  | _, _ => false
  end.

Definition equiv (a b : num) : Prop := eqb a b = true.

(** A JavaScript string: its UTF-16 code units. *)
Definition str := list N.

Definition str_eqb (a b : str) : bool :=
  if list_eq_dec N.eq_dec a b then true else false.

(** The code units of an ASCII literal. *)
Fixpoint lit (s : string) : str :=
  match s with
  | EmptyString => []
  | String c t => N_of_ascii c :: lit t
  end.

(** [a < b] on strings, as the default [Array.prototype.sort] compares
    them: code unit by code unit, a proper prefix first. *)
Fixpoint str_ltb (a b : str) : bool :=
  match a, b with
  | [], [] => false
  | [], _ :: _ => true
  | _ :: _, [] => false
  | x :: a', y :: b' =>
      if (x <? y)%N then true
      else if (y <? x)%N then false
      else str_ltb a' b'
  end.

End JS.

Import JS.

Declare Scope js_scope.
Delimit Scope js_scope with js.
Bind Scope js_scope with JS.num.
Infix "||" := JS.or : js_scope.
Infix "+" := JS.add : js_scope.
Infix "-" := JS.sub : js_scope.
Infix "*" := JS.mul : js_scope.
Infix "/" := JS.div : js_scope.
Infix ">" := JS.gt : js_scope.
Infix ">=" := JS.ge : js_scope.
Infix "==" := JS.equiv : js_scope.


(* ================================================================== *)
(** * Data model (the fields the source reads) *)
(* ================================================================== *)

(** The numeric properties of a [PayrollRecord].  A record is a JavaScript
    object: reading a property that is absent gives [undefined]. *)
Inductive field : Type :=
| workDays | workHours | overtimeHours | overtimeOver60h | nightHours
| holidayHours | paidLeaveDays | paidLeaveHours | paidLeaveAmount
| baseSalary | overtimePay | overtimeOver60hPay | nightPay | holidayPay
| transportAllowance | nonBillableAllowances | otherAllowances
| socialInsurance | welfarePension | employmentInsurance | incomeTax
| residentTax | rentDeduction | utilitiesDeduction | mealDeduction
| advancePayment | yearEndAdjustment | otherDeductions
| grossSalary | netSalary | billingAmount
| companySocialInsurance | companyEmploymentInsurance | companyWorkersComp
| totalCompanyCost | grossProfit | profitMargin.

Definition field_eq_dec (f g : field) : {f = g} + {f <> g}.
Proof. decide equality. Defined.

Module PayrollRecord.
Record t : Type := mk {
  employeeId : str;
  period : str;
  prop : field -> num
}.

(** The object with no numeric property, and property assignment. *)
Definition empty (id p : str) : t := mk id p (fun _ => undefined).

Definition set (r : t) (f : field) (v : num) : t :=
  mk (employeeId r) (period r)
     (fun g => if field_eq_dec g f then v else prop r g).

(** The object literal [{employeeId, period, f1: v1, ...}]. *)
Definition literal (id p : str) (props : list (field * num)) : t :=
  fold_left (fun r fv => set r (fst fv) (snd fv)) props (empty id p).
End PayrollRecord.

Notation "r .[ f ]" := (PayrollRecord.prop r f)
  (at level 1, left associativity, format "r .[ f ]").

Module Employee.
Record t : Type := mk {
  employeeId : str;
  name : str;
  hourlyRate : num;
  billingRate : num
}.
End Employee.

Module Settings.
Record t : Type := mk {
  target_margin : num;
  employment_insurance_rate : num;
  workers_comp_rate : num
}.
End Settings.

(* ================================================================== *)
(** * The payroll slip (PayrollSlipModal, Header.tsx) *)
(* ================================================================== *)

(** Divisions are traced: a computation yields its value together with the
    divisors it divided by, in evaluation order.  The traced divisions are
    those of the paid-leave back-calculation, whose result goes through
    [Math.round]: they are divisions of doubles. *)
Definition Traced (A : Type) : Type := (A * list num)%type.

Definition ret {A : Type} (a : A) : Traced A := (a, []).

Definition bind {A B : Type} (m : Traced A) (k : A -> Traced B) : Traced B :=
  let (a, w) := m in
  let (b, w') := k a in
  (b, w ++ w').

Definition divide (a b : num) : Traced num := (JS.div64 a b, [b]).

Definition value {A : Type} (m : Traced A) : A := fst m.
Definition divisors {A : Type} (m : Traced A) : list num := snd m.

Notation "x <- m ;; k" := (bind m (fun x => k))
  (at level 61, m at next level, right associativity).

Module Slip.
Local Open Scope js_scope.
Import Employee Settings.

Section Modal.
Variable settings : Settings.t.
Variable record : PayrollRecord.t.
Variable employee : Employee.t.

(** Header.tsx 177-179. *)
Definition marginRate : num :=
  if record.[billingAmount] > Fin 0
  then (record.[grossProfit] / record.[billingAmount]) * Fin 100
  else Fin 0.

(** Header.tsx 182-189.  The four class sets are named by their colour:
    emerald (target reached), green (within 3 points), amber (within 7
    points), red. *)
Inductive color : Type := emerald | green | amber | red.

Definition getMarginColor (margin : num) : color :=
  let target := target_margin settings || Fin 15 in
  if margin >= target then emerald
  else if margin >= target - Fin 3 then green
  else if margin >= target - Fin 7 then amber
  else red.

Definition marginColor : color := getMarginColor marginRate.

(** Header.tsx 194-198: the billing breakdown. *)
Definition baseBilling : num :=
  (record.[workHours] || Fin 0) * billingRate employee.
Definition overtimeBilling : num :=
  (record.[overtimeHours] || Fin 0) * billingRate employee * Fin 1.25.
Definition overtime60hBilling : num :=
  (record.[overtimeOver60h] || Fin 0) * billingRate employee * Fin 1.5.
Definition nightBilling : num :=
  (record.[nightHours] || Fin 0) * billingRate employee * Fin 0.25.
Definition holidayBilling : num :=
  (record.[holidayHours] || Fin 0) * billingRate employee * Fin 1.35.

(** Header.tsx 201. *)
Definition totalWorkHours : num :=
  (record.[workHours] || Fin 0) + (record.[overtimeHours] || Fin 0)
  + (record.[overtimeOver60h] || Fin 0) + (record.[holidayHours] || Fin 0).

(** Header.tsx 204-209. *)
Definition totalDeductions : num :=
  (record.[socialInsurance] || Fin 0) +
  (record.[welfarePension] || Fin 0) +
  (record.[employmentInsurance] || Fin 0) +
  (record.[incomeTax] || Fin 0) +
  (record.[residentTax] || Fin 0) +
  (record.[otherDeductions] || Fin 0).

(** Header.tsx 213-225: employer-side statutory costs.  The two products
    that [Math.round] receives are products of doubles. *)
Definition companyHealthIns : num := record.[socialInsurance] || Fin 0.
Definition companyWelfarePension : num := record.[welfarePension] || Fin 0.
Definition companySocialIns : num :=
  record.[companySocialInsurance] || (companyHealthIns + companyWelfarePension).

Definition empInsRate : num := employment_insurance_rate settings || Fin 0.009.
Definition companyEmploymentIns : num :=
  record.[companyEmploymentInsurance]
  || JS.round (JS.mul64 (record.[grossSalary] || Fin 0) empInsRate).

Definition workersCompRate : num := workers_comp_rate settings || Fin 0.003.
Definition companyWorkersComp : num :=
  record.[companyWorkersComp]
  || JS.round (JS.mul64 (record.[grossSalary] || Fin 0) workersCompRate).

Definition totalCompanyBenefits : num :=
  companySocialIns + companyEmploymentIns + companyWorkersComp.

(** Header.tsx 283 and 917: the total cost shown. *)
Definition totalCostShown : num :=
  record.[totalCompanyCost] || (record.[grossSalary] + totalCompanyBenefits).

(** Header.tsx 680: the billing total shown is the stored field. *)
Definition billingTotalShown : num := record.[billingAmount].

(** The three figures of a paid-leave back-calculation. *)
Record Leave : Type := mkLeave {
  dailyHours : num;
  leaveHours : num;
  leaveDays : num
}.

(** Header.tsx 380: the paid-leave section is rendered when one of the three
    stored paid-leave figures is positive. *)
Definition paidLeaveSectionShown : bool :=
  ((record.[paidLeaveDays] || Fin 0) > Fin 0)
  || ((record.[paidLeaveHours] || Fin 0) > Fin 0)
  || ((record.[paidLeaveAmount] || Fin 0) > Fin 0).

(** Header.tsx 383-400: [dailyWorkHours], [calculatedPaidLeaveHours],
    [rawPaidLeaveDays] and [calculatedPaidLeaveDays] of the paid-leave
    section.  A condition [a && b > 0 && c] holds when each conjunct is
    truthy. *)
Definition paidLeaveSection : Traced Leave :=
  dailyWorkHours <-
    (if truthy record.[workDays] && (record.[workDays] > Fin 0)
        && truthy record.[workHours]
     then divide record.[workHours] record.[workDays]
     else ret (Fin 8)) ;;
  calculatedPaidLeaveHours <-
    (if truthy record.[paidLeaveAmount] && (hourlyRate employee > Fin 0)
     then divide record.[paidLeaveAmount] (hourlyRate employee)
     else ret (record.[paidLeaveHours] || Fin 0)) ;;
  rawPaidLeaveDays <-
    (if dailyWorkHours > Fin 0
     then divide calculatedPaidLeaveHours dailyWorkHours
     else ret (record.[paidLeaveDays] || Fin 0)) ;;
  calculatedPaidLeaveDays <-
    divide (JS.round (JS.mul64 rawPaidLeaveDays (Fin 2))) (Fin 2) ;;
  ret (mkLeave dailyWorkHours calculatedPaidLeaveHours calculatedPaidLeaveDays).

(** Header.tsx 485 and 897: the paid-leave pay row and the paid-leave cost
    line are rendered when the stored amount is positive. *)
Definition paidLeaveRowShown : bool :=
  (record.[paidLeaveAmount] || Fin 0) > Fin 0.

(** Header.tsx 487-492, and again 898-903 with the same text: [dailyHrs],
    [leaveHrs], [rawLeaveDays] and [leaveDays]. *)
Definition paidLeaveRow : Traced Leave :=
  dailyHrs <-
    (if truthy record.[workDays] && (record.[workDays] > Fin 0)
        && truthy record.[workHours]
     then divide record.[workHours] record.[workDays]
     else ret (Fin 8)) ;;
  leaveHrs <-
    (if hourlyRate employee > Fin 0
     then divide (record.[paidLeaveAmount] || Fin 0) (hourlyRate employee)
     else ret (Fin 0)) ;;
  rawLeaveDays <-
    (if dailyHrs > Fin 0 then divide leaveHrs dailyHrs else ret (Fin 0)) ;;
  leaveDays <- divide (JS.round (JS.mul64 rawLeaveDays (Fin 2))) (Fin 2) ;;
  ret (mkLeave dailyHrs leaveHrs leaveDays).

(** Header.tsx 547-559 and 982-991: the deduction rows in display order, each
    with the property it reads and the amount [value || 0] it prints.  The
    year-end adjustment row is rendered only when its amount is not 0. *)
Definition DeductionRow (f : field) : field * num := (f, record.[f] || Fin 0).

Definition deductionRows : list (field * num) :=
  [ DeductionRow socialInsurance;
    DeductionRow welfarePension;
    DeductionRow employmentInsurance;
    DeductionRow incomeTax;
    DeductionRow residentTax;
    DeductionRow rentDeduction;
    DeductionRow utilitiesDeduction;
    DeductionRow mealDeduction;
    DeductionRow advancePayment ]
  ++ (if JS.strict_neq (record.[yearEndAdjustment] || Fin 0) (Fin 0)
      then [ DeductionRow yearEndAdjustment ] else [])
  ++ [ DeductionRow otherDeductions ].

(** Header.tsx 608-672: the rows of the billing breakdown in display order:
    the hours read, the multiplier shown and the amount.  The base row is
    always rendered, the others when their hours (or amount) are positive;
    the allowance row prints the stored [otherAllowances] at cost. *)
Inductive BillingLine : Type :=
| BillingRow (hours : field) (multiplier : Q) (amount : num)
| AllowanceRow (amount : num).

Definition billingRows : list BillingLine :=
  [ BillingRow workHours 1 baseBilling ]
  ++ (if (record.[overtimeHours] || Fin 0) > Fin 0
      then [ BillingRow overtimeHours 1.25 overtimeBilling ] else [])
  ++ (if (record.[overtimeOver60h] || Fin 0) > Fin 0
      then [ BillingRow overtimeOver60h 1.5 overtime60hBilling ] else [])
  ++ (if (record.[nightHours] || Fin 0) > Fin 0
      then [ BillingRow nightHours 0.25 nightBilling ] else [])
  ++ (if (record.[holidayHours] || Fin 0) > Fin 0
      then [ BillingRow holidayHours 1.35 holidayBilling ] else [])
  ++ (if (record.[otherAllowances] || Fin 0) > Fin 0
      then [ AllowanceRow record.[otherAllowances] ] else []).

(** The amount printed on a row. *)
Definition lineAmount (l : BillingLine) : num :=
  match l with
  | BillingRow _ _ amount => amount
  | AllowanceRow amount => amount
  end.
End Modal.

End Slip.

(* ================================================================== *)
(** * Period tokens *)
(* ================================================================== *)

Module Period.

(** The code units of the two kanji of a period token: U+5E74 (year) and
    U+6708 (month). *)
Definition nen : N := 24180.
Definition gatsu : N := 26376.

(** The token of a year and a month given by their decimal digits, as in
    [token "2025" "10"]. *)
Definition token (y m : string) : str :=
  lit y ++ [nen] ++ lit m ++ [gatsu].

(** [\d] *)
Definition is_digit (c : N) : bool := ((48 <=? c) && (c <=? 57))%N.

(** The capture of [/(\d{4})\u5E74/] matched at the head of [s]. *)
Definition year_here (s : str) : option str :=
  match s with
  | a :: b :: c :: d :: e :: _ =>
      if is_digit a && is_digit b && is_digit c && is_digit d && (e =? nen)%N
      then Some [a; b; c; d] else None
  | _ => None
  end.

(** The capture of [/(\d{1,2})\u6708/] matched at the head of [s]: the
    quantifier is greedy, two digits are tried before one. *)
Definition month_here (s : str) : option str :=
  match s with
  | a :: b :: rest =>
      if is_digit a && is_digit b
         && (match rest with c :: _ => (c =? gatsu)%N | [] => false end)
      then Some [a; b]
      else if is_digit a && (b =? gatsu)%N then Some [a]
      else None
  | _ => None
  end.

(** [String.prototype.match] with a pattern that has no [g] flag: the
    leftmost position where the pattern matches. *)
Fixpoint search (here : str -> option str) (s : str) : option str :=
  match here s with
  | Some m => Some m
  | None => match s with [] => None | _ :: t => search here t end
  end.

(** [m?.[1] || fallback]: the capture when it is a non-empty string. *)
Definition capture_or (m : option str) (fallback : str) : str :=
  match m with
  | Some (c :: t) => c :: t
  | _ => fallback
  end.

(** [parseInt] on the strings it is applied to here: the decimal value of
    the leading digits, [NaN] when there is none. *)
Fixpoint digits_value (acc : Z) (s : str) : Z :=
  match s with
  | c :: t =>
      if is_digit c then digits_value (acc * 10 + (Z.of_N c - 48)) t else acc
  | [] => acc
  end.

Definition parseInt (s : str) : num :=
  match s with
  | c :: _ => if is_digit c then Fin (inject_Z (digits_value 0 s)) else NaN
  | [] => NaN
  end.

(** Modelled from the spec: [comparePeriods] of [@/lib/utils], which
    part_001 imports and which is not among the sources.  Spec 4.5: "extract
    leading 4-digit year and 1-2 digit month from tokens such as
    2025\u5E7410\u6708 and compare numerically"; spec 7: a token that cannot be parsed falls back
    to a defined default and sorts last.  The result is positive when the
    first period is the later one. *)
Definition parsePeriod (s : str) : option (Z * Z) :=
  match year_here s with
  | Some y =>
      match month_here (skipn 5 s) with
      | Some m => Some (digits_value 0 y, digits_value 0 m)
      | None => None
      end
  | None => None
  end.

Definition comparePeriods (a b : str) : num :=
  let key (s : str) : Z * Z :=
    match parsePeriod s with Some ym => ym | None => (0, 0)%Z end in
  let (ya, ma) := key a in
  let (yb, mb) := key b in
  if (ya =? yb)%Z then Fin (inject_Z (ma - mb)) else Fin (inject_Z (ya - yb)).

End Period.

(* ================================================================== *)
(** * Arrays *)
(* ================================================================== *)

Module Array.

Section Sort.
Variable A : Type.
(** [after x y]: the order puts [x] after [y]. *)
Variable after : A -> A -> bool.

Fixpoint insert (x : A) (l : list A) : list A :=
  match l with
  | [] => [x]
  | y :: t => if after x y then y :: insert x t else x :: y :: t
  end.

(** A stable sort, as [Array.prototype.sort] is: elements that the order
    does not separate keep their relative position. *)
Fixpoint stable_sort (l : list A) : list A :=
  match l with
  | [] => []
  | x :: t => insert x (stable_sort t)
  end.
End Sort.

(** On the elements of [l] the order is one of keys: [x] goes after [y]
    exactly when its key is the larger one. *)
Definition keyed (A : Type) (after : A -> A -> bool) (key : A -> Q)
  (l : list A) : Prop :=
  forall x y, In x l -> In y l -> (after x y = true <-> (key y < key x)%Q).

(** [xs.sort()] on strings: ascending by code units. *)
Definition sort_default (l : list str) : list str :=
  stable_sort (fun x y => JS.str_ltb y x) l.

(** [xs.sort(compareFn)]: [a] goes after [b] when [compareFn(a, b) > 0]; a
    [NaN] result counts as [0]. *)
Definition sort_with (A : Type) (compareFn : A -> A -> num) (l : list A)
  : list A :=
  stable_sort (fun a b => JS.gt (compareFn a b) (Fin 0)) l.

(** [Array.from(new Set(xs))]: the first occurrence of each string, in
    order. *)
Fixpoint uniq_from (seen : list str) (l : list str) : list str :=
  match l with
  | [] => []
  | x :: t =>
      if existsb (JS.str_eqb x) seen then uniq_from seen t
      else x :: uniq_from (x :: seen) t
  end.

Definition uniq (l : list str) : list str := uniq_from [] l.

(** [xs.reduce((sum, r) => sum + f(r), 0)] *)
Definition sum_of (A : Type) (f : A -> num) (l : list A) : num :=
  fold_left (fun sum r => JS.add sum (f r)) l (Fin 0).

(** [xs.length] as a number. *)
Definition length_num (A : Type) (l : list A) : num :=
  Fin (inject_Z (Z.of_nat (List.length l))).

End Array.

(* ================================================================== *)
(** * The employee detail modal (part_001) *)
(* ================================================================== *)

Module EmployeeDetail.
Local Open Scope js_scope.

(** part_001 35-37: the employee's records, newest period first. *)
Definition employeeRecords (payrollRecords : list PayrollRecord.t)
  (employee : Employee.t) : list PayrollRecord.t :=
  Array.sort_with
    (fun a b =>
       Period.comparePeriods (PayrollRecord.period b) (PayrollRecord.period a))
    (filter
       (fun r => JS.str_eqb (PayrollRecord.employeeId r)
                            (Employee.employeeId employee))
       payrollRecords).

(** part_001 45-46: the margin of the rate card. *)
Definition profit (employee : Employee.t) : num :=
  Employee.billingRate employee - Employee.hourlyRate employee.

Definition margin (employee : Employee.t) : num :=
  (profit employee / Employee.billingRate employee) * Fin 100.

(** part_001 165-167. *)
Definition recordMargin (record : PayrollRecord.t) : num :=
  if record.[billingAmount] > Fin 0
  then (record.[grossProfit] / record.[billingAmount]) * Fin 100
  else Fin 0.

End EmployeeDetail.

(* ================================================================== *)
(** * The store (appStore.ts) *)
(* ================================================================== *)

Module ProfitEntry.
Record t : Type := mk {
  employeeId : str;
  name : str;
  profit : num
}.
End ProfitEntry.

Module MonthlySummary.
Record t : Type := mk {
  period : str;
  year : num;
  month : num;
  totalEmployees : num;
  totalRevenue : num;
  totalSalaryCost : num;
  totalSocialInsurance : num;
  totalEmploymentInsurance : num;
  totalPaidLeaveCost : num;
  totalTransportCost : num;
  totalCompanyCost : num;
  totalGrossProfit : num;
  averageMargin : num;
  topProfitEmployees : list ProfitEntry.t;
  bottomProfitEmployees : list ProfitEntry.t
}.

(** The numeric fields of a summary. *)
Definition numbers (s : t) : list num :=
  [ year s; month s; totalEmployees s; totalRevenue s; totalSalaryCost s;
    totalSocialInsurance s; totalEmploymentInsurance s; totalPaidLeaveCost s;
    totalTransportCost s; totalCompanyCost s; totalGrossProfit s;
    averageMargin s ]
  ++ map ProfitEntry.profit (topProfitEmployees s)
  ++ map ProfitEntry.profit (bottomProfitEmployees s).
End MonthlySummary.

Module Store.
Local Open Scope js_scope.

(** The part of [AppState] that the actions below read and write.  The
    dashboard statistics are produced by [generateDashboardStats] of
    [@/data/sampleData], which is not among the sources; they are left out. *)
Record AppState : Type := mkState {
  employees : list Employee.t;
  payrollRecords : list PayrollRecord.t;
  availablePeriods : list str;
  selectedPeriod : str
}.

(** appStore.ts 83 and 99:
    [Array.from(new Set(records.map(r => r.period))).sort().reverse()]. *)
Definition periodsOf (records : list PayrollRecord.t) : list str :=
  rev (Array.sort_default (Array.uniq (map PayrollRecord.period records))).

(** appStore.ts 80-94; the sample data is a parameter.  [periods[0] || d]
    takes the fallback when there is no period or the first one is the empty
    string. *)
Definition loadSampleData (sampleEmployees : list Employee.t)
  (samplePayrollRecords : list PayrollRecord.t) (st : AppState) : AppState :=
  let periods := periodsOf samplePayrollRecords in
  let selectedPeriod :=
    match periods with
    | (c :: t) :: _ => c :: t
    | _ => Period.token "2025" "1"
    end in
  mkState sampleEmployees samplePayrollRecords periods selectedPeriod.

(** appStore.ts 96-107. *)
Definition addPayrollRecords (records : list PayrollRecord.t) (st : AppState)
  : AppState :=
  let currentRecords := payrollRecords st in
  let newRecords := currentRecords ++ records in
  let periods := periodsOf newRecords in
  mkState (employees st) newRecords periods (selectedPeriod st).

(** [employees.find(e => e.employeeId === r.employeeId)] *)
Definition findEmployee (employees : list Employee.t) (r : PayrollRecord.t)
  : option Employee.t :=
  find (fun e => JS.str_eqb (Employee.employeeId e)
                            (PayrollRecord.employeeId r))
       employees.

(** [e?.hourlyRate || 0] and [e?.name || ''] *)
Definition hourlyRateOf (e : option Employee.t) : num :=
  match e with Some e => Employee.hourlyRate e | None => undefined end
  || Fin 0.

Definition nameOf (e : option Employee.t) : str :=
  match e with Some e => Employee.name e | None => [] end.

Definition profitEntry (employees : list Employee.t) (r : PayrollRecord.t)
  : ProfitEntry.t :=
  ProfitEntry.mk (PayrollRecord.employeeId r)
                 (nameOf (findEmployee employees r))
                 r.[grossProfit].

(** appStore.ts 125. *)
Definition periodRecordsOf (st : AppState) (period : str)
  : list PayrollRecord.t :=
  filter (fun r => JS.str_eqb (PayrollRecord.period r) period)
         (payrollRecords st).

(** appStore.ts 123-162.  [periodRecords.sort] sorts the filtered array in
    place: the second sort starts from the order the first one left. *)
Definition calculateMonthlySummary (st : AppState) (period : str)
  : option MonthlySummary.t :=
  let employees := employees st in
  let periodRecords := periodRecordsOf st period in
  if (List.length periodRecords =? 0)%nat then None
  else
    let sortedDesc :=
      Array.sort_with (fun a b => b.[grossProfit] - a.[grossProfit])
                      periodRecords in
    let sortedAsc :=
      Array.sort_with (fun a b => a.[grossProfit] - b.[grossProfit])
                      sortedDesc in
    Some {|
      MonthlySummary.period := period;
      MonthlySummary.year :=
        Period.parseInt
          (Period.capture_or (Period.search Period.year_here period)
                             (lit "2025"));
      MonthlySummary.month :=
        Period.parseInt
          (Period.capture_or (Period.search Period.month_here period)
                             (lit "1"));
      MonthlySummary.totalEmployees := Array.length_num periodRecords;
      MonthlySummary.totalRevenue :=
        Array.sum_of (fun r => r.[billingAmount]) periodRecords;
      MonthlySummary.totalSalaryCost :=
        Array.sum_of (fun r => r.[grossSalary]) periodRecords;
      MonthlySummary.totalSocialInsurance :=
        Array.sum_of (fun r => r.[companySocialInsurance]) periodRecords;
      MonthlySummary.totalEmploymentInsurance :=
        Array.sum_of (fun r => r.[companyEmploymentInsurance]) periodRecords;
      MonthlySummary.totalPaidLeaveCost :=
        Array.sum_of
          (fun r => r.[paidLeaveHours]
                    * hourlyRateOf (findEmployee employees r))
          periodRecords;
      MonthlySummary.totalTransportCost :=
        Array.sum_of (fun r => r.[transportAllowance]) periodRecords;
      MonthlySummary.totalCompanyCost :=
        Array.sum_of (fun r => r.[totalCompanyCost]) periodRecords;
      MonthlySummary.totalGrossProfit :=
        Array.sum_of (fun r => r.[grossProfit]) periodRecords;
      MonthlySummary.averageMargin :=
        Array.sum_of (fun r => r.[profitMargin]) periodRecords
        / Array.length_num periodRecords;
      MonthlySummary.topProfitEmployees :=
        map (profitEntry employees) (firstn 5 sortedDesc);
      MonthlySummary.bottomProfitEmployees :=
        map (profitEntry employees) (firstn 5 sortedAsc)
    |}.

(** The properties of a record that the summary adds up, and the total of
    the summary that each one goes into. *)
Definition summedFields : list field :=
  [ billingAmount; grossSalary; companySocialInsurance;
    companyEmploymentInsurance; paidLeaveHours; transportAllowance;
    totalCompanyCost; grossProfit; profitMargin ].

Definition totals : list (field * (MonthlySummary.t -> num)) :=
  [ (billingAmount, MonthlySummary.totalRevenue);
    (grossSalary, MonthlySummary.totalSalaryCost);
    (companySocialInsurance, MonthlySummary.totalSocialInsurance);
    (companyEmploymentInsurance, MonthlySummary.totalEmploymentInsurance);
    (transportAllowance, MonthlySummary.totalTransportCost);
    (totalCompanyCost, MonthlySummary.totalCompanyCost);
    (grossProfit, MonthlySummary.totalGrossProfit) ].

End Store.

(* ================================================================== *)
(** * The billing calculator (spec 4.2) *)
(* ================================================================== *)

Module Billing.
Local Open Scope js_scope.

(** Modelled from the spec: the calculator that produces the stored
    [billingAmount] of a record is not among the sources (the slip prints
    the stored field, [Slip.billingTotalShown]).  Spec 4.2: "billingAmount =
    sum of billable hour-bucket amounts + billable other allowances", the
    allowances "pass-through at cost, multiplier 1", transport and
    non-billable allowances excluded.  The hour-bucket amounts are the ones
    of the slip's breakdown, Header.tsx 194-198. *)
Definition billingAmountOf (record : PayrollRecord.t) (employee : Employee.t)
  : num :=
  Slip.baseBilling record employee
  + Slip.overtimeBilling record employee
  + Slip.overtime60hBilling record employee
  + Slip.nightBilling record employee
  + Slip.holidayBilling record employee
  + (record.[otherAllowances] || Fin 0).

(** The amounts of the rows that the slip shows, added up. *)
Definition rowsTotal (record : PayrollRecord.t) (employee : Employee.t)
  : num :=
  Array.sum_of Slip.lineAmount (Slip.billingRows record employee).

End Billing.

(* ================================================================== *)
(** * Reading a property as a rational *)
(* ================================================================== *)

Module Reading.

(** A property that is absent or holds a finite number. *)
Definition stored (o : option Q) : num :=
  match o with Some q => Fin q | None => undefined end.

(** The rational it counts for when a missing one counts as 0. *)
Definition or_zero (o : option Q) : Q :=
  match o with Some q => q | None => 0 end.

(** The nearest integer, halves rounded up. *)
Definition nearest (q : Q) : Q := inject_Z (Qfloor (q + (1 # 2))).

(** The sum of a list of rationals. *)
Definition Qsum (l : list Q) : Q := fold_right Qplus 0 l.

(** The rational held by a finite number. *)
Definition rational (v : num) : Q :=
  match v with Fin q => q | _ => 0 end.

End Reading.

(** The daily hours of the paid-leave computations, Header.tsx 383-385,
    487-488 and 898-899: the three places test the same condition. *)
Module DailyHours.

Definition worked (record : PayrollRecord.t) : bool :=
  JS.truthy record.[workDays] && JS.gt record.[workDays] (Fin 0)
  && JS.truthy record.[workHours].

Definition dailyHrs (record : PayrollRecord.t) : num :=
  if worked record then JS.div64 record.[workHours] record.[workDays]
  else Fin 8.

End DailyHours.

(* ================================================================== *)
(** * Sample data *)
(* ================================================================== *)

Module Sample.

Definition p2025_9 : str := Period.token "2025" "9".
Definition p2025_10 : str := Period.token "2025" "10".

(** A rate card, and the settings at their documented values. *)
Definition employee : Employee.t :=
  Employee.mk (lit "E001") (lit "Tanaka") (Fin 1000) (Fin 1500).

Definition settings : Settings.t :=
  Settings.mk (Fin 15) (Fin 0.009) (Fin 0.003).

(** No setting configured. *)
Definition unset : Settings.t := Settings.mk undefined undefined undefined.

(** A month of 160 hours and 10 hours of overtime, paid 1,000 and billed
    1,500 an hour. *)
Definition record : PayrollRecord.t :=
  PayrollRecord.literal (lit "E001") p2025_10
    [ (workDays, Fin 20); (workHours, Fin 160); (overtimeHours, Fin 10);
      (baseSalary, Fin 160000); (overtimePay, Fin 12500);
      (socialInsurance, Fin 8000); (welfarePension, Fin 15000);
      (grossSalary, Fin 172500); (billingAmount, Fin 258750);
      (grossProfit, Fin 61179); (profitMargin, Fin (61179 / 258750 * 100)) ].

Definition emptyState : Store.AppState := Store.mkState [] [] [] [].

(** A target margin set to zero. *)
Definition zeroTarget : Settings.t := Settings.mk (Fin 0) undefined undefined.

(** A worker exempt from employment insurance: the employer-side amount
    stored by ingestion is 0. *)
Definition exempt : PayrollRecord.t :=
  PayrollRecord.literal (lit "E004") p2025_10
    [ (grossSalary, Fin 250000); (companyEmploymentInsurance, Fin 0) ].

(** A gross salary of 250,000 with nothing precomputed on the employer
    side. *)
Definition salaried : PayrollRecord.t :=
  PayrollRecord.literal (lit "E008") p2025_10
    [ (socialInsurance, Fin 8000); (welfarePension, Fin 15000);
      (grossSalary, Fin 250000) ].

(** An unpaid trainee: the hourly rate is 0. *)
Definition trainee : Employee.t :=
  Employee.mk (lit "E005") (lit "Sato") (Fin 0) (Fin 1500).

(** A record whose paid-leave hours were stored by ingestion. *)
Definition leaveStored : PayrollRecord.t :=
  PayrollRecord.literal (lit "E005") p2025_10
    [ (workDays, Fin 20); (workHours, Fin 160);
      (paidLeaveAmount, Fin 8000); (paidLeaveHours, Fin 8) ].

(** Twenty days on the books and no hour worked. *)
Definition idle : PayrollRecord.t :=
  PayrollRecord.literal (lit "E001") p2025_10
    [ (workDays, Fin 20); (workHours, Fin 0); (paidLeaveAmount, Fin 8000) ].

(** One and a half day of leave in a month of 7.5-hour days. *)
Definition onLeave : PayrollRecord.t :=
  PayrollRecord.literal (lit "E001") p2025_10
    [ (workDays, Fin 20); (workHours, Fin 150); (paidLeaveAmount, Fin 11000) ].

(** Two records of one employee, for September and for October 2025. *)
Definition september : PayrollRecord.t :=
  PayrollRecord.literal (lit "E001") p2025_9
    [ (billingAmount, Fin 100); (grossProfit, Fin 50); (profitMargin, Fin 50) ].

Definition october : PayrollRecord.t :=
  PayrollRecord.literal (lit "E001") p2025_10
    [ (billingAmount, Fin 300); (grossProfit, Fin 30); (profitMargin, Fin 10) ].

(** Two records of September 2025 with margins of 50% and 10%. *)
Definition second : PayrollRecord.t :=
  PayrollRecord.literal (lit "E002") p2025_9
    [ (billingAmount, Fin 300); (grossProfit, Fin 30); (profitMargin, Fin 10) ].

Definition twoMargins : Store.AppState :=
  Store.mkState [employee] [september; october; second] [] [].

(** A record of October 2025 with every summed field filled in. *)
Definition complete : PayrollRecord.t :=
  PayrollRecord.literal (lit "E001") p2025_10
    [ (paidLeaveHours, Fin 0); (transportAllowance, Fin 0);
      (grossSalary, Fin 172500); (billingAmount, Fin 258750);
      (companySocialInsurance, Fin 23000);
      (companyEmploymentInsurance, Fin 1553);
      (totalCompanyCost, Fin 197571); (grossProfit, Fin 61179);
      (profitMargin, Fin 23.6) ].

(** A worker who is paid and not billed, and one neither paid nor billed. *)
Definition unbilled : Employee.t :=
  Employee.mk (lit "E006") (lit "Suzuki") (Fin 1000) (Fin 0).

Definition unrated : Employee.t :=
  Employee.mk (lit "E007") (lit "Ito") (Fin 0) (Fin 0).

(** The sample record with its billing and its gross profit doubled. *)
Definition doubled : PayrollRecord.t :=
  PayrollRecord.literal (lit "E001") p2025_10
    [ (billingAmount, Fin (2 * 258750)); (grossProfit, Fin (2 * 61179)) ].

(** A period written without the kanji. *)
Definition dashed : str := lit "2024-03".

Definition dashedState : Store.AppState :=
  Store.mkState []
    [ PayrollRecord.literal (lit "E001") dashed [ (profitMargin, Fin 10) ] ]
    [] [].

(** A record billed 100 whose gross profit was never filled in. *)
Definition noProfit : PayrollRecord.t :=
  PayrollRecord.literal (lit "E002") p2025_10 [ (billingAmount, Fin 100) ].

(** A credit note: a negative amount billed. *)
Definition creditNote : PayrollRecord.t :=
  PayrollRecord.literal (lit "E003") p2025_10
    [ (billingAmount, Fin (-100)); (grossProfit, Fin 50) ].

(** The complete record alone, and together with the unfinished one. *)
Definition sound : Store.AppState :=
  Store.mkState [employee] [complete] [] [].

Definition mixed : Store.AppState :=
  Store.mkState [employee] [complete; noProfit] [] [].

End Sample.

(* ================================================================== *)
(** * More of the Math object *)
(* ================================================================== *)

Module JSMath.

(** [Math.floor] *)
Definition floor (a : num) : num :=
  match a with
  | Fin q => Fin (inject_Z (Qfloor q))
  | Inf s => Inf s
  | NaN | undefined => NaN
  end.

(** [Math.min(a, b)] and [Math.max(a, b)]: [NaN] as soon as one argument
    is. *)
Definition min (a b : num) : num :=
  match a, b with
  | (NaN | undefined), _ => NaN
  | _, (NaN | undefined) => NaN
  | _, _ => if JS.gt a b then b else a
  end.

Definition max (a b : num) : num :=
  match a, b with
  | (NaN | undefined), _ => NaN
  | _, (NaN | undefined) => NaN
  | _, _ => if JS.gt b a then b else a
  end.

(** [a < b] *)
Definition lt (a b : num) : bool := JS.gt b a.

(** The number of tenths that [x.toFixed(1)] prints: the integer [n] with
    [n / 10] nearest to [x], the one of larger magnitude on a tie. *)
Definition tenths (x : Q) : Z :=
  if Qle_bool 0 x then Qfloor (x * 10 + (1 # 2))
  else (- Qfloor (- x * 10 + (1 # 2)))%Z.

(** White space and line terminators, as [String.prototype.trim] strips
    them. *)
Definition is_space (c : N) : bool :=
  existsb (N.eqb c)
    [ 9; 10; 11; 12; 13; 32; 160; 5760; 8192; 8193; 8194; 8195; 8196; 8197;
      8198; 8199; 8200; 8201; 8202; 8232; 8233; 8239; 8287; 12288; 65279 ]%N.

Fixpoint trimStart (s : str) : str :=
  match s with
  | c :: t => if is_space c then trimStart t else s
  | [] => []
  end.

Definition trim (s : str) : str := rev (trimStart (rev (trimStart s))).

End JSMath.

(* ================================================================== *)
(** * The employees of the store (appStore.ts 109-121) *)
(* ================================================================== *)

Module Roster.

Section Actions.
(** An employee object and its [id] property; the actions read nothing
    else. *)
Variable E : Type.
Variable id : E -> str.

(** appStore.ts 109-115: the array that [updateEmployee] stores. *)
Definition updateEmployee (employee : E) (employees : list E) : list E :=
  map (fun e => if JS.str_eqb (id e) (id employee) then employee else e)
      employees.

(** appStore.ts 117-121: the array that [deleteEmployee] stores. *)
Definition deleteEmployee (i : str) (employees : list E) : list E :=
  filter (fun e => negb (JS.str_eqb (id e) i)) employees.
End Actions.

End Roster.

(* ================================================================== *)
(** * The slip: hours, bars and ratings (Header.tsx) *)
(* ================================================================== *)

Module SlipView.
Local Open Scope js_scope.

(** Header.tsx 228-233, and 1002-1007 with the same text: the literal
    ['0:00'], or the template of the hour and the minutes padded to two
    digits. *)
Inductive HoursText : Type :=
| ZeroText
| Clock (h m : num).

Definition formatHours (hours : num) : HoursText :=
  if negb (JS.truthy hours) then ZeroText
  else
    let h := JSMath.floor hours in
    let m := JS.round ((hours - h) * Fin 60) in
    Clock h m.

(** Header.tsx 688-717: the widths, in percent, of the bars of the hour
    composition that are rendered, in display order. *)
Definition hourBars (record : PayrollRecord.t) : list num :=
  let totalWorkHours := Slip.totalWorkHours record in
  (if (record.[workHours] || Fin 0) > Fin 0
   then [ ((record.[workHours] || Fin 0) / totalWorkHours) * Fin 100 ]
   else [])
  ++ (if (record.[overtimeHours] || Fin 0) > Fin 0
      then [ ((record.[overtimeHours] || Fin 0) / totalWorkHours) * Fin 100 ]
      else [])
  ++ (if (record.[overtimeOver60h] || Fin 0) > Fin 0
      then [ ((record.[overtimeOver60h] || Fin 0) / totalWorkHours)
             * Fin 100 ]
      else [])
  ++ (if (record.[holidayHours] || Fin 0) > Fin 0
      then [ ((record.[holidayHours] || Fin 0) / totalWorkHours) * Fin 100 ]
      else []).

(** Header.tsx 862: the width, in percent, of the margin bar. *)
Definition progressWidth (settings : Settings.t) (record : PayrollRecord.t)
  : num :=
  JSMath.min
    (Slip.marginRate record
     / ((Settings.target_margin settings || Fin 15) * Fin 2) * Fin 100)
    (Fin 100).

(** Header.tsx 867-870: the note under the bar says that the target is
    reached, or how far it is. *)
Definition targetReached (settings : Settings.t) (record : PayrollRecord.t)
  : bool :=
  Slip.marginRate record >= (Settings.target_margin settings || Fin 15).

Definition shortfall (settings : Settings.t) (record : PayrollRecord.t)
  : num :=
  (Settings.target_margin settings || Fin 15) - Slip.marginRate record.

(** Header.tsx 926-929: the rating of the performance badge. *)
Inductive rating : Type := Excellent | Good | Average | NeedsWork | Warning.

Definition performance (record : PayrollRecord.t) : rating :=
  let marginRate := Slip.marginRate record in
  if marginRate >= Fin 18 then Excellent
  else if marginRate >= Fin 15 then Good
  else if marginRate >= Fin 12 then Average
  else if marginRate >= Fin 10 then NeedsWork
  else Warning.

End SlipView.

(* ================================================================== *)
(** * The footer of the employee detail table (part_001 199-229) *)
(* ================================================================== *)

Module DetailFooter.
Local Open Scope js_scope.

Section Totals.
Variable employeeRecords : list PayrollRecord.t.

(** part_001 203-212: attendance totals, a missing value counting as 0. *)
Definition totalWorkDays : num :=
  Array.sum_of (fun r => r.[workDays] || Fin 0) employeeRecords.
Definition totalWorkHours : num :=
  Array.sum_of (fun r => r.[workHours] || Fin 0) employeeRecords.
Definition totalOvertimeHours : num :=
  Array.sum_of (fun r => r.[overtimeHours] || Fin 0) employeeRecords.
Definition totalPaidLeaveDays : num :=
  Array.sum_of (fun r => r.[paidLeaveDays] || Fin 0) employeeRecords.

(** part_001 215-221: money totals, added as they are. *)
Definition totalGrossSalary : num :=
  Array.sum_of (fun r => r.[grossSalary]) employeeRecords.
Definition totalBillingAmount : num :=
  Array.sum_of (fun r => r.[billingAmount]) employeeRecords.
Definition totalGrossProfit : num :=
  Array.sum_of (fun r => r.[grossProfit]) employeeRecords.
End Totals.

End DetailFooter.

(* ================================================================== *)
(** * The margin gauge (MarginGaugeChart.tsx) *)
(* ================================================================== *)

Module Gauge.
Local Open Scope js_scope.

(** MarginGaugeChart.tsx 23: the default of the parameter applies to
    [undefined] only. *)
Definition targetOf (targetMargin : num) : num :=
  match targetMargin with
  | undefined => Fin 15
  | v => v
  end.

(** MarginGaugeChart.tsx 27-34. *)
Definition displayMargin (currentMargin : num) : num :=
  JSMath.min (JSMath.max currentMargin (Fin 0)) (Fin 15).

Definition marginPercent (currentMargin : num) : num :=
  (displayMargin currentMargin / Fin 15) * Fin 100.

Definition gaugeData (currentMargin : num) : list num :=
  [ marginPercent currentMargin; Fin 100 - marginPercent currentMargin ].

(** MarginGaugeChart.tsx 37-42; the colours are named as the comments of
    the source name them. *)
Inductive color : Type := emerald | green | yellow | red.

Definition getMarginColor (margin : num) : color :=
  if margin >= Fin 10 then emerald
  else if margin >= Fin 7 then green
  else if margin >= Fin 3 then yellow
  else red.

(** MarginGaugeChart.tsx 45-46; [None] is [null]. *)
Definition isAboveTarget (currentMargin targetMargin : num) : bool :=
  currentMargin >= targetOf targetMargin.

Definition marginChange (currentMargin previousMargin : num) : option num :=
  match previousMargin with
  | undefined => None
  | _ => Some (currentMargin - previousMargin)
  end.

(** MarginGaugeChart.tsx 54-59 and 120-124: the values of the background
    segments and of the three segments of the target indicator. *)
Definition backgroundSegments : list num :=
  [ Fin 20; Fin 26.6; Fin 20; Fin 33.4 ].

Definition targetIndicator (targetMargin : num) : list num :=
  let targetMargin := targetOf targetMargin in
  [ (targetMargin / Fin 15) * Fin 100 - Fin 1;
    Fin 2;
    Fin 100 - (targetMargin / Fin 15) * Fin 100 - Fin 1 ].

End Gauge.

(* ================================================================== *)
(** * The file uploader (Header.tsx 1063-1138) *)
(* ================================================================== *)

Module Uploader.
Local Open Scope js_scope.

(** The four values of [status], capitalised. *)
Inductive Status : Type := Uploading | Processing | Success | Error.

(** The one error text of the uploader, a literal of line 1106. *)
Inductive ErrorText : Type := InvalidFormat.

Record UploadedFileInfo : Type := mkFile {
  id : str;
  name : str;
  size : num;
  status : Status;
  progress : num;
  records : num;               (* [undefined] when absent *)
  error : option ErrorText     (* [None] when absent *)
}.

(** Header.tsx 1067-1075: the entry of an accepted file, whose [id] is drawn
    by the caller, and the list after the drop. *)
Definition newFile (i n : str) (s : num) : UploadedFileInfo :=
  mkFile i n s Uploading (Fin 0) undefined None.

Definition onDrop (newFiles files : list UploadedFileInfo)
  : list UploadedFileInfo :=
  files ++ newFiles.

(** [prev.map(f => f.id === fileId ? g(f) : f)] *)
Definition update (fileId : str) (g : UploadedFileInfo -> UploadedFileInfo)
  (files : list UploadedFileInfo) : list UploadedFileInfo :=
  map (fun f => if JS.str_eqb (id f) fileId then g f else f) files.

(** Header.tsx 1085-1117: one run of the interval callback.  [u] is the
    value of [Math.random()], [progress] the variable of the closure; the
    result holds the variable, whether the interval is cleared, and the
    list. *)
Definition tick (fileId : str) (u : num) (progress : num)
  (files : list UploadedFileInfo) : num * bool * list UploadedFileInfo :=
  let progress := progress + u * Fin 15 in
  if progress >= Fin 100 then
    (Fin 100, true,
     update fileId
       (fun f => mkFile (id f) (name f) (size f) Processing (Fin 100)
                        (records f) (error f))
       files)
  else
    (progress, false,
     update fileId
       (fun f => mkFile (id f) (name f) (size f) (status f) progress
                        (records f) (error f))
       files).

(** The interval from its start: the callback runs on the draws in turn
    until it clears the interval.  The result counts the runs. *)
Fixpoint ticks (fileId : str) (draws : list num) (progress : num)
  (files : list UploadedFileInfo) : nat * bool * list UploadedFileInfo :=
  match draws with
  | [] => (0%nat, false, files)
  | u :: rest =>
      match tick fileId u progress files with
      | (_, true, files') => (1%nat, true, files')
      | (progress', false, files') =>
          match ticks fileId rest progress' files' with
          | (n, cleared, files'') => (S n, cleared, files'')
          end
      end
  end.

Definition simulateUpload (fileId : str) (draws : list num)
  (files : list UploadedFileInfo) : nat * bool * list UploadedFileInfo :=
  ticks fileId draws (Fin 0) files.

(** Header.tsx 1097-1111: the callback of the timeout; [u1] and [u2] are
    the values of the two calls of [Math.random()], the second one made
    on success only. *)
Definition processed (fileId : str) (u1 u2 : num)
  (files : list UploadedFileInfo) : list UploadedFileInfo :=
  let success := u1 > Fin 0.2 in
  update fileId
    (fun f => mkFile (id f) (name f) (size f)
                (if success then Success else Error)
                (progress f)
                (if success then JSMath.floor (u2 * Fin 50) + Fin 10
                 else undefined)
                (if success then None else Some InvalidFormat))
    files.

(** Header.tsx 1120-1122. *)
Definition removeFile (fileId : str) (files : list UploadedFileInfo)
  : list UploadedFileInfo :=
  filter (fun f => negb (JS.str_eqb (id f) fileId)) files.

(** [x.toFixed(1)]: the tenths printed for a finite number (below the
    magnitude where the exponent notation starts), the text of a value that
    is not one, a [TypeError] on [undefined]. *)
Inductive Fixed1 : Type :=
| Tenths (n : Z)
| NaNText
| InfinityText (negative : bool)
| TypeError.

Definition toFixed1 (v : num) : Fixed1 :=
  match v with
  | Fin q => Tenths (JSMath.tenths q)
  | NaN => NaNText
  | Inf s => InfinityText s
  | undefined => TypeError
  end.

(** Header.tsx 1134-1138: the number and the unit of the template. *)
Inductive SizeText : Type :=
| B (bytes : num)
| KB (value : Fixed1)
| MB (value : Fixed1).

Definition formatFileSize (bytes : num) : SizeText :=
  if JSMath.lt bytes (Fin 1024) then B bytes
  else if JSMath.lt bytes (Fin 1024 * Fin 1024)
       then KB (toFixed1 (bytes / Fin 1024))
       else MB (toFixed1 (bytes / (Fin 1024 * Fin 1024))).

End Uploader.

(* ================================================================== *)
(** * Synchronising from a folder (Header.tsx 1354-1407) *)
(* ================================================================== *)

Module FolderSync.

(** The texts that [setError] receives: three literals of the source
    (lines 1363, 1386 and 1396) and the strings that come from outside. *)
Inductive Message : Type :=
| EnterFolderPath
| ErrorOccurred
| NetworkError
| Text (s : str).

(** The parsed body of the response, taken to be an object, with the three
    properties that [handleSync] reads: [detail] a string when present, the
    two counts numbers when present. *)
Record Data : Type := mkData {
  detail : option str;
  total_records_saved : num;
  files_processed : num
}.

(** A thrown value: an [Error] with its message, or anything else. *)
Inductive Thrown : Type :=
| ErrorObject (message : str)
| OtherValue.

Inductive Outcome (A : Type) : Type :=
| Returns (a : A)
| Throws (e : Thrown).
Arguments Returns {A} a.
Arguments Throws {A} e.

Record Response : Type := mkResponse {
  ok : bool;
  json : Outcome Data
}.

(** What the outside answers during one run: [fetch], and
    [refreshFromBackend] if it comes to be called. *)
Record World : Type := mkWorld {
  fetch : Outcome Response;
  refreshFromBackend : Outcome unit
}.

(** The state of the component, and the calls that leave it. *)
Record State : Type := mkState {
  folderPath : str;
  isLoading : bool;
  result : option Data;
  error : option Message
}.

Inductive Call : Type :=
| Fetch (folder_path : str)
| Refresh.

(** [data.detail || '...'] *)
Definition detailOr (d : Data) : Message :=
  match detail d with
  | Some (c :: t) => Text (c :: t)
  | _ => ErrorOccurred
  end.

(** [err instanceof Error ? err.message : '...'] *)
Definition messageOf (e : Thrown) : Message :=
  match e with
  | ErrorObject m => Text m
  | OtherValue => NetworkError
  end.

(** [!folderPath.trim()] *)
Definition blank (path : str) : bool :=
  match JSMath.trim path with [] => true | _ :: _ => false end.

(** The state while the request is pending (lines 1367-1369). *)
Definition started (st : State) : State :=
  mkState (folderPath st) true None None.

(** Header.tsx 1361-1401: the state when [handleSync] has completed, and
    the calls it made, in order. *)
Definition handleSync (w : World) (st : State) : State * list Call :=
  if blank (folderPath st) then
    (mkState (folderPath st) (isLoading st) (result st)
             (Some EnterFolderPath), [])
  else
    let st := started st in
    let caught (e : Thrown) (calls : list Call) :=
      (mkState (folderPath st) false None (Some (messageOf e)), calls) in
    let calls := [Fetch (folderPath st)] in
    match fetch w with
    | Throws e => caught e calls
    | Returns response =>
        match json response with
        | Throws e => caught e calls
        | Returns data =>
            if negb (ok response) then
              (mkState (folderPath st) false None (Some (detailOr data)),
               calls)
            else
              if JS.gt (total_records_saved data) (Fin 0)
                 || JS.gt (files_processed data) (Fin 0)
              then
                match refreshFromBackend w with
                | Throws e => caught e (calls ++ [Refresh])
                | Returns _ =>
                    (mkState (folderPath st) false (Some data) None,
                     calls ++ [Refresh])
                end
              else (mkState (folderPath st) false (Some data) None, calls)
        end
    end.

(** Header.tsx 1403-1407; [enter] says that the key is Enter. *)
Definition handleKeyPress (enter : bool) (w : World) (st : State)
  : State * list Call :=
  if enter && negb (isLoading st) then handleSync w st else (st, []).

(** Header.tsx 1441: the button is disabled. *)
Definition disabled (st : State) : bool :=
  isLoading st || blank (folderPath st).

End FolderSync.

(* ================================================================== *)
(** * Synchronising the employees (settings/page.tsx 30-61) *)
(* ================================================================== *)

Module SettingsSync.

(** The statistics of a run, as the page prints them. *)
Record Stats : Type := mkStats {
  haken_added : num;
  ukeoi_added : num;
  total_errors : num
}.

(** The [data] of an answer of [syncApi.syncEmployees]. *)
Record Data : Type := mkData {
  success : bool;
  message : str;
  stats : option Stats
}.

(** An answer: [data] and [error], each one possibly absent.  The call is
    taken to resolve; [@/lib/api] is not among the sources. *)
Record Answer : Type := mkAnswer {
  data : option Data;
  error : option str
}.

(** [syncStatus] when it is not [null]. *)
Record Status : Type := mkStatus {
  shown_success : bool;
  shown_message : str;
  shown_stats : option Stats
}.

(** The state of the page that [handleSync] writes, and the number of
    timeouts that are pending. *)
Record State : Type := mkState {
  isSyncing : bool;
  syncStatus : option Status;
  timers : nat
}.

(** [if (error)]: a string that is not empty. *)
Definition truthy (e : option str) : bool :=
  match e with
  | Some (_ :: _) => true
  | _ => false
  end.

(** settings/page.tsx 37-61: the state when [handleSync] has completed. *)
Definition handleSync (a : Answer) (st : State) : State :=
  let st := mkState true None (timers st) in
  let st :=
    if truthy (error a) then
      mkState (isSyncing st)
              (Some (mkStatus false
                       (match error a with Some e => e | None => [] end)
                       None))
              (timers st)
    else
      match data a with
      | Some d =>
          mkState (isSyncing st)
                  (Some (mkStatus (success d) (message d) (stats d)))
                  (if success d then S (timers st) else timers st)
      | None => st
      end in
  mkState false (syncStatus st) (timers st).

(** The callback of the timeout of line 56, run when one is pending. *)
Definition autoClear (st : State) : State :=
  match timers st with
  | O => st
  | S n => mkState (isSyncing st) None n
  end.

End SettingsSync.

(* ================================================================== *)
(** * Further sample data *)
(* ================================================================== *)

Module Fixture.

(** A record of November 2025 with a margin of 15 percent. *)
Definition november : PayrollRecord.t :=
  PayrollRecord.literal (lit "E002") (Period.token "2025" "11")
    [ (grossProfit, Fin 30000); (billingAmount, Fin 200000) ].

(** A month of 168 hours in 20 days with 14,700 of paid leave: at 1,000 an
    hour that is 14.7 hours, a day and three quarters. *)
Definition quarter : PayrollRecord.t :=
  PayrollRecord.literal (lit "E001") (Period.token "2025" "11")
    [ (workDays, Fin 20); (workHours, Fin 168); (paidLeaveAmount, Fin 14700) ].

(** A store that holds the employee E001, paid 1,000 an hour, and a record
    of the employee E005 with 8 hours of paid leave. *)
Definition orphaned : Store.AppState :=
  Store.mkState [Sample.employee] [Sample.leaveStored] [] [].

(** A record whose gross salary was never filled in. *)
Definition unpaid : PayrollRecord.t :=
  PayrollRecord.literal (lit "E009") (Period.token "2025" "11")
    [ (socialInsurance, Fin 8000); (welfarePension, Fin 15000) ].

(** A file that was just dropped. *)
Definition dropped : Uploader.UploadedFileInfo :=
  Uploader.newFile (lit "a1") (lit "slip.xlsx") (Fin 2048).

(** The server cannot be reached: [fetch] rejects. *)
Definition offline : FolderSync.World :=
  FolderSync.mkWorld (FolderSync.Throws FolderSync.OtherValue)
                     (FolderSync.Returns tt).

(** A path of two spaces, typed after a run that saved three records, and
    a path typed on a fresh component. *)
Definition spaces : FolderSync.State :=
  FolderSync.mkState (lit "  ") false
    (Some (FolderSync.mkData None (Fin 3) (Fin 1))) None.

Definition typed : FolderSync.State :=
  FolderSync.mkState (lit "D:/slips") false None None.

(** An answer that reports a success, and one that carries an error. *)
Definition synced : SettingsSync.Answer :=
  SettingsSync.mkAnswer
    (Some (SettingsSync.mkData true (lit "synced") None)) None.

Definition refused : SettingsSync.Answer :=
  SettingsSync.mkAnswer None (Some (lit "refused")).

Definition idlePage : SettingsSync.State :=
  SettingsSync.mkState false None 0.

End Fixture.

(* ================================================================== *)
(** * Properties of the number model *)
(* ================================================================== *)

Section NumberFacts.

Lemma Qltb_iff (a b : Q) : JS.Qltb a b = true <-> (a < b)%Q.
Proof.
  unfold JS.Qltb. rewrite negb_true_iff.
  destruct (Qle_bool b a) eqn:E.
  - apply Qle_bool_iff in E. split; [discriminate | intro; lra].
  - split; [intros _ | reflexivity].
    destruct (Qlt_le_dec a b) as [H | H]; [exact H |].
    apply Qle_bool_iff in H. congruence.
Qed.

Lemma Qltb_false_iff (a b : Q) : JS.Qltb a b = false <-> (b <= a)%Q.
Proof.
  unfold JS.Qltb. rewrite negb_false_iff. apply Qle_bool_iff.
Qed.

Lemma gt_Fin (a b : Q) : JS.gt (Fin a) (Fin b) = true <-> (b < a)%Q.
Proof. apply Qltb_iff. Qed.

Lemma gt_Fin_false (a b : Q) : JS.gt (Fin a) (Fin b) = false <-> (a <= b)%Q.
Proof. apply Qltb_false_iff. Qed.

Lemma ge_Fin (a b : Q) : JS.ge (Fin a) (Fin b) = true <-> (b <= a)%Q.
Proof. apply Qle_bool_iff. Qed.

Lemma ge_Fin_false (a b : Q) : JS.ge (Fin a) (Fin b) = false <-> (a < b)%Q.
Proof.
  simpl. destruct (Qle_bool b a) eqn:E.
  - apply Qle_bool_iff in E. split; [discriminate | intro; lra].
  - split; [intros _ | reflexivity].
    destruct (Qlt_le_dec a b) as [H | H]; [exact H |].
    apply Qle_bool_iff in H. congruence.
Qed.

Lemma truthy_Fin (q : Q) : JS.truthy (Fin q) = true <-> ~ (q == 0)%Q.
Proof.
  simpl. rewrite negb_true_iff. split.
  - intro H. now apply Qeq_bool_neq.
  - intro H. destruct (Qeq_bool q 0) eqn:E; [| reflexivity].
    apply Qeq_bool_iff in E. contradiction.
Qed.

Lemma truthy_Fin_false (q : Q) : JS.truthy (Fin q) = false <-> (q == 0)%Q.
Proof. simpl. rewrite negb_false_iff. apply Qeq_bool_iff. Qed.

(** A value greater than zero is truthy. *)
Lemma gt_zero_truthy (a : num) : JS.gt a (Fin 0) = true -> JS.truthy a = true.
Proof.
  destruct a as [| | s | q]; simpl; try discriminate; [reflexivity |].
  intro H. apply Qltb_iff in H. apply truthy_Fin. lra.
Qed.

(** What is greater than zero is a positive rational or [Infinity]. *)
Lemma gt_zero_inv (a : num) :
  JS.gt a (Fin 0) = true ->
  a = Inf false \/ exists q, a = Fin q /\ (0 < q)%Q.
Proof.
  destruct a as [| | [|] | q]; simpl; try discriminate.
  - now left.
  - intro H. right. exists q. split; [reflexivity | now apply Qltb_iff].
Qed.

Lemma or_truthy (a b : num) : JS.truthy a = true -> JS.or a b = a.
Proof. unfold JS.or. now intros ->. Qed.

Lemma or_falsy (a b : num) : JS.truthy a = false -> JS.or a b = b.
Proof. unfold JS.or. now intros ->. Qed.

Lemma or_undefined (b : num) : JS.or undefined b = b.
Proof. reflexivity. Qed.

(** [v || 0] is never [NaN] nor [undefined]. *)
Lemma or_zero_number (a : num) :
  JS.or a (Fin 0) <> NaN /\ JS.or a (Fin 0) <> undefined.
Proof.
  destruct a; unfold JS.or; simpl; try destruct (Qeq_bool q 0);
    split; discriminate.
Qed.

Lemma equiv_refl (a : num) : JS.equiv a a.
Proof.
  destruct a as [| | s | q]; unfold JS.equiv; simpl; try reflexivity.
  - apply eqb_reflx.
  - apply Qeq_bool_refl.
Qed.

Lemma equiv_sym (a b : num) : JS.equiv a b -> JS.equiv b a.
Proof.
  destruct a as [| | s | q], b as [| | s' | q']; unfold JS.equiv; simpl;
    try discriminate; try reflexivity.
  - destruct s, s'; simpl; congruence.
  - intro H. now apply Qeq_bool_sym.
Qed.

Lemma equiv_trans (a b c : num) : JS.equiv a b -> JS.equiv b c -> JS.equiv a c.
Proof.
  destruct a as [| | s | q], b as [| | s' | q'], c as [| | s'' | q''];
    unfold JS.equiv; simpl; try discriminate; try reflexivity.
  - destruct s, s', s''; simpl; congruence.
  - apply Qeq_bool_trans.
Qed.

Lemma equiv_Fin (a b : Q) : JS.equiv (Fin a) (Fin b) <-> (a == b)%Q.
Proof. apply Qeq_bool_iff. Qed.

End NumberFacts.

(* ================================================================== *)
(** * Doubles *)
(* ================================================================== *)

Section Doubles.
Local Open Scope Q_scope.

Lemma pow2_pos (k : Z) : 0 < 2 ^ k.
Proof. apply Qpower_0_lt. reflexivity. Qed.

Lemma pow2_add (a b : Z) : 2 ^ (a + b) == 2 ^ a * 2 ^ b.
Proof. apply Qpower_plus. discriminate. Qed.

Lemma pow2_inject (k : Z) : (0 <= k)%Z -> inject_Z (2 ^ k) == 2 ^ k.
Proof. intro H. now rewrite Zpower_Qpower. Qed.

Lemma magnitude_abs (q : Q) : JS.magnitude q == Qabs q.
Proof. destruct q as [n d]. reflexivity. Qed.

Lemma exponent_le (q : Q) : ~ q == 0 -> 2 ^ JS.exponent q <= JS.magnitude q.
Proof.
  intro N. unfold JS.exponent.
  set (n := Z.abs (Qnum q)). set (d := Z.pos (Qden q)).
  destruct (Qle_bool (2 ^ (Z.log2 n - Z.log2 d)) (JS.magnitude q)) eqn:E.
  - now apply Qle_bool_iff.
  - assert (Pn : (0 < n)%Z).
    { unfold n. destruct q as [[| a | a] b]; simpl; try lia.
      exfalso. apply N. reflexivity. }
    assert (Pd : (0 < d)%Z) by (unfold d; lia).
    pose proof (Z.log2_spec n Pn) as [Ln _].
    pose proof (Z.log2_spec d Pd) as [_ Ud].
    pose proof (Z.log2_nonneg n) as Nn. pose proof (Z.log2_nonneg d) as Nd.
    replace (Z.log2 n - Z.log2 d - 1)%Z
      with (Z.log2 n + - (Z.succ (Z.log2 d)))%Z by lia.
    rewrite pow2_add, Qpower_opp.
    rewrite <- (@pow2_inject (Z.log2 n)) by lia.
    rewrite <- (@pow2_inject (Z.succ (Z.log2 d))) by lia.
    assert (M : JS.magnitude q == inject_Z n / inject_Z d).
    { unfold JS.magnitude. fold n. rewrite (Qmake_Qdiv n (Qden q)). reflexivity. }
    rewrite M.
    assert (A : inject_Z (2 ^ Z.log2 n) <= inject_Z n)
      by now rewrite <- Zle_Qle.
    assert (B : inject_Z d < inject_Z (2 ^ Z.succ (Z.log2 d)))
      by now rewrite <- Zlt_Qlt.
    assert (D0 : 0 < inject_Z d) by (rewrite <- (Zlt_Qlt 0); exact Pd).
    assert (P2 : 0 < inject_Z (2 ^ Z.log2 n)).
    { rewrite <- (Zlt_Qlt 0). apply Z.pow_pos_nonneg; lia. }
    set (x := inject_Z (2 ^ Z.log2 n)) in *.
    set (y := inject_Z (2 ^ Z.succ (Z.log2 d))) in *.
    set (a := inject_Z n) in *. set (b := inject_Z d) in *.
    apply Qle_shift_div_l; [exact D0 |].
    assert (Y0 : 0 < y) by lra.
    apply Qle_trans with (x * / y * y).
    + apply Qmult_le_l.
      * apply Qmult_lt_0_compat; [exact P2 | now apply Qinv_lt_0_compat].
      * lra.
    + assert (X : x * / y * y == x) by (field; lra). rewrite X. exact A.
Qed.

Lemma nearest_even_bounds (m : Q) :
  m - (1 # 2) <= inject_Z (JS.nearest_even m)
  /\ inject_Z (JS.nearest_even m) <= m + (1 # 2).
Proof.
  unfold JS.nearest_even.
  pose proof (Qfloor_le m) as L. pose proof (Qlt_floor m) as U.
  rewrite inject_Z_plus in U. change (inject_Z 1) with 1 in U.
  destruct (JS.Qltb (m - inject_Z (Qfloor m)) (1 # 2)) eqn:A.
  - apply Qltb_iff in A. split; lra.
  - assert (A' : (1 # 2) <= m - inject_Z (Qfloor m)).
    { apply Qnot_lt_le. intro X. apply Qltb_iff in X. congruence. }
    assert (S : inject_Z (Qfloor m + 1) == inject_Z (Qfloor m) + 1)
      by (rewrite inject_Z_plus; reflexivity).
    destruct (JS.Qltb (1 # 2) (m - inject_Z (Qfloor m))) eqn:B.
    + rewrite S. split; lra.
    + assert (B' : m - inject_Z (Qfloor m) <= (1 # 2)).
      { apply Qnot_lt_le. intro X. apply Qltb_iff in X. congruence. }
      destruct (Z.even (Qfloor m)); [| rewrite S]; split; lra.
Qed.

Lemma Qltb_comp (a a' b b' : Q) :
  a == a' -> b == b' -> JS.Qltb a b = JS.Qltb a' b'.
Proof.
  intros Ha Hb. destruct (JS.Qltb a' b') eqn:E.
  - apply Qltb_iff. apply Qltb_iff in E. lra.
  - destruct (JS.Qltb a b) eqn:F; [| reflexivity].
    apply Qltb_iff in F. assert (X : a' < b') by lra.
    apply Qltb_iff in X. congruence.
Qed.

Lemma nearest_even_comp (a b : Q) : a == b -> JS.nearest_even a = JS.nearest_even b.
Proof.
  intro H. unfold JS.nearest_even. rewrite (Qfloor_comp a b H).
  rewrite (@Qltb_comp (a - inject_Z (Qfloor b)) (b - inject_Z (Qfloor b))
             (1 # 2) (1 # 2)) by (try reflexivity; lra).
  rewrite (@Qltb_comp (1 # 2) (1 # 2) (a - inject_Z (Qfloor b))
             (b - inject_Z (Qfloor b))) by (try reflexivity; lra).
  reflexivity.
Qed.

Lemma double_comp (a b : Q) : a == b -> JS.double a = JS.double b.
Proof. intro H. unfold JS.double. now rewrite (Qred_complete a b H). Qed.

Lemma double_zero (q : Q) : q == 0 -> JS.double q = 0.
Proof. intro H. now rewrite (@double_comp q 0 H). Qed.

(** What [JS.double] returns for a number other than 0. *)
Lemma double_value (q : Q) :
  ~ q == 0 ->
  let p := (JS.exponent (Qred q) - 52)%Z in
  JS.double q == inject_Z (JS.nearest_even (q * 2 ^ (- p))) * 2 ^ p
  /\ 2 ^ 52 <= Qabs q * 2 ^ (- p).
Proof.
  intro N. cbv zeta. unfold JS.double, JS.scale2.
  assert (R : Qred q == q) by apply Qred_correct.
  assert (N' : ~ Qred q == 0) by (rewrite R; exact N).
  destruct (Qeq_bool (Qred q) 0) eqn:E;
    [apply Qeq_bool_iff in E; contradiction |].
  set (p := (JS.exponent (Qred q) - 52)%Z).
  split.
  - rewrite Qred_correct.
    rewrite (@nearest_even_comp (Qred q * 2 ^ (- p)) (q * 2 ^ (- p)));
      [reflexivity | now rewrite R].
  - pose proof (@exponent_le (Qred q) N') as L.
    rewrite magnitude_abs in L.
    assert (A : Qabs (Qred q) == Qabs q) by (apply Qabs_wd; exact R).
    rewrite A in L.
    replace 52%Z with (JS.exponent (Qred q) + - p)%Z by (unfold p; lia).
    rewrite pow2_add. apply Qmult_le_compat_r; [exact L |].
    apply Qlt_le_weak, pow2_pos.
Qed.

Lemma double_pos (q : Q) : 0 < q -> 0 < JS.double q.
Proof.
  intro P. assert (N : ~ q == 0) by lra.
  destruct (@double_value q N) as [V B]. cbv zeta in V, B.
  set (p := (JS.exponent (Qred q) - 52)%Z) in *. rewrite V.
  rewrite Qabs_pos in B by lra.
  destruct (nearest_even_bounds (q * 2 ^ (- p))) as [L _].
  assert (One : 1 <= 2 ^ 52) by (vm_compute; discriminate).
  apply Qmult_lt_0_compat; [lra | apply pow2_pos].
Qed.

Lemma double_neg (q : Q) : q < 0 -> JS.double q < 0.
Proof.
  intro P. assert (N : ~ q == 0) by lra.
  destruct (@double_value q N) as [V B]. cbv zeta in V, B.
  set (p := (JS.exponent (Qred q) - 52)%Z) in *. rewrite V.
  rewrite Qabs_neg in B by lra.
  destruct (nearest_even_bounds (q * 2 ^ (- p))) as [_ U].
  assert (One : 1 <= 2 ^ 52) by (vm_compute; discriminate).
  assert (X : - q * 2 ^ (- p) == - (q * 2 ^ (- p))) by ring.
  rewrite X in B.
  assert (K : inject_Z (JS.nearest_even (q * 2 ^ (- p))) < 0) by lra.
  pose proof (pow2_pos p) as Pp.
  assert (M : 0 < - inject_Z (JS.nearest_even (q * 2 ^ (- p))) * 2 ^ p)
    by (apply Qmult_lt_0_compat; lra).
  assert (Y : - inject_Z (JS.nearest_even (q * 2 ^ (- p))) * 2 ^ p
              == - (inject_Z (JS.nearest_even (q * 2 ^ (- p))) * 2 ^ p)) by ring.
  lra.
Qed.

(** The JS.double nearest to a number is at most 2^-53 of it away. *)
Lemma double_error (q : Q) :
  Qabs (JS.double q - q) <= Qabs q * 2 ^ (- 53).
Proof.
  destruct (Qeq_dec q 0) as [Z | N].
  - rewrite (@double_zero q Z), Z. vm_compute. discriminate.
  - destruct (@double_value q N) as [V B]. cbv zeta in V, B.
    set (p := (JS.exponent (Qred q) - 52)%Z) in *.
    set (m := q * 2 ^ (- p)) in *.
    destruct (nearest_even_bounds m) as [L U].
    pose proof (pow2_pos p) as Pp.
    assert (Q' : q == m * 2 ^ p).
    { unfold m. rewrite <- Qmult_assoc, <- pow2_add.
      replace (- p + p)%Z with 0%Z by lia. change (2 ^ 0) with 1. ring. }
    assert (D : JS.double q - q == (inject_Z (JS.nearest_even m) - m) * 2 ^ p).
    { rewrite V.
      transitivity (inject_Z (JS.nearest_even m) * 2 ^ p - m * 2 ^ p);
        [now rewrite <- Q' | ring]. }
    rewrite D, Qabs_Qmult, (Qabs_pos (2 ^ p)) by lra.
    assert (H : Qabs (inject_Z (JS.nearest_even m) - m) <= 1 # 2)
      by (apply Qabs_Qle_condition; split; lra).
    apply Qle_trans with ((1 # 2) * 2 ^ p).
    + apply Qmult_le_compat_r; [exact H | lra].
    + assert (E : Qabs q * 2 ^ (- 53)
                  == Qabs q * 2 ^ (- p) * (2 ^ (- 53) * 2 ^ p)).
      { rewrite <- (Qmult_assoc (Qabs q)), (Qmult_comm (2 ^ (- 53))).
        rewrite (Qmult_assoc (2 ^ (- p))), <- (pow2_add (- p) p).
        replace (- p + p)%Z with 0%Z by lia. change (2 ^ 0) with 1. ring. }
      rewrite E.
      assert (F : (1 # 2) * 2 ^ p == 2 ^ 52 * (2 ^ (- 53) * 2 ^ p))
        by (change (2 ^ 52 * (2 ^ (- 53) * 2 ^ p))
              with (4503599627370496 * ((1 # 9007199254740992) * 2 ^ p));
            ring).
      rewrite F. apply Qmult_le_compat_r; [exact B |].
      apply Qlt_le_weak, Qmult_lt_0_compat; [reflexivity | exact Pp].
Qed.

Lemma mult_le_l (z x y : Q) : 0 <= z -> x <= y -> z * x <= z * y.
Proof.
  intros Hz H. rewrite (Qmult_comm z x), (Qmult_comm z y).
  now apply Qmult_le_compat_r.
Qed.

(** A product of doubles is at most 2^-51 of the exact product away from
    it: each operand and the result are rounded once. *)
Lemma mul64_error (a b : Q) :
  Qabs (JS.double (JS.double a * JS.double b) - a * b)
  <= Qabs (a * b) * 2 ^ (- 51).
Proof.
  set (u := 2 ^ (- 53)).
  pose proof (double_error a) as H1. pose proof (double_error b) as H2.
  pose proof (double_error (JS.double a * JS.double b)) as H3.
  fold u in H1, H2, H3.
  set (da := JS.double a) in *. set (db := JS.double b) in *.
  set (y := JS.double (da * db)) in *.
  pose proof (Qabs_nonneg a) as A0. pose proof (Qabs_nonneg b) as B0.
  assert (U0 : 0 <= u) by (vm_compute; discriminate).
  assert (DA : Qabs da <= Qabs a * (1 + u)).
  { assert (E : da == (da - a) + a) by ring.
    rewrite E at 1. eapply Qle_trans; [apply Qabs_triangle |]. lra. }
  assert (DB : Qabs db <= Qabs b * (1 + u)).
  { assert (E : db == (db - b) + b) by ring.
    rewrite E at 1. eapply Qle_trans; [apply Qabs_triangle |]. lra. }
  assert (P : Qabs (da * db) <= Qabs a * Qabs b * ((1 + u) * (1 + u))).
  { rewrite Qabs_Qmult.
    apply Qle_trans with (Qabs a * (1 + u) * (Qabs b * (1 + u))).
    - apply Qle_trans with (Qabs a * (1 + u) * Qabs db).
      + apply Qmult_le_compat_r; [exact DA | apply Qabs_nonneg].
      + apply mult_le_l; [| exact DB].
        apply Qmult_le_0_compat; lra.
    - apply Qle_lteq. right. ring. }
  assert (T : Qabs (da * db - a * b)
              <= Qabs a * Qabs b * (u * (1 + u) + u)).
  { assert (E : da * db - a * b == (da - a) * db + a * (db - b)) by ring.
    rewrite E. eapply Qle_trans; [apply Qabs_triangle |].
    rewrite !Qabs_Qmult.
    assert (X1 : Qabs (da - a) * Qabs db
                 <= Qabs a * u * (Qabs b * (1 + u))).
    { apply Qle_trans with (Qabs a * u * Qabs db).
      - apply Qmult_le_compat_r; [exact H1 | apply Qabs_nonneg].
      - apply mult_le_l; [| exact DB].
        apply Qmult_le_0_compat; lra. }
    assert (X2 : Qabs a * Qabs (db - b) <= Qabs a * (Qabs b * u))
      by (apply mult_le_l; [exact A0 | exact H2]).
    assert (R : Qabs a * u * (Qabs b * (1 + u)) + Qabs a * (Qabs b * u)
                == Qabs a * Qabs b * (u * (1 + u) + u)) by ring.
    rewrite <- R. lra. }
  assert (E3 : Qabs (y - da * db)
               <= Qabs a * Qabs b * ((1 + u) * (1 + u) * u)).
  { eapply Qle_trans; [exact H3 |].
    apply Qle_trans with (Qabs a * Qabs b * ((1 + u) * (1 + u)) * u).
    - apply Qmult_le_compat_r; [exact P | exact U0].
    - apply Qle_lteq. right. ring. }
  assert (S : y - a * b == (y - da * db) + (da * db - a * b)) by ring.
  rewrite S. eapply Qle_trans; [apply Qabs_triangle |].
  rewrite (Qabs_Qmult a b).
  assert (K : (1 + u) * (1 + u) * u + (u * (1 + u) + u) <= 2 ^ (- 51))
    by (vm_compute; discriminate).
  apply Qle_trans
    with (Qabs a * Qabs b * ((1 + u) * (1 + u) * u + (u * (1 + u) + u))).
  - assert (R : Qabs a * Qabs b * ((1 + u) * (1 + u) * u + (u * (1 + u) + u))
                == Qabs a * Qabs b * ((1 + u) * (1 + u) * u)
                   + Qabs a * Qabs b * (u * (1 + u) + u)) by ring.
    rewrite R. lra.
  - apply mult_le_l; [| exact K].
    apply Qmult_le_0_compat; assumption.
Qed.

(** The operations on doubles, on finite numbers. *)
Lemma mul64_Fin (a b : Q) :
  JS.mul64 (Fin a) (Fin b) = Fin (JS.double (JS.double a * JS.double b)).
Proof. reflexivity. Qed.

Lemma div64_Fin_pos (a b : Q) :
  0 < b ->
  JS.div64 (Fin a) (Fin b) = Fin (JS.double (JS.double a / JS.double b)).
Proof.
  intro P. unfold JS.div64, JS.as_double, JS.div.
  pose proof (@double_pos b P) as D.
  destruct (Qeq_bool (JS.double b) 0) eqn:E; [| reflexivity].
  apply Qeq_bool_iff in E. lra.
Qed.

Lemma exponent_lt (q : Q) : ~ q == 0 -> JS.magnitude q < 2 ^ (JS.exponent q + 1).
Proof.
  intro N. unfold JS.exponent.
  set (n := Z.abs (Qnum q)). set (d := Z.pos (Qden q)).
  destruct (Qle_bool (2 ^ (Z.log2 n - Z.log2 d)) (JS.magnitude q)) eqn:E.
  - assert (Pn : (0 < n)%Z).
    { unfold n. destruct q as [[| a | a] b]; simpl; try lia.
      exfalso. apply N. reflexivity. }
    assert (Pd : (0 < d)%Z) by (unfold d; lia).
    pose proof (Z.log2_spec n Pn) as [_ Un].
    pose proof (Z.log2_spec d Pd) as [Ld _].
    pose proof (Z.log2_nonneg n) as Nn. pose proof (Z.log2_nonneg d) as Nd.
    replace (Z.log2 n - Z.log2 d + 1)%Z
      with (Z.succ (Z.log2 n) + - Z.log2 d)%Z by lia.
    rewrite pow2_add, Qpower_opp.
    rewrite <- (@pow2_inject (Z.succ (Z.log2 n))) by lia.
    rewrite <- (@pow2_inject (Z.log2 d)) by lia.
    assert (M : JS.magnitude q == inject_Z n / inject_Z d).
    { unfold JS.magnitude. fold n. rewrite (Qmake_Qdiv n (Qden q)). reflexivity. }
    rewrite M.
    assert (A : inject_Z n < inject_Z (2 ^ Z.succ (Z.log2 n)))
      by now rewrite <- Zlt_Qlt.
    assert (B : inject_Z (2 ^ Z.log2 d) <= inject_Z d)
      by now rewrite <- Zle_Qle.
    assert (D0 : 0 < inject_Z d) by (rewrite <- (Zlt_Qlt 0); exact Pd).
    assert (P2 : 0 < inject_Z (2 ^ Z.log2 d)).
    { rewrite <- (Zlt_Qlt 0). apply Z.pow_pos_nonneg; lia. }
    assert (N0 : 0 < inject_Z n) by (rewrite <- (Zlt_Qlt 0); exact Pn).
    set (x := inject_Z (2 ^ Z.succ (Z.log2 n))) in *.
    set (y := inject_Z (2 ^ Z.log2 d)) in *.
    set (a := inject_Z n) in *. set (b := inject_Z d) in *.
    apply Qlt_shift_div_r; [exact D0 |].
    apply Qlt_le_trans with (x * / y * y).
    + assert (X : x * / y * y == x) by (field; lra). rewrite X. exact A.
    + apply mult_le_l; [| exact B].
      apply Qlt_le_weak, Qmult_lt_0_compat; [lra | now apply Qinv_lt_0_compat].
  - replace (Z.log2 n - Z.log2 d - 1 + 1)%Z with (Z.log2 n - Z.log2 d)%Z
      by lia.
    apply Qnot_le_lt. intro L. apply Qle_bool_iff in L. congruence.
Qed.

Lemma exponent_unique (q : Q) (e : Z) :
  ~ q == 0 -> 2 ^ e <= JS.magnitude q -> JS.magnitude q < 2 ^ (e + 1) ->
  JS.exponent q = e.
Proof.
  intros N L U.
  pose proof (@exponent_le q N) as L'. pose proof (@exponent_lt q N) as U'.
  assert (A : (e < JS.exponent q + 1)%Z).
  { apply (Qpower_lt_compat_l_inv 2); [| reflexivity].
    eapply Qle_lt_trans; eassumption. }
  assert (B : (JS.exponent q < e + 1)%Z).
  { apply (Qpower_lt_compat_l_inv 2); [| reflexivity].
    eapply Qle_lt_trans; eassumption. }
  lia.
Qed.

Lemma nearest_even_Z (k : Z) : JS.nearest_even (inject_Z k) = k.
Proof.
  unfold JS.nearest_even. rewrite Qfloor_Z.
  assert (H : Qltb (inject_Z k - inject_Z k) (1 # 2) = true)
    by (apply Qltb_iff; lra).
  now rewrite H.
Qed.

Lemma double_canonical (q : Q) : Qred (JS.double q) = JS.double q.
Proof.
  unfold JS.double. destruct (Qeq_bool (Qred q) 0); [reflexivity |].
  apply Qred_complete, Qred_correct.
Qed.

(** A number with a significand of 53 bits is a JS.double. *)
Lemma double_representable (k p : Z) :
  (2 ^ 52 <= Z.abs k < 2 ^ 53)%Z ->
  JS.double (inject_Z k * 2 ^ p) == inject_Z k * 2 ^ p.
Proof.
  intros [Lk Uk]. set (q := inject_Z k * 2 ^ p).
  pose proof (pow2_pos p) as Pp.
  assert (Ak : Qabs (inject_Z k) == inject_Z (Z.abs k))
    by reflexivity.
  assert (Aq : Qabs q == inject_Z (Z.abs k) * 2 ^ p).
  { unfold q. rewrite Qabs_Qmult, Ak, (Qabs_pos (2 ^ p)) by lra.
    reflexivity. }
  rewrite Zle_Qle in Lk. rewrite Zlt_Qlt in Uk.
  change (inject_Z (2 ^ 52)) with (2 ^ 52) in Lk.
  change (inject_Z (2 ^ 53)) with (2 ^ 53) in Uk.
  assert (P52 : 0 < 2 ^ 52) by reflexivity.
  assert (N : ~ q == 0).
  { intro Z. assert (X : Qabs q == 0) by (rewrite Z; reflexivity).
    rewrite Aq in X.
    assert (Y : 0 < inject_Z (Z.abs k) * 2 ^ p)
      by (apply Qmult_lt_0_compat; lra).
    lra. }
  assert (R : Qred q == q) by apply Qred_correct.
  assert (N' : ~ Qred q == 0) by (rewrite R; exact N).
  assert (E : JS.exponent (Qred q) = (p + 52)%Z).
  { apply exponent_unique; [exact N' | |];
      rewrite magnitude_abs, (Qabs_wd _ _ R), Aq.
    - rewrite Z.add_comm, pow2_add. apply Qmult_le_compat_r; lra.
    - replace (p + 52 + 1)%Z with (53 + p)%Z by lia. rewrite pow2_add.
      apply Qmult_lt_compat_r; lra. }
  destruct (@double_value q N) as [V _]. cbv zeta in V. rewrite E in V.
  replace (p + 52 - 52)%Z with p in V by lia.
  rewrite V.
  rewrite (@nearest_even_comp (q * 2 ^ (- p)) (inject_Z k)), nearest_even_Z;
    [reflexivity |].
  unfold q. rewrite <- Qmult_assoc, <- pow2_add.
  replace (p + - p)%Z with 0%Z by lia. change (2 ^ 0) with 1. ring.
Qed.

(** The JS.double nearest to a JS.double is that JS.double. *)
Lemma double_idempotent (q : Q) : JS.double (JS.double q) = JS.double q.
Proof.
  enough (H : JS.double (JS.double q) == JS.double q).
  { apply Qred_complete in H. now rewrite !double_canonical in H. }
  destruct (Qeq_dec q 0) as [Z | N].
  - rewrite (@double_zero q Z). reflexivity.
  - destruct (@double_value q N) as [V B]. cbv zeta in V, B.
    assert (R : Qred q == q) by apply Qred_correct.
    assert (N' : ~ Qred q == 0) by (rewrite R; exact N).
    pose proof (@exponent_lt (Qred q) N') as U.
    rewrite magnitude_abs, (Qabs_wd _ _ R) in U.
    set (p := (JS.exponent (Qred q) - 52)%Z) in *.
    set (m := q * 2 ^ (- p)) in *.
    pose proof (pow2_pos (- p)) as Pp.
    assert (Am : Qabs m == Qabs q * 2 ^ (- p))
      by (unfold m; rewrite Qabs_Qmult, (Qabs_pos (2 ^ (- p))) by lra;
          reflexivity).
    assert (Um : Qabs m < 2 ^ 53).
    { rewrite Am. replace 53%Z with (JS.exponent (Qred q) + 1 + - p)%Z
        by (unfold p; lia).
      rewrite pow2_add. apply Qmult_lt_compat_r; [exact Pp | exact U]. }
    rewrite <- Am in B.
    destruct (nearest_even_bounds m) as [Ln Un].
    set (k := JS.nearest_even m) in *.
    change (2 ^ 52) with (inject_Z (2 ^ 52)) in B.
    change (2 ^ 53) with (inject_Z (2 ^ 53)) in Um.
    assert (K : (2 ^ 52 <= Z.abs k <= 2 ^ 53)%Z).
    { destruct (Qlt_le_dec m 0) as [Neg | Pos].
      - rewrite Qabs_neg in B, Um by lra.
        assert (X : inject_Z k < inject_Z (- 2 ^ 52 + 1))
          by (rewrite inject_Z_plus, inject_Z_opp;
              change (inject_Z 1) with 1; lra).
        assert (Y : inject_Z (- 2 ^ 53 - 1) < inject_Z k)
          by (unfold Z.sub; rewrite inject_Z_plus, !inject_Z_opp;
              change (inject_Z 1) with 1; lra).
        rewrite <- Zlt_Qlt in X, Y. lia.
      - rewrite Qabs_pos in B, Um by lra.
        assert (X : inject_Z (2 ^ 52 - 1) < inject_Z k)
          by (unfold Z.sub; rewrite inject_Z_plus, inject_Z_opp;
              change (inject_Z 1) with 1; lra).
        assert (Y : inject_Z k < inject_Z (2 ^ 53 + 1))
          by (rewrite inject_Z_plus; change (inject_Z 1) with 1; lra).
        rewrite <- Zlt_Qlt in X, Y. lia. }
    rewrite (@double_comp _ _ V).
    destruct (Z.eq_dec (Z.abs k) (2 ^ 53)) as [Top | NotTop].
    + assert (H : inject_Z k * 2 ^ p == inject_Z (k / 2) * 2 ^ (p + 1)).
      { rewrite pow2_add. change (2 ^ 1) with 2.
        assert (D : inject_Z k == inject_Z (k / 2) * 2).
        { assert (D' : k = (k / 2 * 2)%Z); [| rewrite D' at 1;
            rewrite inject_Z_mult; reflexivity].
          destruct (Z.abs_eq_or_opp k) as [A | A]; rewrite A in Top.
          - rewrite Top. reflexivity.
          - assert (Ek : k = (- 2 ^ 53)%Z) by lia. rewrite Ek. reflexivity. }
        rewrite D at 1. ring. }
      rewrite (@double_comp _ _ H), V, H.
      apply double_representable.
      destruct (Z.abs_eq_or_opp k) as [A | A]; rewrite A in Top.
      * rewrite Top. vm_compute. split; [discriminate | reflexivity].
      * assert (Ek : k = (- 2 ^ 53)%Z) by lia. rewrite Ek. vm_compute.
        split; [discriminate | reflexivity].
    + rewrite V. apply double_representable. lia.
Qed.

Lemma Qred_inject_Z (n : Z) : Qred (inject_Z n) = inject_Z n.
Proof.
  unfold inject_Z, Qred.
  pose proof (Z.ggcd_gcd n 1) as G.
  pose proof (Z.ggcd_correct_divisors n 1) as D.
  destruct (Z.ggcd n 1) as [g [a b]]. simpl in G, D.
  rewrite Z.gcd_1_r in G. subst g. destruct D as [Da Db].
  rewrite Z.mul_1_l in Da, Db. subst. reflexivity.
Qed.

(** Every integer below 2^53 in size is a double: an amount in yen, an hour
    count and the factor 2 are taken as they are. *)
Lemma double_integer (n : Z) :
  (Z.abs n < 2 ^ 53)%Z -> JS.double (inject_Z n) = inject_Z n.
Proof.
  intro U.
  enough (H : JS.double (inject_Z n) == inject_Z n).
  { apply Qred_complete in H. rewrite double_canonical in H. rewrite H.
    apply Qred_inject_Z. }
  destruct (Z.eq_dec n 0) as [Z | N]; [subst n; reflexivity |].
  assert (P : (0 < Z.abs n)%Z) by lia.
  destruct (Z.log2_spec (Z.abs n) P) as [Ll Ul].
  pose proof (Z.log2_nonneg (Z.abs n)) as Nl.
  set (l := Z.log2 (Z.abs n)) in *.
  assert (L52 : (l < 53)%Z).
  { apply (Z.pow_lt_mono_r_iff 2); lia. }
  set (s := (52 - l)%Z).
  assert (S0 : (0 <= s)%Z) by (unfold s; lia).
  assert (Ps : (0 < 2 ^ s)%Z) by (apply Z.pow_pos_nonneg; lia).
  assert (E : inject_Z n == inject_Z (n * 2 ^ s) * 2 ^ (- s)).
  { rewrite inject_Z_mult, (@pow2_inject s S0), <- Qmult_assoc, <- pow2_add.
    replace (s + - s)%Z with 0%Z by lia. change (2 ^ 0) with 1. ring. }
  rewrite (@double_comp _ _ E), E at 1.
  apply double_representable.
  rewrite Z.abs_mul, (Z.abs_eq (2 ^ s)) by lia.
  replace (2 ^ 52)%Z with (2 ^ l * 2 ^ s)%Z
    by (rewrite <- Z.pow_add_r by lia; f_equal; unfold s; lia).
  replace (2 ^ 53)%Z with (2 ^ Z.succ l * 2 ^ s)%Z
    by (rewrite <- Z.pow_add_r by lia; f_equal; unfold s; lia).
  split; [apply Z.mul_le_mono_nonneg_r | apply Z.mul_lt_mono_pos_r]; lia.
Qed.

(** The rate literals of the slip, as the doubles they are read as. *)
Example double_rate_literals :
  JS.double 0.009 = 5188146770730811 # 576460752303423488
  /\ JS.double 0.003 = 3458764513820541 # 1152921504606846976
  /\ JS.double 0.1 = 3602879701896397 # 36028797018963968.
Proof. vm_compute. repeat split. Qed.

Lemma mul64_finite (a b : num) :
  JS.finite a = true -> JS.finite b = true ->
  JS.finite (JS.mul64 a b) = true.
Proof. destruct a, b; try discriminate; reflexivity. Qed.

End Doubles.

(* ================================================================== *)
(** * Arrays and strings *)
(* ================================================================== *)

Section ArrayFacts.

Lemma str_eqb_eq (a b : str) : JS.str_eqb a b = true <-> a = b.
Proof.
  unfold JS.str_eqb. destruct (list_eq_dec N.eq_dec a b); split;
    congruence.
Qed.

Variable A : Type.
Variable after : A -> A -> bool.

Lemma insert_In (x y : A) (l : list A) :
  In y (Array.insert after x l) <-> y = x \/ In y l.
Proof.
  induction l as [| z l IH]; simpl.
  - intuition.
  - destruct (after x z); simpl; rewrite ?IH; intuition.
Qed.

Lemma stable_sort_In (y : A) (l : list A) :
  In y (Array.stable_sort after l) <-> In y l.
Proof.
  induction l as [| x l IH]; simpl; [reflexivity |].
  rewrite insert_In, IH. intuition.
Qed.

Lemma insert_length (x : A) (l : list A) :
  List.length (Array.insert after x l) = S (List.length l).
Proof.
  induction l as [| z l IH]; simpl; [reflexivity |].
  destruct (after x z); simpl; now rewrite ?IH.
Qed.

Lemma stable_sort_length (l : list A) :
  List.length (Array.stable_sort after l) = List.length l.
Proof.
  induction l as [| x l IH]; simpl; [reflexivity |].
  now rewrite insert_length, IH.
Qed.

Variable f : A -> num.

(** A sum started from [acc]. *)
Lemma sum_from_Fin (l : list A) (qs : list Q) (acc : Q) :
  map f l = map Fin qs ->
  exists q, fold_left (fun sum r => JS.add sum (f r)) l (Fin acc) = Fin q
            /\ (q == acc + Reading.Qsum qs)%Q.
Proof.
  revert qs acc. induction l as [| x l IH]; intros [| q0 qs] acc H;
    simpl in H; try discriminate.
  - exists acc. split; [reflexivity |]. simpl. ring.
  - injection H as Hx Hl. simpl. rewrite Hx. simpl.
    destruct (IH qs (acc + q0)%Q Hl) as (q & Hq & E).
    exists q. split; [exact Hq |]. rewrite E. ring.
Qed.

Lemma sum_of_Fin (l : list A) (qs : list Q) :
  map f l = map Fin qs ->
  exists q, Array.sum_of f l = Fin q /\ (q == Reading.Qsum qs)%Q.
Proof.
  intro H. destruct (sum_from_Fin l qs 0 H) as (q & Hq & E).
  exists q. split; [exact Hq |]. rewrite E. ring.
Qed.

(** Once [NaN], a sum stays [NaN]; a [NaN] or absent term makes it so. *)
Lemma sum_from_NaN (l : list A) :
  fold_left (fun sum r => JS.add sum (f r)) l NaN = NaN.
Proof. induction l as [| x l IH]; simpl; [reflexivity | exact IH]. Qed.

Lemma sum_from_poisoned (l : list A) (x : A) (acc : num) :
  In x l -> f x = NaN \/ f x = undefined ->
  fold_left (fun sum r => JS.add sum (f r)) l acc = NaN.
Proof.
  revert acc. induction l as [| y l IH]; intros acc Hin Hx; [destruct Hin |].
  simpl. destruct Hin as [-> | Hin].
  - assert (E : JS.add acc (f x) = NaN)
      by (destruct Hx as [-> | ->]; destruct acc; reflexivity).
    rewrite E. apply sum_from_NaN.
  - now apply IH.
Qed.

Lemma sum_of_poisoned (l : list A) (x : A) :
  In x l -> f x = NaN \/ f x = undefined -> Array.sum_of f l = NaN.
Proof. apply sum_from_poisoned. Qed.

(** Finite terms give a finite sum. *)
Lemma sum_of_finite (l : list A) :
  (forall x, In x l -> JS.finite (f x) = true) ->
  JS.finite (Array.sum_of f l) = true.
Proof.
  unfold Array.sum_of. generalize 0%Q as acc.
  induction l as [| x l IH]; intros acc H; simpl; [reflexivity |].
  destruct (f x) as [| | s | q] eqn:E;
    try (specialize (H x (or_introl eq_refl)); rewrite E in H; discriminate).
  simpl. apply IH. intros y Hy. apply H. now right.
Qed.

End ArrayFacts.

(* ================================================================== *)
(** * The margin rate *)
(* ================================================================== *)

Section MarginRate.

(** The two modals compute the margin of a record with the same expression. *)
Lemma recordMargin_marginRate (record : PayrollRecord.t) :
  EmployeeDetail.recordMargin record = Slip.marginRate record.
Proof. reflexivity. Qed.

(** Whatever the record holds, a billing amount that is not a number above
    zero (zero, negative, [NaN], absent) gives the margin 0. *)
Lemma marginRate_not_billed (record : PayrollRecord.t) :
  JS.gt record.[billingAmount] (Fin 0) = false ->
  Slip.marginRate record = Fin 0.
Proof. unfold Slip.marginRate. now intros ->. Qed.

(** The margin of a record with finite figures. *)
Lemma marginRate_Fin (record : PayrollRecord.t) (gp ba : Q) :
  record.[grossProfit] = Fin gp ->
  record.[billingAmount] = Fin ba ->
  ((0 < ba)%Q -> Slip.marginRate record = Fin (gp / ba * 100)) /\
  ((ba <= 0)%Q -> Slip.marginRate record = Fin 0).
Proof.
  intros Hgp Hba. unfold Slip.marginRate. rewrite Hgp, Hba.
  destruct (JS.gt (Fin ba) (Fin 0)) eqn:G.
  - apply gt_Fin in G.
    assert (Z : Qeq_bool ba 0 = false).
    { destruct (Qeq_bool ba 0) eqn:E; [| reflexivity].
      apply Qeq_bool_iff in E. lra. }
    simpl. rewrite Z. split; [reflexivity | intro; lra].
  - apply gt_Fin_false in G. split; [intro; lra | reflexivity].
Qed.

(** C1, as stated, fails twice.  A record billed 100 with no gross profit has
    the margin [NaN]; and for a negative billing amount (here -100, with a
    gross profit of 50) the margin is 0 and not grossProfit / billingAmount x
    100 = -50. *)
Lemma marginRate_counterexample :
  Sample.noProfit.[billingAmount] = Fin 100 /\
  Slip.marginRate Sample.noProfit = NaN /\
  Sample.creditNote.[billingAmount] = Fin (-100) /\
  Sample.creditNote.[grossProfit] = Fin 50 /\
  Slip.marginRate Sample.creditNote = Fin 0 /\
  JS.eqb (Fin (50 / (-100) * 100)) (Fin 0) = false.
Proof. repeat split; reflexivity. Qed.

(** C1, amended: for a record whose gross profit and billing amount are
    finite numbers, the margin is grossProfit / billingAmount x 100 when the
    billing amount is above zero and 0 when it is zero or negative; it is
    never [NaN] nor [undefined]; and the employee detail modal computes the
    same value as the slip. *)
Theorem marginRate_guarded (record : PayrollRecord.t) (gp ba : Q) :
  record.[grossProfit] = Fin gp ->
  record.[billingAmount] = Fin ba ->
  ((0 < ba)%Q -> Slip.marginRate record = Fin (gp / ba * 100)) /\
  ((ba <= 0)%Q -> Slip.marginRate record = Fin 0) /\
  Slip.marginRate record <> NaN /\
  Slip.marginRate record <> undefined /\
  EmployeeDetail.recordMargin record = Slip.marginRate record.
Proof.
  intros Hgp Hba.
  destruct (marginRate_Fin record Hgp Hba) as [Hpos Hneg].
  repeat split; try assumption;
    destruct (Qlt_le_dec 0 ba) as [P | N];
    rewrite ?(Hpos P), ?(Hneg N); discriminate.
Qed.

Lemma marginRate_guarded_witness :
  Sample.record.[grossProfit] = Fin 61179 /\
  Sample.record.[billingAmount] = Fin 258750 /\
  Slip.marginRate Sample.record = Fin (61179 / 258750 * 100).
Proof.
  split; [reflexivity | split; [reflexivity |]].
  apply (@marginRate_guarded Sample.record 61179 258750);
    reflexivity.
Defined.

End MarginRate.

(* ================================================================== *)
(** * Margin bands *)
(* ================================================================== *)

Section MarginBands.

Variable settings : Settings.t.

(** The target in force: the configured one when it is truthy, else 15. *)
Lemma target_configured (q : Q) :
  Settings.target_margin settings = Fin q -> ~ (q == 0)%Q ->
  JS.or (Settings.target_margin settings) (Fin 15) = Fin q.
Proof. intros -> H. apply or_truthy. now apply truthy_Fin. Qed.

Lemma target_default :
  JS.truthy (Settings.target_margin settings) = false ->
  JS.or (Settings.target_margin settings) (Fin 15) = Fin 15.
Proof. apply or_falsy. Qed.

End MarginBands.

(** C5, as stated, fails for a target that is set to 0: the target in force
    is then 15, so a margin of 5, which reaches the target 0, is put in the
    red band and not in the emerald one. *)
Lemma getMarginColor_counterexample :
  Settings.target_margin Sample.zeroTarget = Fin 0 /\
  JS.ge (Fin 5) (Fin 0) = true /\
  Slip.getMarginColor Sample.zeroTarget (Fin 5) = Slip.red.
Proof. repeat split; reflexivity. Qed.

(** C5, amended: the target [t] in force is the configured target, or 15 when
    that is unset or 0 (any falsy value).  For every margin [m]: the band is
    emerald (on target) when m >= t, green (near target) when t - 3 <= m < t,
    amber (warning) when t - 7 <= m < t - 3, and red (critical) when
    m < t - 7; every lower bound is inclusive.  An infinite margin is on
    target when positive and critical when negative. *)
Theorem getMarginColor_bands (settings : Settings.t) (m t : Q) :
  JS.or (Settings.target_margin settings) (Fin 15) = Fin t ->
  ((t <= m)%Q -> Slip.getMarginColor settings (Fin m) = Slip.emerald) /\
  ((t - 3 <= m)%Q /\ (m < t)%Q ->
     Slip.getMarginColor settings (Fin m) = Slip.green) /\
  ((t - 7 <= m)%Q /\ (m < t - 3)%Q ->
     Slip.getMarginColor settings (Fin m) = Slip.amber) /\
  ((m < t - 7)%Q -> Slip.getMarginColor settings (Fin m) = Slip.red) /\
  Slip.getMarginColor settings (Inf false) = Slip.emerald /\
  Slip.getMarginColor settings (Inf true) = Slip.red /\
  (JS.truthy (Settings.target_margin settings) = false -> t = 15%Q) /\
  (JS.truthy (Settings.target_margin settings) = true ->
     Settings.target_margin settings = Fin t).
Proof.
  intro Ht. unfold Slip.getMarginColor. rewrite Ht.
  change (JS.sub (Fin t) (Fin 3)) with (Fin (t + - 3)).
  change (JS.sub (Fin t) (Fin 7)) with (Fin (t + - 7)).
  destruct (JS.ge (Fin m) (Fin t)) eqn:G1;
    [apply ge_Fin in G1 | apply ge_Fin_false in G1];
  (destruct (JS.ge (Fin m) (Fin (t + - 3))) eqn:G2;
    [apply ge_Fin in G2 | apply ge_Fin_false in G2]);
  (destruct (JS.ge (Fin m) (Fin (t + - 7))) eqn:G3;
    [apply ge_Fin in G3 | apply ge_Fin_false in G3]);
  repeat split; intros; try reflexivity; try lra.
  all: try (rewrite or_falsy in Ht by assumption; congruence).
  all: try (rewrite or_truthy in Ht by assumption; assumption).
Qed.

Lemma getMarginColor_bands_witness :
  JS.or (Settings.target_margin Sample.unset) (Fin 15) = Fin 15 /\
  Slip.getMarginColor Sample.unset (Fin 15) = Slip.emerald /\
  Slip.getMarginColor Sample.unset (Fin 12) = Slip.green /\
  Slip.getMarginColor Sample.unset (Fin 8) = Slip.amber /\
  Slip.getMarginColor Sample.unset (Fin 7.9) = Slip.red.
Proof.
  split; [reflexivity |].
  destruct (@getMarginColor_bands Sample.unset 15 15 eq_refl)
    as (E & _).
  destruct (@getMarginColor_bands Sample.unset 12 15 eq_refl)
    as (_ & G & _).
  destruct (@getMarginColor_bands Sample.unset 8 15 eq_refl)
    as (_ & _ & A & _).
  destruct (@getMarginColor_bands Sample.unset 7.9 15 eq_refl)
    as (_ & _ & _ & R & _).
  split; [apply E; vm_compute; discriminate |].
  split; [apply G; split; vm_compute; congruence |].
  split; [apply A; split; vm_compute; congruence |].
  apply R. vm_compute. reflexivity.
Defined.

(* ================================================================== *)
(** * Reading stored properties *)
(* ================================================================== *)

Section ReadingFacts.
Import Reading.

Lemma or_stored (o : option Q) :
  exists q, JS.or (stored o) (Fin 0) = Fin q /\ (q == or_zero o)%Q.
Proof.
  destruct o as [q |]; simpl.
  - unfold JS.or. destruct (JS.truthy (Fin q)) eqn:T.
    + exists q. split; reflexivity.
    + exists 0%Q. split; [reflexivity |].
      apply truthy_Fin_false in T. now rewrite T.
  - exists 0%Q. split; reflexivity.
Qed.

(** [Math.round] gives an integer at most one half away. *)
Lemma nearest_bounds (q : Q) :
  (q - (1 # 2) < nearest q)%Q /\ (nearest q <= q + (1 # 2))%Q.
Proof.
  unfold nearest. split.
  - pose proof (Qlt_floor (q + (1 # 2))) as H.
    rewrite inject_Z_plus in H. change (inject_Z 1) with 1%Q in H. lra.
  - apply Qfloor_le.
Qed.

Lemma round_Fin (q : Q) : JS.round (Fin q) = Fin (nearest q).
Proof. reflexivity. Qed.

End ReadingFacts.

(* ================================================================== *)
(** * Deductions of the slip *)
(* ================================================================== *)

Section Deductions.
Import Reading.

(** C10: the deduction total of the slip is the sum of socialInsurance,
    welfarePension, employmentInsurance, incomeTax, residentTax and
    otherDeductions, a missing one counting as 0.  Assigning any value to
    rentDeduction, utilitiesDeduction, mealDeduction, advancePayment or
    yearEndAdjustment leaves the total unchanged, although each of the first
    four has a row of its own and yearEndAdjustment has one whenever it is
    not 0. *)
Theorem totalDeductions_six_fields (record : PayrollRecord.t) :
  (forall si wp ei it rt od : option Q,
      record.[socialInsurance] = stored si ->
      record.[welfarePension] = stored wp ->
      record.[employmentInsurance] = stored ei ->
      record.[incomeTax] = stored it ->
      record.[residentTax] = stored rt ->
      record.[otherDeductions] = stored od ->
      JS.equiv (Slip.totalDeductions record)
               (Fin (or_zero si + or_zero wp + or_zero ei
                     + or_zero it + or_zero rt + or_zero od))) /\
  (forall (f : field) (v : num),
      In f [rentDeduction; utilitiesDeduction; mealDeduction;
            advancePayment; yearEndAdjustment] ->
      Slip.totalDeductions (PayrollRecord.set record f v)
      = Slip.totalDeductions record) /\
  (forall f : field,
      In f [rentDeduction; utilitiesDeduction; mealDeduction;
            advancePayment] ->
      In (f, JS.or record.[f] (Fin 0)) (Slip.deductionRows record)) /\
  (JS.strict_neq (JS.or record.[yearEndAdjustment] (Fin 0)) (Fin 0) = true ->
      In (yearEndAdjustment, JS.or record.[yearEndAdjustment] (Fin 0))
         (Slip.deductionRows record)).
Proof.
  split; [| split; [| split]].
  - intros si wp ei it rt od H1 H2 H3 H4 H5 H6.
    unfold Slip.totalDeductions. rewrite H1, H2, H3, H4, H5, H6.
    destruct (or_stored si) as (q1 & -> & E1).
    destruct (or_stored wp) as (q2 & -> & E2).
    destruct (or_stored ei) as (q3 & -> & E3).
    destruct (or_stored it) as (q4 & -> & E4).
    destruct (or_stored rt) as (q5 & -> & E5).
    destruct (or_stored od) as (q6 & -> & E6).
    simpl. apply equiv_Fin. rewrite E1, E2, E3, E4, E5, E6. reflexivity.
  - intros f v Hf. simpl in Hf.
    destruct Hf as [<- | [<- | [<- | [<- | [<- | []]]]]]; reflexivity.
  - intros f Hf. simpl in Hf. unfold Slip.deductionRows, Slip.DeductionRow.
    destruct Hf as [<- | [<- | [<- | [<- | []]]]]; simpl; tauto.
  - intro H. unfold Slip.deductionRows. rewrite H.
    unfold Slip.DeductionRow. simpl. tauto.
Qed.

(** With a rent deduction added to the sample record: the total is the
    health insurance plus the pension, the rent is a row of its own. *)
Example totalDeductions_example :
  let r := PayrollRecord.set Sample.record rentDeduction (Fin 30000) in
  Slip.totalDeductions r = Fin 23000 /\
  In (rentDeduction, Fin 30000) (Slip.deductionRows r).
Proof. split; [reflexivity | simpl; tauto]. Qed.

End Deductions.

(* ================================================================== *)
(** * Employer-side statutory costs *)
(* ================================================================== *)

Section EmployerCosts.
Import Reading.

Variable settings : Settings.t.

(** The rates in force: the configured rate when truthy, else the default. *)
Lemma empInsRate_default :
  JS.truthy (Settings.employment_insurance_rate settings) = false ->
  Slip.empInsRate settings = Fin 0.009.
Proof. apply or_falsy. Qed.

Lemma workersCompRate_default :
  JS.truthy (Settings.workers_comp_rate settings) = false ->
  Slip.workersCompRate settings = Fin 0.003.
Proof. apply or_falsy. Qed.

(** [Math.round] of a product of doubles is an integer at most one half,
    and the rounding of the product, away from the exact product. *)
Lemma round_mul64 (g rate : Q) :
  exists n : Z,
    JS.round (JS.mul64 (Fin g) (Fin rate)) = Fin (inject_Z n)
    /\ (Qabs (inject_Z n - g * rate)
        <= (1 # 2) + Qabs (g * rate) * 2 ^ (- 51))%Q.
Proof.
  rewrite mul64_Fin, round_Fin.
  set (y := JS.double (JS.double g * JS.double rate)).
  exists (Qfloor (y + (1 # 2))). split; [reflexivity |].
  destruct (nearest_bounds y) as [L U]. unfold nearest in L, U.
  pose proof (mul64_error g rate) as E. fold y in E.
  assert (S : (inject_Z (Qfloor (y + (1 # 2))) - g * rate
               == (inject_Z (Qfloor (y + (1 # 2))) - y) + (y - g * rate))%Q)
    by ring.
  rewrite S. eapply Qle_trans; [apply Qabs_triangle |].
  assert (H : (Qabs (inject_Z (Qfloor (y + (1 # 2))) - y) <= 1 # 2)%Q)
    by (apply Qabs_Qle_condition; split; lra).
  lra.
Qed.

End EmployerCosts.

(** C3, as stated, fails for a stored value of 0: a record that carries the
    precomputed employer-side employment insurance 0 (gross salary 250,000)
    is shown the recomputed amount round(250000 x 0.009) = 2250.  It also
    fails, read in exact arithmetic, where the product lies on a half: for
    the gross salary 172,500 of the worked example of the spec the exact
    product 1552.5 is rounded to 1553, but the product of the doubles
    172500 and 0.009 is the double just below 1552.5 and the slip shows
    1552. *)
Lemma companyEmploymentIns_counterexample :
  Sample.exempt.[companyEmploymentInsurance] = Fin 0 /\
  Sample.exempt.[grossSalary] = Fin 250000 /\
  Slip.companyEmploymentIns Sample.settings Sample.exempt = Fin 2250 /\
  Sample.record.[grossSalary] = Fin 172500 /\
  Sample.record.[companyEmploymentInsurance] = undefined /\
  JS.round (JS.mul (Fin 172500) (Fin 0.009)) = Fin 1553 /\
  Slip.companyEmploymentIns Sample.settings Sample.record = Fin 1552.
Proof. repeat split; reflexivity. Qed.

(** C3, amended: a stored employer-cost value that is a non-zero number
    (truthy) is used as it is: companyEmploymentInsurance, companyWorkersComp,
    companySocialInsurance (health insurance and pension together) and
    totalCompanyCost.  When the stored value is missing or 0, employment
    insurance is round(grossSalary x rate) and workers' compensation is
    round(grossSalary x rate), with a missing gross salary counting as 0 and
    the rate being the configured one, or 0.9% (resp. 0.3%) when that is
    unset or 0.  The product is the one of doubles: the salary and the rate
    are doubles and the product is the double nearest to their exact
    product, which [Math.round] turns into an integer; that integer is at
    most one half, and 2^-51 of the product, away from the exact
    grossSalary x rate.  Social insurance is then the employee's health
    insurance plus pension, and the total cost is grossSalary plus the three
    benefits. *)
Theorem employerCosts_stored_or_derived
  (settings : Settings.t) (record : PayrollRecord.t) :
  (JS.truthy record.[companyEmploymentInsurance] = true ->
     Slip.companyEmploymentIns settings record
     = record.[companyEmploymentInsurance]) /\
  (JS.truthy record.[companyWorkersComp] = true ->
     Slip.companyWorkersComp settings record = record.[companyWorkersComp]) /\
  (JS.truthy record.[companySocialInsurance] = true ->
     Slip.companySocialIns record = record.[companySocialInsurance]) /\
  (JS.truthy record.[totalCompanyCost] = true ->
     Slip.totalCostShown settings record = record.[totalCompanyCost]) /\
  (forall g rate : Q,
     JS.truthy record.[companyEmploymentInsurance] = false ->
     JS.or record.[grossSalary] (Fin 0) = Fin g ->
     Slip.empInsRate settings = Fin rate ->
     Slip.companyEmploymentIns settings record
     = JS.round (JS.mul64 (Fin g) (Fin rate))
     /\ exists n : Z,
          Slip.companyEmploymentIns settings record = Fin (inject_Z n)
          /\ (Qabs (inject_Z n - g * rate)
              <= (1 # 2) + Qabs (g * rate) * 2 ^ (- 51))%Q) /\
  (forall g rate : Q,
     JS.truthy record.[companyWorkersComp] = false ->
     JS.or record.[grossSalary] (Fin 0) = Fin g ->
     Slip.workersCompRate settings = Fin rate ->
     Slip.companyWorkersComp settings record
     = JS.round (JS.mul64 (Fin g) (Fin rate))
     /\ exists n : Z,
          Slip.companyWorkersComp settings record = Fin (inject_Z n)
          /\ (Qabs (inject_Z n - g * rate)
              <= (1 # 2) + Qabs (g * rate) * 2 ^ (- 51))%Q) /\
  (JS.truthy record.[companySocialInsurance] = false ->
     Slip.companySocialIns record
     = JS.add (JS.or record.[socialInsurance] (Fin 0))
              (JS.or record.[welfarePension] (Fin 0))) /\
  (JS.truthy record.[totalCompanyCost] = false ->
     Slip.totalCostShown settings record
     = JS.add record.[grossSalary]
              (Slip.totalCompanyBenefits settings record)) /\
  (forall q : Q,
     Settings.employment_insurance_rate settings = Fin q -> ~ (q == 0)%Q ->
     Slip.empInsRate settings = Fin q) /\
  (JS.truthy (Settings.employment_insurance_rate settings) = false ->
     Slip.empInsRate settings = Fin 0.009) /\
  (forall q : Q,
     Settings.workers_comp_rate settings = Fin q -> ~ (q == 0)%Q ->
     Slip.workersCompRate settings = Fin q) /\
  (JS.truthy (Settings.workers_comp_rate settings) = false ->
     Slip.workersCompRate settings = Fin 0.003).
Proof.
  split; [apply or_truthy |]. split; [apply or_truthy |].
  split; [apply or_truthy |]. split; [apply or_truthy |].
  split.
  { intros g rate Hs Hg Hr. unfold Slip.companyEmploymentIns.
    rewrite (@or_falsy _ _ Hs), Hg, Hr.
    split; [reflexivity | apply round_mul64]. }
  split.
  { intros g rate Hs Hg Hr. unfold Slip.companyWorkersComp.
    rewrite (@or_falsy _ _ Hs), Hg, Hr.
    split; [reflexivity | apply round_mul64]. }
  split; [apply or_falsy |]. split; [apply or_falsy |].
  split.
  { intros q Hq Hz. unfold Slip.empInsRate. rewrite Hq.
    apply or_truthy. now apply truthy_Fin. }
  split; [apply or_falsy |].
  split; [| apply or_falsy].
  intros q Hq Hz. unfold Slip.workersCompRate. rewrite Hq.
  apply or_truthy. now apply truthy_Fin.
Qed.

(** A worked example: a gross salary of 250,000 with 8,000 of health
    insurance and 15,000 of pension gives 2250 of employment insurance and
    750 of workers' compensation, benefits of 26,000 and a total cost of
    276,000; the same with no rate configured. *)
Example employerCosts_worked_example :
  Slip.companyEmploymentIns Sample.settings Sample.salaried = Fin 2250 /\
  Slip.companyWorkersComp Sample.settings Sample.salaried = Fin 750 /\
  Slip.totalCompanyBenefits Sample.settings Sample.salaried = Fin 26000 /\
  Slip.totalCostShown Sample.settings Sample.salaried = Fin 276000 /\
  Slip.totalCompanyBenefits Sample.unset Sample.salaried = Fin 26000.
Proof. repeat split; reflexivity. Qed.

(* ================================================================== *)
(** * The billing breakdown *)
(* ================================================================== *)

Section BillingBreakdown.
Import Reading.

(** Transport and non-billable allowances are not read by the billing
    total. *)
Lemma billingAmountOf_frame
  (record : PayrollRecord.t) (employee : Employee.t) (f : field) (v : num) :
  In f [transportAllowance; nonBillableAllowances] ->
  Billing.billingAmountOf (PayrollRecord.set record f v) employee
  = Billing.billingAmountOf record employee.
Proof.
  intro Hf. simpl in Hf. destruct Hf as [<- | [<- | []]]; reflexivity.
Qed.

(** The rows of the breakdown read neither the transport allowance nor the
    non-billable allowances. *)
Lemma billingRows_frame
  (record : PayrollRecord.t) (employee : Employee.t) (f : field) (v : num) :
  In f [transportAllowance; nonBillableAllowances] ->
  Slip.billingRows (PayrollRecord.set record f v) employee
  = Slip.billingRows record employee.
Proof.
  intro Hf. simpl in Hf. destruct Hf as [<- | [<- | []]]; reflexivity.
Qed.

Lemma Qsum_app (l1 l2 : list Q) : (Qsum (l1 ++ l2) == Qsum l1 + Qsum l2)%Q.
Proof.
  induction l1 as [| x l1 IH]; simpl; [ring |]. rewrite IH. ring.
Qed.

(** A row that is shown only under a condition counts for its amount when
    that amount is 0 whenever the row is left out. *)
Lemma optional_line (c : bool) (line : Slip.BillingLine) (x : Q) :
  Slip.lineAmount line = Fin x ->
  (c = false -> (x == 0)%Q) ->
  exists qs,
    map Slip.lineAmount (if c then [line] else []) = map Fin qs
    /\ (Qsum qs == x)%Q.
Proof.
  intros Hx Hc. destruct c.
  - exists [x]. split; [simpl; now rewrite Hx | simpl; ring].
  - exists []. split; [reflexivity |]. simpl. now rewrite Hc.
Qed.

Lemma not_positive_zero (q : Q) :
  (0 <= q)%Q -> JS.gt (Fin q) (Fin 0) = false -> (q == 0)%Q.
Proof. intros P G. apply gt_Fin_false in G. lra. Qed.

(** With hours and allowances that are not negative, the rows that the slip
    shows add up to the billing total: a row that is left out has the
    amount 0. *)
Lemma rowsTotal_billingAmountOf
  (record : PayrollRecord.t) (employee : Employee.t)
  (wh oh o60 nh hh oa : option Q) (b : Q) :
  record.[workHours] = stored wh ->
  record.[overtimeHours] = stored oh ->
  record.[overtimeOver60h] = stored o60 ->
  record.[nightHours] = stored nh ->
  record.[holidayHours] = stored hh ->
  record.[otherAllowances] = stored oa ->
  Employee.billingRate employee = Fin b ->
  (0 <= or_zero oh)%Q -> (0 <= or_zero o60)%Q -> (0 <= or_zero nh)%Q ->
  (0 <= or_zero hh)%Q -> (0 <= or_zero oa)%Q ->
  JS.equiv (Billing.rowsTotal record employee)
           (Fin (or_zero wh * b * 1 + or_zero oh * b * 1.25
                 + or_zero o60 * b * 1.5 + or_zero nh * b * 0.25
                 + or_zero hh * b * 1.35 + or_zero oa * 1)).
Proof.
  intros H1 H2 H3 H4 H5 H6 Hb P2 P3 P4 P5 P6.
  unfold Billing.rowsTotal, Slip.billingRows, Slip.baseBilling,
    Slip.overtimeBilling, Slip.overtime60hBilling, Slip.nightBilling,
    Slip.holidayBilling.
  rewrite H1, H2, H3, H4, H5, H6, Hb.
  destruct (or_stored wh) as (q1 & -> & E1).
  destruct (or_stored oh) as (q2 & -> & E2).
  destruct (or_stored o60) as (q3 & -> & E3).
  destruct (or_stored nh) as (q4 & -> & E4).
  destruct (or_stored hh) as (q5 & -> & E5).
  rewrite <- E2 in P2. rewrite <- E3 in P3. rewrite <- E4 in P4.
  rewrite <- E5 in P5.
  destruct (@optional_line (JS.gt (Fin q2) (Fin 0))
              (Slip.BillingRow overtimeHours 1.25
                 (JS.mul (JS.mul (Fin q2) (Fin b)) (Fin 1.25)))
              (q2 * b * 1.25) eq_refl) as (l2 & M2 & S2).
  { intro G. rewrite (not_positive_zero P2 G). ring. }
  destruct (@optional_line (JS.gt (Fin q3) (Fin 0))
              (Slip.BillingRow overtimeOver60h 1.5
                 (JS.mul (JS.mul (Fin q3) (Fin b)) (Fin 1.5)))
              (q3 * b * 1.5) eq_refl) as (l3 & M3 & S3).
  { intro G. rewrite (not_positive_zero P3 G). ring. }
  destruct (@optional_line (JS.gt (Fin q4) (Fin 0))
              (Slip.BillingRow nightHours 0.25
                 (JS.mul (JS.mul (Fin q4) (Fin b)) (Fin 0.25)))
              (q4 * b * 0.25) eq_refl) as (l4 & M4 & S4).
  { intro G. rewrite (not_positive_zero P4 G). ring. }
  destruct (@optional_line (JS.gt (Fin q5) (Fin 0))
              (Slip.BillingRow holidayHours 1.35
                 (JS.mul (JS.mul (Fin q5) (Fin b)) (Fin 1.35)))
              (q5 * b * 1.35) eq_refl) as (l5 & M5 & S5).
  { intro G. rewrite (not_positive_zero P5 G). ring. }
  assert (A6 : exists l6,
             map Slip.lineAmount
               (if JS.gt (JS.or (stored oa) (Fin 0)) (Fin 0)
                then [Slip.AllowanceRow (stored oa)] else [])
             = map Fin l6 /\ (Qsum l6 == or_zero oa)%Q).
  { destruct oa as [a |]; cbn [stored or_zero] in *.
    - unfold JS.or. destruct (JS.truthy (Fin a)) eqn:T.
      + apply optional_line; [reflexivity |].
        intro G. now apply not_positive_zero.
      + apply truthy_Fin_false in T. exists []. split; [reflexivity |].
        simpl. now rewrite T.
    - exists []. split; reflexivity. }
  destruct A6 as (l6 & M6 & S6).
  assert (M : map Slip.lineAmount
                ([Slip.BillingRow workHours 1 (JS.mul (Fin q1) (Fin b))]
                 ++ (if JS.gt (Fin q2) (Fin 0)
                     then [Slip.BillingRow overtimeHours 1.25
                             (JS.mul (JS.mul (Fin q2) (Fin b)) (Fin 1.25))]
                     else [])
                 ++ (if JS.gt (Fin q3) (Fin 0)
                     then [Slip.BillingRow overtimeOver60h 1.5
                             (JS.mul (JS.mul (Fin q3) (Fin b)) (Fin 1.5))]
                     else [])
                 ++ (if JS.gt (Fin q4) (Fin 0)
                     then [Slip.BillingRow nightHours 0.25
                             (JS.mul (JS.mul (Fin q4) (Fin b)) (Fin 0.25))]
                     else [])
                 ++ (if JS.gt (Fin q5) (Fin 0)
                     then [Slip.BillingRow holidayHours 1.35
                             (JS.mul (JS.mul (Fin q5) (Fin b)) (Fin 1.35))]
                     else [])
                 ++ (if JS.gt (JS.or (stored oa) (Fin 0)) (Fin 0)
                     then [Slip.AllowanceRow (stored oa)] else []))
              = map Fin ([q1 * b] ++ l2 ++ l3 ++ l4 ++ l5 ++ l6)).
  { rewrite !map_app, M2, M3, M4, M5, M6. reflexivity. }
  destruct (sum_of_Fin _ _ _ M) as (q & -> & E).
  apply equiv_Fin. rewrite E, !Qsum_app, S2, S3, S4, S5, S6.
  rewrite <- E1, <- E2, <- E3, <- E4, <- E5. simpl. ring.
Qed.

(** C4: with the hours of each bucket and the billable other allowances
    read from the record (a missing one counting as 0) and the billing rate
    [b] of the employee, the amounts of the breakdown are hours x b x 1 (base),
    x 1.25 (overtime), x 1.5 (overtime over 60h), x 0.25 (night) and x 1.35
    (holiday); the billing total is their sum plus the other allowances at
    cost; it does not depend on the transport allowance nor on the
    non-billable allowances; and it is the total that the slip prints when
    the record stores it as its billingAmount.  The rows that the slip shows
    read neither the transport allowance nor the non-billable allowances,
    and with hours and allowances that are not negative their amounts add up
    to the same total. *)
Theorem billing_breakdown
  (record : PayrollRecord.t) (employee : Employee.t)
  (wh oh o60 nh hh oa : option Q) (b : Q) :
  record.[workHours] = stored wh ->
  record.[overtimeHours] = stored oh ->
  record.[overtimeOver60h] = stored o60 ->
  record.[nightHours] = stored nh ->
  record.[holidayHours] = stored hh ->
  record.[otherAllowances] = stored oa ->
  Employee.billingRate employee = Fin b ->
  JS.equiv (Slip.baseBilling record employee) (Fin (or_zero wh * b * 1)) /\
  JS.equiv (Slip.overtimeBilling record employee)
           (Fin (or_zero oh * b * 1.25)) /\
  JS.equiv (Slip.overtime60hBilling record employee)
           (Fin (or_zero o60 * b * 1.5)) /\
  JS.equiv (Slip.nightBilling record employee)
           (Fin (or_zero nh * b * 0.25)) /\
  JS.equiv (Slip.holidayBilling record employee)
           (Fin (or_zero hh * b * 1.35)) /\
  JS.equiv (Billing.billingAmountOf record employee)
           (Fin (or_zero wh * b * 1 + or_zero oh * b * 1.25
                 + or_zero o60 * b * 1.5 + or_zero nh * b * 0.25
                 + or_zero hh * b * 1.35 + or_zero oa * 1)) /\
  (forall v : num,
      Billing.billingAmountOf
        (PayrollRecord.set record transportAllowance v) employee
      = Billing.billingAmountOf record employee) /\
  (forall v : num,
      Billing.billingAmountOf
        (PayrollRecord.set record nonBillableAllowances v) employee
      = Billing.billingAmountOf record employee) /\
  (record.[billingAmount] = Billing.billingAmountOf record employee ->
   Slip.billingTotalShown record = Billing.billingAmountOf record employee) /\
  (forall (f : field) (v : num),
      In f [transportAllowance; nonBillableAllowances] ->
      Slip.billingRows (PayrollRecord.set record f v) employee
      = Slip.billingRows record employee) /\
  ((0 <= or_zero oh)%Q -> (0 <= or_zero o60)%Q -> (0 <= or_zero nh)%Q ->
   (0 <= or_zero hh)%Q -> (0 <= or_zero oa)%Q ->
   JS.equiv (Billing.rowsTotal record employee)
            (Fin (or_zero wh * b * 1 + or_zero oh * b * 1.25
                  + or_zero o60 * b * 1.5 + or_zero nh * b * 0.25
                  + or_zero hh * b * 1.35 + or_zero oa * 1))).
Proof.
  intros H1 H2 H3 H4 H5 H6 Hb.
  assert (Rows := @rowsTotal_billingAmountOf record employee
                    wh oh o60 nh hh oa b H1 H2 H3 H4 H5 H6 Hb).
  destruct (or_stored wh) as (q1 & O1 & E1).
  destruct (or_stored oh) as (q2 & O2 & E2).
  destruct (or_stored o60) as (q3 & O3 & E3).
  destruct (or_stored nh) as (q4 & O4 & E4).
  destruct (or_stored hh) as (q5 & O5 & E5).
  destruct (or_stored oa) as (q6 & O6 & E6).
  repeat split;
    try (intro v; apply billingAmountOf_frame; simpl; tauto);
    try (intro E; exact E);
    try (intros f v Hf; now apply billingRows_frame);
    try exact Rows;
    unfold Billing.billingAmountOf, Slip.baseBilling, Slip.overtimeBilling,
      Slip.overtime60hBilling, Slip.nightBilling, Slip.holidayBilling;
    rewrite ?H1, ?H2, ?H3, ?H4, ?H5, ?H6, ?Hb, ?O1, ?O2, ?O3, ?O4, ?O5, ?O6;
    simpl; apply equiv_Fin; rewrite ?E1, ?E2, ?E3, ?E4, ?E5, ?E6; ring.
Qed.

(** 160 hours and 10 hours of overtime at 1,500 are billed
    240,000 + 18,750 = 258,750 (the figures of spec 8). *)
Lemma billing_breakdown_witness :
  JS.equiv (Slip.baseBilling Sample.record Sample.employee) (Fin 240000) /\
  JS.equiv (Slip.overtimeBilling Sample.record Sample.employee) (Fin 18750) /\
  JS.equiv (Billing.billingAmountOf Sample.record Sample.employee)
           (Fin 258750) /\
  JS.equiv (Billing.rowsTotal Sample.record Sample.employee) (Fin 258750) /\
  JS.equiv (Slip.billingTotalShown Sample.record) (Fin 258750).
Proof.
  pose proof (@billing_breakdown Sample.record Sample.employee
                (Some 160) (Some 10) None None None None 1500
                eq_refl eq_refl eq_refl eq_refl eq_refl eq_refl eq_refl)
    as (H1 & H2 & _ & _ & _ & H6 & _ & _ & _ & _ & H11).
  split; [| split; [| split; [| split]]].
  - apply (equiv_trans H1). reflexivity.
  - apply (equiv_trans H2). reflexivity.
  - apply (equiv_trans H6). reflexivity.
  - refine (equiv_trans (H11 _ _ _ _ _) _);
      try reflexivity; vm_compute; discriminate.
  - reflexivity.
Defined.

End BillingBreakdown.

(* ================================================================== *)
(** * The paid-leave back-calculation *)
(* ================================================================== *)

Section PaidLeave.
Import Reading.

Variable record : PayrollRecord.t.
Variable employee : Employee.t.

(** The values of the pay row, without the trace. *)
Lemma paidLeaveRow_value :
  let leaveHrs :=
    if JS.gt (Employee.hourlyRate employee) (Fin 0)
    then JS.div64 (JS.or record.[paidLeaveAmount] (Fin 0))
                  (Employee.hourlyRate employee)
    else Fin 0 in
  let rawLeaveDays :=
    if JS.gt (DailyHours.dailyHrs record) (Fin 0)
    then JS.div64 leaveHrs (DailyHours.dailyHrs record) else Fin 0 in
  value (Slip.paidLeaveRow record employee)
  = Slip.mkLeave (DailyHours.dailyHrs record) leaveHrs
      (JS.div64 (JS.round (JS.mul64 rawLeaveDays (Fin 2))) (Fin 2)).
Proof.
  unfold Slip.paidLeaveRow, DailyHours.dailyHrs, DailyHours.worked,
    value, bind, divide, ret.
  destruct (JS.truthy record.[workDays] && JS.gt record.[workDays] (Fin 0)
            && JS.truthy record.[workHours]);
    destruct (JS.gt (Employee.hourlyRate employee) (Fin 0)); cbn [fst snd];
    match goal with
    | |- context [if ?c then _ else _] => destruct c
    end; reflexivity.
Qed.

(** The values of the paid-leave section, without the trace. *)
Lemma paidLeaveSection_value :
  let calculatedPaidLeaveHours :=
    if JS.truthy record.[paidLeaveAmount]
       && JS.gt (Employee.hourlyRate employee) (Fin 0)
    then JS.div64 record.[paidLeaveAmount] (Employee.hourlyRate employee)
    else JS.or record.[paidLeaveHours] (Fin 0) in
  let rawPaidLeaveDays :=
    if JS.gt (DailyHours.dailyHrs record) (Fin 0)
    then JS.div64 calculatedPaidLeaveHours (DailyHours.dailyHrs record)
    else JS.or record.[paidLeaveDays] (Fin 0) in
  value (Slip.paidLeaveSection record employee)
  = Slip.mkLeave (DailyHours.dailyHrs record) calculatedPaidLeaveHours
      (JS.div64 (JS.round (JS.mul64 rawPaidLeaveDays (Fin 2))) (Fin 2)).
Proof.
  unfold Slip.paidLeaveSection, DailyHours.dailyHrs,
    DailyHours.worked, value, bind, divide, ret.
  destruct (JS.truthy record.[workDays] && JS.gt record.[workDays] (Fin 0)
            && JS.truthy record.[workHours]);
    destruct (JS.truthy record.[paidLeaveAmount]
              && JS.gt (Employee.hourlyRate employee) (Fin 0)); cbn [fst snd];
    match goal with
    | |- context [if ?c then _ else _] => destruct c
    end; reflexivity.
Qed.

(** Every divisor of the two computations is above zero. *)
Lemma paidLeaveRow_divisors :
  Forall (fun d => JS.gt d (Fin 0) = true)
         (divisors (Slip.paidLeaveRow record employee)).
Proof.
  unfold Slip.paidLeaveRow, divisors, bind, divide, ret.
  destruct (JS.truthy record.[workDays] && JS.gt record.[workDays] (Fin 0)
            && JS.truthy record.[workHours]) eqn:W;
    destruct (JS.gt (Employee.hourlyRate employee) (Fin 0)) eqn:R;
    cbn [fst snd];
    match goal with
    | |- context [if ?c then _ else _] => destruct c eqn:D
    end; cbn [fst snd app];
    repeat (apply Forall_cons || apply Forall_nil); try reflexivity;
    try assumption.
  all: apply andb_prop in W; destruct W as [W _];
       apply andb_prop in W; destruct W as [_ W]; exact W.
Qed.

Lemma paidLeaveSection_divisors :
  Forall (fun d => JS.gt d (Fin 0) = true)
         (divisors (Slip.paidLeaveSection record employee)).
Proof.
  unfold Slip.paidLeaveSection, divisors, bind, divide, ret.
  destruct (JS.truthy record.[workDays] && JS.gt record.[workDays] (Fin 0)
            && JS.truthy record.[workHours]) eqn:W;
    destruct (JS.truthy record.[paidLeaveAmount]
              && JS.gt (Employee.hourlyRate employee) (Fin 0)) eqn:R;
    cbn [fst snd];
    match goal with
    | |- context [if ?c then _ else _] => destruct c eqn:D
    end; cbn [fst snd app];
    repeat (apply Forall_cons || apply Forall_nil); try reflexivity;
    try assumption;
    try (apply andb_prop in R; destruct R as [_ R]; exact R).
  all: apply andb_prop in W; destruct W as [W _];
       apply andb_prop in W; destruct W as [_ W]; exact W.
Qed.

End PaidLeave.

Section PaidLeaveClaim.
Import Reading.

(** The daily hours: the double quotient workHours / workDays for a positive
    number of days and a non-zero number of hours, 8 otherwise. *)
Lemma dailyHrs_worked (record : PayrollRecord.t) (d h : Q) :
  record.[workDays] = Fin d -> record.[workHours] = Fin h ->
  (0 < d)%Q -> ~ (h == 0)%Q ->
  DailyHours.dailyHrs record
  = Fin (JS.double (JS.double h / JS.double d)).
Proof.
  intros Hd Hh Pd Nh. unfold DailyHours.dailyHrs, DailyHours.worked.
  rewrite Hd, Hh.
  assert (T1 : JS.truthy (Fin d) = true) by (apply truthy_Fin; lra).
  assert (T2 : JS.gt (Fin d) (Fin 0) = true) by now apply gt_Fin.
  assert (T3 : JS.truthy (Fin h) = true) by now apply truthy_Fin.
  rewrite T1, T2, T3. simpl andb. cbv iota. now apply div64_Fin_pos.
Qed.

Lemma dailyHrs_default (record : PayrollRecord.t) :
  JS.gt record.[workDays] (Fin 0) = false \/
  JS.truthy record.[workHours] = false ->
  DailyHours.dailyHrs record = Fin 8.
Proof.
  unfold DailyHours.dailyHrs, DailyHours.worked.
  intros [-> | ->]; rewrite ?andb_false_r; reflexivity.
Qed.

(** Division of finite numbers by a positive one. *)
Lemma div_Fin_pos (a b : Q) : (0 < b)%Q -> JS.div (Fin a) (Fin b) = Fin (a / b).
Proof.
  intro H. simpl.
  destruct (Qeq_bool b 0) eqn:E; [| reflexivity].
  apply Qeq_bool_iff in E. lra.
Qed.

(** No hours of leave give no day of leave. *)
Lemma no_hours_no_days (dailyHrs : num) :
  JS.equiv
    (JS.div64
       (JS.round
          (JS.mul64
             (if JS.gt dailyHrs (Fin 0) then JS.div64 (Fin 0) dailyHrs
              else Fin 0)
             (Fin 2)))
       (Fin 2))
    (Fin 0).
Proof.
  destruct (JS.gt dailyHrs (Fin 0)) eqn:D; [| reflexivity].
  destruct (gt_zero_inv _ D) as [E | (q & E & Pq)]; rewrite E;
    [reflexivity |].
  rewrite (@div64_Fin_pos 0 q Pq).
  rewrite (@double_zero (JS.double 0 / JS.double q)%Q)
    by (change (JS.double 0) with 0%Q; unfold Qdiv; ring).
  reflexivity.
Qed.

(** C2, as stated, fails at both places.  In the paid-leave section an
    hourly rate of 0 does not give 0 hours and 0 days: the stored
    paidLeaveHours (here 8) is taken, and the days come out as 1.  And the
    daily hours are not workHours / workDays whenever workDays is positive:
    with 20 days and 0 hours they are 8, not 0, so the pay row shows 1 day
    of leave where the claim has 0. *)
Lemma paidLeave_counterexample :
  Employee.hourlyRate Sample.trainee = Fin 0 /\
  Slip.leaveHours (value (Slip.paidLeaveSection Sample.leaveStored
                                                 Sample.trainee)) = Fin 8 /\
  JS.eqb (Slip.leaveDays (value (Slip.paidLeaveSection Sample.leaveStored
                                                       Sample.trainee)))
         (Fin 1) = true /\
  Sample.idle.[workDays] = Fin 20 /\
  Sample.idle.[workHours] = Fin 0 /\
  Slip.dailyHours (value (Slip.paidLeaveRow Sample.idle Sample.employee))
  = Fin 8 /\
  JS.eqb (Slip.leaveDays (value (Slip.paidLeaveRow Sample.idle
                                                   Sample.employee)))
         (Fin 1) = true.
Proof. repeat split; reflexivity. Qed.

(** C2, amended.  Every quotient and every product below is the one of
    doubles: its operands are doubles and its result is the double nearest
    to the exact result, so that [Math.round] receives what the code gives
    it.  In the pay row and in the paid-leave section alike:
    - every division performed has a divisor above zero;
    - the daily hours are workHours / workDays when workDays is above zero
      and workHours is a non-zero number, and 8 otherwise.
    In the pay row (and the cost line):
    - the leave hours are paidLeaveAmount / hourlyRate (a missing amount
      counting as 0) when the hourly rate is above zero, and 0 otherwise; in
      particular an hourly rate of 0 gives 0 hours and 0 days;
    - the leave days are round(hours / dailyHours x 2) / 2 when the daily
      hours are above zero, and 0 otherwise.
    In the paid-leave section the fallbacks are the stored figures:
    - the leave hours are paidLeaveAmount / hourlyRate when the amount is a
      non-zero number and the hourly rate is above zero, and the stored
      paidLeaveHours (0 when missing) otherwise;
    - the leave days are round(hours / dailyHours x 2) / 2 when the daily
      hours are above zero, and the stored paidLeaveDays (0 when missing)
      rounded to the half day otherwise. *)
Theorem paidLeave_back_calculation
  (record : PayrollRecord.t) (employee : Employee.t) :
  let row := value (Slip.paidLeaveRow record employee) in
  let sec := value (Slip.paidLeaveSection record employee) in
  let rate := Employee.hourlyRate employee in
  Forall (fun d => JS.gt d (Fin 0) = true)
         (divisors (Slip.paidLeaveRow record employee)) /\
  Forall (fun d => JS.gt d (Fin 0) = true)
         (divisors (Slip.paidLeaveSection record employee)) /\
  Slip.dailyHours sec = Slip.dailyHours row /\
  (forall d h : Q,
      record.[workDays] = Fin d -> record.[workHours] = Fin h ->
      (0 < d)%Q -> ~ (h == 0)%Q ->
      Slip.dailyHours row = Fin (JS.double (JS.double h / JS.double d))) /\
  (JS.gt record.[workDays] (Fin 0) = false \/
   JS.truthy record.[workHours] = false ->
      Slip.dailyHours row = Fin 8) /\
  (JS.gt rate (Fin 0) = false ->
      Slip.leaveHours row = Fin 0 /\ JS.equiv (Slip.leaveDays row) (Fin 0)) /\
  (rate = Fin 0 ->
      Slip.leaveHours row = Fin 0 /\ JS.equiv (Slip.leaveDays row) (Fin 0)) /\
  (forall (w : Q) (a : option Q),
      rate = Fin w -> (0 < w)%Q -> record.[paidLeaveAmount] = stored a ->
      Slip.leaveHours row
      = Fin (JS.double (JS.double (or_zero a) / JS.double w))) /\
  (forall dh lh : Q,
      Slip.dailyHours row = Fin dh -> Slip.leaveHours row = Fin lh ->
      ((0 < dh)%Q ->
         Slip.leaveDays row
         = JS.div64
             (JS.round (JS.mul64 (JS.div64 (Fin lh) (Fin dh)) (Fin 2)))
             (Fin 2)) /\
      ((dh <= 0)%Q -> JS.equiv (Slip.leaveDays row) (Fin 0))) /\
  (JS.truthy record.[paidLeaveAmount] = false \/ JS.gt rate (Fin 0) = false ->
      Slip.leaveHours sec = JS.or record.[paidLeaveHours] (Fin 0)) /\
  (forall w a : Q,
      rate = Fin w -> (0 < w)%Q ->
      record.[paidLeaveAmount] = Fin a -> ~ (a == 0)%Q ->
      Slip.leaveHours sec = Fin (JS.double (JS.double a / JS.double w))) /\
  (forall dh lh : Q,
      Slip.dailyHours sec = Fin dh -> Slip.leaveHours sec = Fin lh ->
      ((0 < dh)%Q ->
         Slip.leaveDays sec
         = JS.div64
             (JS.round (JS.mul64 (JS.div64 (Fin lh) (Fin dh)) (Fin 2)))
             (Fin 2)) /\
      ((dh <= 0)%Q ->
         Slip.leaveDays sec
         = JS.div64
             (JS.round (JS.mul64 (JS.or record.[paidLeaveDays] (Fin 0))
                                 (Fin 2)))
             (Fin 2))).
Proof.
  intros row sec rate.
  pose proof (paidLeaveRow_value record employee) as Hrow.
  pose proof (paidLeaveSection_value record employee) as Hsec.
  cbv zeta in Hrow, Hsec. fold row in Hrow. fold sec in Hsec.
  fold rate in Hrow, Hsec.
  assert (Zero : forall r : num,
             r = Fin 0 -> JS.gt r (Fin 0) = false) by (now intros r ->).
  assert (RowZero : JS.gt rate (Fin 0) = false ->
            Slip.leaveHours row = Fin 0
            /\ JS.equiv (Slip.leaveDays row) (Fin 0)).
  { intro G. rewrite Hrow. cbn [Slip.leaveHours Slip.leaveDays]. rewrite G.
    split; [reflexivity | apply no_hours_no_days]. }
  split; [apply paidLeaveRow_divisors |].
  split; [apply paidLeaveSection_divisors |].
  split; [now rewrite Hrow, Hsec |].
  split; [intros d h Hd Hh Pd Nh; rewrite Hrow; cbn [Slip.dailyHours];
          now apply dailyHrs_worked |].
  split; [intro H; rewrite Hrow; cbn [Slip.dailyHours];
          now apply dailyHrs_default |].
  split; [exact RowZero |].
  split; [intro H; apply RowZero; now apply Zero |].
  split.
  { intros w a Hw Pw Ha. rewrite Hrow. cbn [Slip.leaveHours].
    rewrite Hw, Ha.
    assert (G : JS.gt (Fin w) (Fin 0) = true) by now apply gt_Fin.
    rewrite G. destruct (or_stored a) as (q & -> & E).
    rewrite div64_Fin_pos by assumption.
    now rewrite (@double_comp q (or_zero a) E). }
  split.
  { intros dh lh Hd Hl. rewrite Hrow in Hd, Hl |- *.
    cbn [Slip.dailyHours Slip.leaveHours Slip.leaveDays] in Hd, Hl |- *.
    rewrite Hl, Hd. split; intro P.
    - assert (G : JS.gt (Fin dh) (Fin 0) = true) by now apply gt_Fin.
      now rewrite G.
    - assert (G : JS.gt (Fin dh) (Fin 0) = false) by now apply gt_Fin_false.
      rewrite G. reflexivity. }
  split.
  { intro H. rewrite Hsec. cbn [Slip.leaveHours].
    destruct H as [-> | ->]; rewrite ?andb_false_r; reflexivity. }
  split.
  { intros w a Hw Pw Ha Na. rewrite Hsec. cbn [Slip.leaveHours].
    rewrite Hw, Ha.
    assert (G : JS.gt (Fin w) (Fin 0) = true) by now apply gt_Fin.
    assert (T : JS.truthy (Fin a) = true) by now apply truthy_Fin.
    rewrite G, T. simpl andb. cbv iota. now apply div64_Fin_pos. }
  intros dh lh Hd Hl. rewrite Hsec in Hd, Hl |- *.
  cbn [Slip.dailyHours Slip.leaveHours Slip.leaveDays] in Hd, Hl |- *.
  rewrite Hl, Hd. split; intro P.
  - assert (G : JS.gt (Fin dh) (Fin 0) = true) by now apply gt_Fin.
    now rewrite G.
  - assert (G : JS.gt (Fin dh) (Fin 0) = false) by now apply gt_Fin_false.
    rewrite G. reflexivity.
Qed.

(** A day and a half of leave: 11,000 paid at 1,000 an hour is 11 hours; at
    7.5 hours a day that is 1.47 days, shown as 1.5. *)
Example paidLeave_example :
  let row := value (Slip.paidLeaveRow Sample.onLeave Sample.employee) in
  JS.equiv (Slip.dailyHours row) (Fin 7.5) /\
  JS.equiv (Slip.leaveHours row) (Fin 11) /\
  JS.equiv (Slip.leaveDays row) (Fin 1.5) /\
  value (Slip.paidLeaveSection Sample.onLeave Sample.employee) = row.
Proof. repeat split; reflexivity. Qed.

(** The last bit of the quotient decides the half day.  With 168 hours in 20
    days and 14,700 paid at 1,000 an hour, the quotient of the two doubles
    14.7 and 8.4 is the double just below 1.75; twice that is just below
    3.5 and is rounded to 3: the slip shows 1.5 days, where exact arithmetic
    gives 1.75, a tie that would be rounded to 2 days. *)
Example paidLeave_quarter_day_tie :
  let row := value (Slip.paidLeaveRow Fixture.quarter Sample.employee) in
  Slip.leaveDays row = Fin (3 # 2) /\
  Slip.leaveDays (value (Slip.paidLeaveSection Fixture.quarter
                                               Sample.employee))
  = Fin (3 # 2) /\
  (JS.double (JS.double (JS.double 14700 / JS.double 1000)
              / JS.double (JS.double 168 / JS.double 20)) < 1.75)%Q /\
  (14700 / 1000 / (168 / 20) == 1.75)%Q.
Proof. vm_compute. repeat split; discriminate || reflexivity. Qed.

End PaidLeaveClaim.


(* ================================================================== *)
(** * Period tokens: facts *)
(* ================================================================== *)

Section PeriodFacts.

Lemma year_here_digit (s m : str) :
  Period.year_here s = Some m ->
  exists a t, m = a :: t /\ Period.is_digit a = true.
Proof.
  unfold Period.year_here.
  destruct s as [| a [| b [| c [| d [| e s]]]]]; try discriminate.
  destruct (Period.is_digit a) eqn:Da; simpl; [| discriminate].
  destruct (Period.is_digit b && Period.is_digit c && Period.is_digit d
            && (e =? Period.nen)%N); [| discriminate].
  intro H. injection H as <-. now exists a, [b; c; d].
Qed.

Lemma month_here_digit (s m : str) :
  Period.month_here s = Some m ->
  exists a t, m = a :: t /\ Period.is_digit a = true.
Proof.
  unfold Period.month_here.
  destruct s as [| a [| b rest]]; try discriminate.
  destruct (Period.is_digit a) eqn:Da; simpl; [| discriminate].
  destruct (Period.is_digit b
            && match rest with
               | [] => false
               | c :: _ => (c =? Period.gatsu)%N
               end).
  - intro H. injection H as <-. now exists a, [b].
  - destruct (b =? Period.gatsu)%N; [| discriminate].
    intro H. injection H as <-. now exists a, [].
Qed.

Lemma search_digit (here : str -> option str) (s m : str) :
  (forall s' m', here s' = Some m' ->
     exists a t, m' = a :: t /\ Period.is_digit a = true) ->
  Period.search here s = Some m ->
  exists a t, m = a :: t /\ Period.is_digit a = true.
Proof.
  intro Hhere. induction s as [| c s IH]; simpl.
  - destruct (here []) eqn:E; [| discriminate].
    intro H. injection H as <-. eauto.
  - destruct (here (c :: s)) eqn:E; [| exact IH].
    intro H. injection H as <-. eauto.
Qed.

(** The year and the month of a summary are finite numbers whatever the
    period token is. *)
Lemma parsed_number_finite (here : str -> option str) (s : str) (d : string) :
  (forall s' m', here s' = Some m' ->
     exists a t, m' = a :: t /\ Period.is_digit a = true) ->
  JS.finite (Period.parseInt (lit d)) = true ->
  JS.finite
    (Period.parseInt (Period.capture_or (Period.search here s) (lit d)))
  = true.
Proof.
  intros Hhere Hd. destruct (Period.search here s) as [m |] eqn:E;
    [| exact Hd].
  destruct (search_digit here s Hhere E) as (a & t & -> & Da).
  simpl. now rewrite Da.
Qed.

End PeriodFacts.

(* ================================================================== *)
(** * The monthly summary *)
(* ================================================================== *)

Section Summary.
Import Reading.

Variable st : Store.AppState.
Variable period : str.

Lemma periodRecordsOf_In (r : PayrollRecord.t) :
  In r (Store.periodRecordsOf st period) <->
  In r (Store.payrollRecords st) /\ PayrollRecord.period r = period.
Proof.
  unfold Store.periodRecordsOf. rewrite filter_In, str_eqb_eq. reflexivity.
Qed.

Lemma summary_none :
  Store.calculateMonthlySummary st period = None <->
  Store.periodRecordsOf st period = [].
Proof.
  unfold Store.calculateMonthlySummary.
  destruct (Store.periodRecordsOf st period) as [| r l]; simpl.
  - split; reflexivity.
  - split; discriminate.
Qed.

(** The fields of a summary that is returned. *)
Lemma summary_some (s : MonthlySummary.t) :
  Store.calculateMonthlySummary st period = Some s ->
  let periodRecords := Store.periodRecordsOf st period in
  periodRecords <> [] /\
  MonthlySummary.totalEmployees s = Array.length_num periodRecords /\
  MonthlySummary.averageMargin s
  = JS.div (Array.sum_of (fun r => r.[profitMargin]) periodRecords)
           (Array.length_num periodRecords).
Proof.
  unfold Store.calculateMonthlySummary.
  destruct (Store.periodRecordsOf st period) as [| r l] eqn:E; simpl;
    [discriminate |].
  intro H. injection H as <-. simpl. repeat split. discriminate.
Qed.

End Summary.

(** C7: the summary of a period is null exactly when no payroll record has
    that period; a summary that is returned comes with at least one record
    of the period and counts them all. *)
Theorem calculateMonthlySummary_null (st : Store.AppState) (period : str) :
  (Store.calculateMonthlySummary st period = None <->
   forall r, In r (Store.payrollRecords st) ->
             PayrollRecord.period r <> period) /\
  (forall s, Store.calculateMonthlySummary st period = Some s ->
     (exists r, In r (Store.payrollRecords st)
                /\ PayrollRecord.period r = period) /\
     MonthlySummary.totalEmployees s
     = Array.length_num (Store.periodRecordsOf st period) /\
     (0 < List.length (Store.periodRecordsOf st period))%nat).
Proof.
  split.
  - rewrite summary_none. split.
    + intros E r Hr Hp.
      assert (In r (Store.periodRecordsOf st period))
        by (apply periodRecordsOf_In; now split).
      rewrite E in H. destruct H.
    + intro H. destruct (Store.periodRecordsOf st period) as [| r l] eqn:E;
        [reflexivity |].
      assert (Hin : In r (Store.periodRecordsOf st period))
        by (rewrite E; now left).
      apply periodRecordsOf_In in Hin. destruct Hin as [Hin Hp].
      now destruct (H r Hin).
  - intros s Hs. destruct (summary_some st period Hs) as (Hne & Hn & _).
    destruct (Store.periodRecordsOf st period) as [| r l] eqn:E;
      [now destruct Hne |].
    assert (Hin : In r (Store.periodRecordsOf st period))
      by (rewrite E; now left).
    apply periodRecordsOf_In in Hin.
    split; [now exists r |]. split; [exact Hn | simpl; lia].
Qed.

(** October has records in the sample state, November has none. *)
Example calculateMonthlySummary_null_example :
  Store.calculateMonthlySummary Sample.sound (Period.token "2025" "11")
  = None /\
  option_map MonthlySummary.totalEmployees
    (Store.calculateMonthlySummary Sample.sound Sample.p2025_10)
  = Some (Fin 1).
Proof. split; reflexivity. Qed.

(** C8: when the records of a period carry the finite margins [margins]
    (there is at least one), a summary is returned and its averageMargin is
    their arithmetic mean: the sum of the margins divided by their number. *)
Theorem averageMargin_mean
  (st : Store.AppState) (period : str) (margins : list Q) :
  margins <> [] ->
  map (fun r => r.[profitMargin]) (Store.periodRecordsOf st period)
  = map Fin margins ->
  exists s,
    Store.calculateMonthlySummary st period = Some s /\
    JS.equiv (MonthlySummary.averageMargin s)
             (Fin (Reading.Qsum margins
                   / inject_Z (Z.of_nat (List.length margins)))).
Proof.
  intros Hne Hm.
  destruct (Store.calculateMonthlySummary st period) as [s |] eqn:Hs.
  - exists s. split; [reflexivity |].
    destruct (summary_some st period Hs) as (_ & _ & ->).
    destruct (sum_of_Fin _ _ _ Hm) as (q & -> & E).
    assert (L : List.length (Store.periodRecordsOf st period)
                = List.length margins).
    { rewrite <- (length_map (fun r => r.[profitMargin])), Hm.
      apply length_map. }
    unfold Array.length_num. rewrite L.
    assert (P : (0 < inject_Z (Z.of_nat (List.length margins)))%Q).
    { destruct margins; [now destruct Hne |].
      unfold Qlt. simpl. lia. }
    rewrite div_Fin_pos by exact P.
    apply equiv_Fin. now rewrite E.
  - apply summary_none in Hs. rewrite Hs in Hm.
    destruct margins; [now destruct Hne | discriminate].
Qed.

Lemma averageMargin_mean_witness :
  exists s,
    Store.calculateMonthlySummary Sample.twoMargins Sample.p2025_9 = Some s /\
    JS.equiv (MonthlySummary.averageMargin s)
             (Fin (Reading.Qsum [50; 10]
                   / inject_Z (Z.of_nat (List.length [50%Q; 10%Q])))).
Proof.
  apply (@averageMargin_mean Sample.twoMargins Sample.p2025_9 [50; 10]%Q).
  - discriminate.
  - reflexivity.
Defined.

(** The mean of the margins is not the margin of the totals: for margins of
    50% on 100 and 10% on 300 the average is 30 while the totals give
    80 / 400 = 20%. *)
Example averageMargin_not_margin_of_totals :
  exists s,
    Store.calculateMonthlySummary Sample.twoMargins Sample.p2025_9 = Some s /\
    JS.equiv (MonthlySummary.averageMargin s) (Fin 30) /\
    JS.equiv (JS.mul (JS.div (MonthlySummary.totalGrossProfit s)
                             (MonthlySummary.totalRevenue s))
                     (Fin 100))
             (Fin 20).
Proof. eexists. split; [reflexivity |]. split; reflexivity. Qed.

(* ================================================================== *)
(** * Records that carry no number *)
(* ================================================================== *)

Section Poisoned.

(** Each total of a summary is the sum of its property over the records of
    the period. *)
Lemma summary_totals (st : Store.AppState) (period : str)
  (s : MonthlySummary.t) (f : field) (total : MonthlySummary.t -> num) :
  Store.calculateMonthlySummary st period = Some s ->
  In (f, total) Store.totals ->
  total s = Array.sum_of (fun r => r.[f]) (Store.periodRecordsOf st period).
Proof.
  unfold Store.calculateMonthlySummary.
  destruct (List.length (Store.periodRecordsOf st period) =? 0)%nat;
    [discriminate |].
  intros H Hin. injection H as <-. simpl in Hin.
  repeat (destruct Hin as [Hin | Hin];
          [injection Hin as <- <-; reflexivity |]).
  destruct Hin.
Qed.

(** The paid-leave cost of a summary: the hours of each record of the
    period at the hourly rate of its employee. *)
Lemma summary_paidLeaveCost (st : Store.AppState) (period : str)
  (s : MonthlySummary.t) :
  Store.calculateMonthlySummary st period = Some s ->
  MonthlySummary.totalPaidLeaveCost s
  = Array.sum_of
      (fun r => JS.mul r.[paidLeaveHours]
                  (Store.hourlyRateOf
                     (Store.findEmployee (Store.employees st) r)))
      (Store.periodRecordsOf st period).
Proof.
  unfold Store.calculateMonthlySummary.
  destruct (List.length (Store.periodRecordsOf st period) =? 0)%nat;
    [discriminate |].
  intro H. injection H as <-. reflexivity.
Qed.

(** The rate that the paid-leave cost multiplies by is finite when the
    employees' rates are. *)
Lemma hourlyRateOf_finite (employees : list Employee.t) (r : PayrollRecord.t) :
  (forall e, In e employees -> JS.finite (Employee.hourlyRate e) = true) ->
  JS.finite (Store.hourlyRateOf (Store.findEmployee employees r)) = true.
Proof.
  intro H. unfold Store.hourlyRateOf, Store.findEmployee.
  destruct (find _ employees) as [e |] eqn:E; [| reflexivity].
  apply find_some in E. destruct E as [Hin _]. specialize (H e Hin).
  destruct (Employee.hourlyRate e) as [| | b | q]; try discriminate.
  unfold JS.or. destruct (JS.truthy (Fin q)); reflexivity.
Qed.

Lemma mul_finite (a b : num) :
  JS.finite a = true -> JS.finite b = true -> JS.finite (JS.mul a b) = true.
Proof. destruct a, b; simpl; congruence. Qed.

Lemma In_firstn (A : Type) (n : nat) (l : list A) (x : A) :
  In x (firstn n l) -> In x l.
Proof.
  revert l. induction n as [| n IH]; intros [| y l]; simpl; try tauto.
  intros [-> | H]; [now left | right; now apply IH].
Qed.

Lemma profits_finite (employees : list Employee.t)
  (l recs : list PayrollRecord.t) :
  (forall r, In r l -> In r recs) ->
  (forall r, In r recs -> JS.finite r.[grossProfit] = true) ->
  Forall (fun v => JS.finite v = true)
         (map ProfitEntry.profit
              (map (Store.profitEntry employees) (firstn 5 l))).
Proof.
  intros Hsub Hfin. apply Forall_forall. intros v Hv.
  apply in_map_iff in Hv. destruct Hv as (e & <- & He).
  apply in_map_iff in He. destruct He as (r & <- & Hr).
  simpl. apply Hfin, Hsub. eapply In_firstn; eassumption.
Qed.

End Poisoned.

(** C9, as stated, fails: nothing is isolated or excluded.  With a complete
    record and one that carries no gross profit and no margin in the same
    period, the summary counts both and its average margin and total gross
    profit are [NaN]; the complete record alone gives finite figures. *)
Lemma calculateMonthlySummary_counterexample :
  Sample.noProfit.[profitMargin] = undefined /\
  option_map MonthlySummary.totalEmployees
    (Store.calculateMonthlySummary Sample.mixed Sample.p2025_10)
  = Some (Fin 2) /\
  option_map MonthlySummary.averageMargin
    (Store.calculateMonthlySummary Sample.mixed Sample.p2025_10)
  = Some NaN /\
  option_map MonthlySummary.totalGrossProfit
    (Store.calculateMonthlySummary Sample.mixed Sample.p2025_10)
  = Some NaN /\
  option_map (fun s => JS.eqb (MonthlySummary.averageMargin s) (Fin 23.6))
    (Store.calculateMonthlySummary Sample.sound Sample.p2025_10)
  = Some true.
Proof. repeat split; reflexivity. Qed.

(** C9, amended: summarization excludes no record.  Whenever the period
    has a record a summary is returned, whatever its records carry, and it
    counts every record of the period.  A record of the period that carries
    [NaN] or [undefined] in a summed property makes the corresponding total
    [NaN]: billingAmount, grossSalary, companySocialInsurance,
    companyEmploymentInsurance, transportAllowance, totalCompanyCost and
    grossProfit their totals, paidLeaveHours the paid-leave cost, and
    profitMargin the average margin.  When every record of the period
    carries finite numbers in the summed properties and every employee has a
    finite hourly rate, every numeric field of the summary is a finite
    number. *)
Theorem calculateMonthlySummary_keeps_every_record
  (st : Store.AppState) (period : str) :
  Store.periodRecordsOf st period <> [] ->
  exists s : MonthlySummary.t,
    Store.calculateMonthlySummary st period = Some s /\
    MonthlySummary.totalEmployees s
    = Array.length_num (Store.periodRecordsOf st period) /\
    (forall r f total,
        In r (Store.periodRecordsOf st period) ->
        In (f, total) Store.totals ->
        r.[f] = NaN \/ r.[f] = undefined ->
        total s = NaN) /\
    (forall r,
        In r (Store.periodRecordsOf st period) ->
        r.[paidLeaveHours] = NaN \/ r.[paidLeaveHours] = undefined ->
        MonthlySummary.totalPaidLeaveCost s = NaN) /\
    (forall r,
        In r (Store.periodRecordsOf st period) ->
        r.[profitMargin] = NaN \/ r.[profitMargin] = undefined ->
        MonthlySummary.averageMargin s = NaN) /\
    ((forall r f,
         In r (Store.periodRecordsOf st period) ->
         In f Store.summedFields -> JS.finite r.[f] = true) ->
     (forall e, In e (Store.employees st) ->
                JS.finite (Employee.hourlyRate e) = true) ->
     Forall (fun v => JS.finite v = true) (MonthlySummary.numbers s)).
Proof.
  intro Hrec.
  destruct (Store.calculateMonthlySummary st period) as [s |] eqn:Hs;
    [| apply summary_none in Hs; contradiction].
  exists s. split; [reflexivity |].
  destruct (summary_some st period Hs) as (Hne & Hcount & Havg).
  split; [exact Hcount |]. split; [| split; [| split]].
  - intros r f total Hr Hf Hbad.
    rewrite (@summary_totals st period s f total Hs Hf).
    now apply sum_of_poisoned with (x := r).
  - intros r Hr Hbad. rewrite (@summary_paidLeaveCost st period s Hs).
    apply sum_of_poisoned with (x := r); [exact Hr |].
    left. destruct Hbad as [-> | ->]; reflexivity.
  - intros r Hr Hbad. rewrite Havg.
    rewrite (@sum_of_poisoned _ (fun r => r.[profitMargin]) _ r Hr Hbad).
    reflexivity.
  - intros Hfin Hrate.
    assert (F : forall f, In f Store.summedFields ->
              JS.finite (Array.sum_of (fun r => r.[f])
                           (Store.periodRecordsOf st period)) = true).
    { intros f Hf. apply sum_of_finite. intros r Hr. now apply Hfin. }
    assert (Favg : JS.finite (MonthlySummary.averageMargin s) = true).
    { rewrite Havg.
      assert (F' := F profitMargin). simpl in F'.
      destruct (Array.sum_of (fun r => r.[profitMargin])
                  (Store.periodRecordsOf st period)) as [| | b | q];
        try (discriminate F'; tauto).
      unfold Array.length_num. rewrite div_Fin_pos; [reflexivity |].
      destruct (Store.periodRecordsOf st period); [now destruct Hne |].
      unfold Qlt. simpl. lia. }
    revert Favg. clear Havg Hcount.
    unfold Store.calculateMonthlySummary in Hs.
    destruct (List.length (Store.periodRecordsOf st period) =? 0)%nat;
      [discriminate |].
    injection Hs as <-. intro Favg.
    unfold MonthlySummary.numbers.
    cbn [MonthlySummary.year MonthlySummary.month
         MonthlySummary.totalEmployees MonthlySummary.totalRevenue
         MonthlySummary.totalSalaryCost MonthlySummary.totalSocialInsurance
         MonthlySummary.totalEmploymentInsurance
         MonthlySummary.totalPaidLeaveCost MonthlySummary.totalTransportCost
         MonthlySummary.totalCompanyCost MonthlySummary.totalGrossProfit
         MonthlySummary.averageMargin MonthlySummary.topProfitEmployees
         MonthlySummary.bottomProfitEmployees] in *.
    apply Forall_app. split; [| apply Forall_app; split].
    + repeat apply Forall_cons; try apply Forall_nil.
      * apply (@parsed_number_finite Period.year_here period "2025");
          [exact year_here_digit | reflexivity].
      * apply (@parsed_number_finite Period.month_here period "1");
          [exact month_here_digit | reflexivity].
      * reflexivity.
      * apply (F billingAmount). simpl; tauto.
      * apply (F grossSalary). simpl; tauto.
      * apply (F companySocialInsurance). simpl; tauto.
      * apply (F companyEmploymentInsurance). simpl; tauto.
      * apply sum_of_finite. intros r Hr. apply mul_finite.
        -- apply Hfin; [exact Hr | simpl; tauto].
        -- now apply hourlyRateOf_finite.
      * apply (F transportAllowance). simpl; tauto.
      * apply (F totalCompanyCost). simpl; tauto.
      * apply (F grossProfit). simpl; tauto.
      * exact Favg.
    + apply profits_finite with (recs := Store.periodRecordsOf st period).
      * intros r Hr. unfold Array.sort_with in Hr.
        now apply stable_sort_In in Hr.
      * intros r Hr. apply Hfin; [exact Hr | simpl; tauto].
    + apply profits_finite with (recs := Store.periodRecordsOf st period).
      * intros r Hr. unfold Array.sort_with in Hr.
        apply stable_sort_In in Hr. now apply stable_sort_In in Hr.
      * intros r Hr. apply Hfin; [exact Hr | simpl; tauto].
Qed.

Lemma calculateMonthlySummary_keeps_every_record_witness :
  exists s,
    Store.calculateMonthlySummary Sample.sound Sample.p2025_10 = Some s /\
    MonthlySummary.totalEmployees s = Fin 1 /\
    Forall (fun v => JS.finite v = true) (MonthlySummary.numbers s).
Proof.
  destruct (@calculateMonthlySummary_keeps_every_record
              Sample.sound Sample.p2025_10)
    as (s & Hs & H1 & _ & _ & _ & H4); [discriminate |].
  exists s. split; [exact Hs |]. split; [exact H1 |]. apply H4.
  - intros r f [<- | []] Hf. simpl in Hf.
    repeat (destruct Hf as [<- | Hf]; [reflexivity |]). destruct Hf.
  - intros e [<- | []]. reflexivity.
Defined.

(* ================================================================== *)
(** * The order of periods *)
(* ================================================================== *)

Section PeriodOrder.

(** As strings, a token of October, November or December comes before the
    token of any month from February to September of the same year: after
    the common prefix the code unit of the digit 1 is compared with that of
    a larger digit. *)
Lemma two_digit_month_sorts_first (y : str) (c d : N) :
  (50 <= d)%N ->
  JS.str_ltb (y ++ [Period.nen; 49%N; c; Period.gatsu])
             (y ++ [Period.nen; d; Period.gatsu]) = true.
Proof.
  intro Hd. induction y as [| a y IH]; simpl.
  - assert (L : (49 <? d)%N = true) by (apply N.ltb_lt; lia).
    now rewrite L.
  - rewrite N.ltb_irrefl. exact IH.
Qed.

Lemma two_digit_month_sorts_first_witness :
  JS.str_ltb (Period.token "2024" "12") (Period.token "2024" "3") = true.
Proof.
  apply (@two_digit_month_sorts_first (lit "2024") 50 51). vm_compute.
  discriminate.
Defined.

(** C6 on the code.  After September and October 2025 are added, the store
    lists September first, because its period list is sorted as strings and
    then reversed; the sample loader then selects September as the latest
    period.  The months that the summary parses from the two tokens are 9
    and 10, [comparePeriods] ranks October above September, and the
    employee detail modal, which sorts with it, lists October first. *)
Lemma availablePeriods_sorted_as_strings :
  Store.availablePeriods
    (Store.addPayrollRecords [Sample.september; Sample.october]
                             Sample.emptyState)
  = [Sample.p2025_9; Sample.p2025_10] /\
  Store.selectedPeriod
    (Store.loadSampleData [Sample.employee]
                          [Sample.september; Sample.october]
                          Sample.emptyState)
  = Sample.p2025_9 /\
  JS.str_ltb Sample.p2025_10 Sample.p2025_9 = true /\
  option_map MonthlySummary.month
    (Store.calculateMonthlySummary Sample.twoMargins Sample.p2025_9)
  = Some (Fin 9) /\
  option_map MonthlySummary.month
    (Store.calculateMonthlySummary Sample.twoMargins Sample.p2025_10)
  = Some (Fin 10) /\
  JS.gt (Period.comparePeriods Sample.p2025_10 Sample.p2025_9) (Fin 0)
  = true /\
  map PayrollRecord.period
      (EmployeeDetail.employeeRecords [Sample.september; Sample.october]
                                      Sample.employee)
  = [Sample.p2025_10; Sample.p2025_9].
Proof. repeat split; reflexivity. Qed.

End PeriodOrder.

(* ================================================================== *)
(** * Further properties *)
(* ================================================================== *)

Section Further.

(** X1: the margin of a record is unchanged when its gross profit and its
    billing amount are both doubled. *)
Theorem marginRate_scale_invariant
  (r r' : PayrollRecord.t) (gp ba : Q) :
  r.[grossProfit] = Fin gp -> r.[billingAmount] = Fin ba ->
  r'.[grossProfit] = Fin (2 * gp) -> r'.[billingAmount] = Fin (2 * ba) ->
  JS.equiv (Slip.marginRate r') (Slip.marginRate r).
Proof.
  intros Hg Hb Hg' Hb'.
  destruct (marginRate_Fin r Hg Hb) as [Hpos Hneg].
  destruct (marginRate_Fin r' Hg' Hb') as [Hpos' Hneg'].
  destruct (Qlt_le_dec 0 ba) as [Pb | Nb].
  - assert (Pkb : (0 < 2 * ba)%Q) by lra.
    rewrite (Hpos Pb), (Hpos' Pkb).
    apply equiv_Fin. field. lra.
  - assert (Nkb : (2 * ba <= 0)%Q) by lra.
    rewrite (Hneg Nb), (Hneg' Nkb). reflexivity.
Qed.

Lemma marginRate_scale_invariant_witness :
  JS.equiv (Slip.marginRate Sample.doubled) (Slip.marginRate Sample.record).
Proof.
  apply (@marginRate_scale_invariant Sample.record Sample.doubled
           61179 258750); reflexivity.
Defined.

(** X3: the margin of the rate card (part_001 45-46) divides by the billing
    rate without a guard: for a billing rate of 0 it is [NaN] when the hourly
    rate is 0 as well, and -Infinity when the hourly rate is positive. *)
Theorem margin_unguarded (employee : Employee.t) (h : Q) :
  Employee.billingRate employee = Fin 0 ->
  Employee.hourlyRate employee = Fin h ->
  ((h == 0)%Q -> EmployeeDetail.margin employee = NaN) /\
  ((0 < h)%Q -> EmployeeDetail.margin employee = Inf true).
Proof.
  intros Hb Hh. unfold EmployeeDetail.margin, EmployeeDetail.profit.
  rewrite Hb, Hh.
  change (JS.sub (Fin 0) (Fin h)) with (Fin (0 + - h)).
  unfold JS.div. change (Qeq_bool 0 0) with true. cbv iota.
  split; intro H.
  - assert (E : Qeq_bool (0 + - h) 0 = true)
      by (apply Qeq_bool_iff; rewrite H; reflexivity).
    now rewrite E.
  - assert (E : Qeq_bool (0 + - h) 0 = false).
    { destruct (Qeq_bool (0 + - h) 0) eqn:E; [| reflexivity].
      apply Qeq_bool_iff in E. lra. }
    assert (L : JS.Qltb (0 + - h) 0 = true) by (apply Qltb_iff; lra).
    rewrite E, L. reflexivity.
Qed.

Lemma margin_unguarded_witness :
  EmployeeDetail.margin Sample.unrated = NaN /\
  EmployeeDetail.margin Sample.unbilled = Inf true.
Proof.
  split.
  - apply (@margin_unguarded Sample.unrated 0); reflexivity.
  - apply (@margin_unguarded Sample.unbilled 1000); reflexivity.
Defined.

(** The year and the month of a summary: 2025 and 10 are read from the
    token of October 2025; a period written without the kanji falls back to
    the year 2025 and the month 1. *)
Example summary_year_month :
  option_map (fun s => (MonthlySummary.year s, MonthlySummary.month s))
    (Store.calculateMonthlySummary Sample.twoMargins Sample.p2025_10)
  = Some (Fin 2025, Fin 10) /\
  option_map (fun s => (MonthlySummary.year s, MonthlySummary.month s))
    (Store.calculateMonthlySummary Sample.dashedState Sample.dashed)
  = Some (Fin 2025, Fin 1).
Proof. split; reflexivity. Qed.

End Further.

(* ================================================================== *)
(** * Sorting *)
(* ================================================================== *)

Section SortFacts.

Variable A : Type.
Variable after : A -> A -> bool.

Lemma insert_perm (x : A) (l : list A) :
  Permutation (Array.insert after x l) (x :: l).
Proof.
  induction l as [| y l IH]; simpl; [reflexivity |].
  destruct (after x y); [| reflexivity].
  rewrite IH. apply perm_swap.
Qed.

Lemma stable_sort_perm (l : list A) : Permutation (Array.stable_sort after l) l.
Proof.
  induction l as [| x l IH]; simpl; [reflexivity |].
  rewrite insert_perm. now apply perm_skip.
Qed.

Variable key : A -> Q.


Lemma keyed_tail (x : A) (l : list A) :
  Array.keyed after key (x :: l) -> Array.keyed after key l.
Proof. intros H a b Ha Hb. apply H; now right. Qed.

Lemma insert_sorted (x : A) (l : list A) :
  Array.keyed after key (x :: l) ->
  StronglySorted (fun a b => (key a <= key b)%Q) l ->
  StronglySorted (fun a b => (key a <= key b)%Q) (Array.insert after x l).
Proof.
  intros K S. induction S as [| y l S IH Hy]; simpl.
  - repeat constructor.
  - assert (Kxy : after x y = true <-> (key y < key x)%Q)
      by (apply K; simpl; tauto).
    destruct (after x y) eqn:E.
    + constructor.
      * apply IH. intros a b Ha Hb. apply K; simpl in *; tauto.
      * apply Forall_forall. intros z Hz. apply insert_In in Hz.
        destruct Hz as [-> | Hz].
        -- apply Qlt_le_weak. now apply Kxy.
        -- rewrite Forall_forall in Hy. now apply Hy.
    + assert (L : (key x <= key y)%Q).
      { destruct (Qlt_le_dec (key y) (key x)) as [H | H]; [| exact H].
        apply Kxy in H. discriminate. }
      constructor; [now constructor |].
      constructor; [exact L |].
      rewrite Forall_forall in Hy |- *. intros z Hz.
      apply Qle_trans with (key y); [exact L | now apply Hy].
Qed.

Lemma stable_sort_sorted (l : list A) :
  Array.keyed after key l ->
  StronglySorted (fun a b => (key a <= key b)%Q) (Array.stable_sort after l).
Proof.
  induction l as [| x l IH]; intro K; simpl; [constructor |].
  apply insert_sorted.
  - intros a b Ha Hb. apply K; simpl in *.
    + destruct Ha as [-> | Ha]; [now left | right].
      now apply stable_sort_In in Ha.
    + destruct Hb as [-> | Hb]; [now left | right].
      now apply stable_sort_In in Hb.
  - apply IH. now apply keyed_tail with x.
Qed.

(** Stability: the elements of any one key keep their order. *)
Lemma insert_stable (k : Q) (x : A) (l : list A) :
  Array.keyed after key (x :: l) ->
  filter (fun a => Qeq_bool (key a) k) (Array.insert after x l)
  = filter (fun a => Qeq_bool (key a) k) (x :: l).
Proof.
  intro K. induction l as [| y l IH]; [reflexivity |].
  assert (Kxy : after x y = true <-> (key y < key x)%Q)
    by (apply K; simpl; tauto).
  assert (IH' : filter (fun a => Qeq_bool (key a) k) (Array.insert after x l)
                = filter (fun a => Qeq_bool (key a) k) (x :: l)).
  { apply IH. intros a b Ha Hb. apply K; simpl in *; tauto. }
  simpl. destruct (after x y) eqn:E; [| reflexivity].
  simpl. rewrite IH'. simpl.
  destruct (Qeq_bool (key x) k) eqn:Ex; [| reflexivity].
  destruct (Qeq_bool (key y) k) eqn:Ey; [| reflexivity].
  apply Qeq_bool_iff in Ex, Ey.
  assert (key y < key x)%Q by now apply Kxy.
  lra.
Qed.

Lemma stable_sort_stable (k : Q) (l : list A) :
  Array.keyed after key l ->
  filter (fun a => Qeq_bool (key a) k) (Array.stable_sort after l)
  = filter (fun a => Qeq_bool (key a) k) l.
Proof.
  induction l as [| x l IH]; intro K; [reflexivity |].
  simpl Array.stable_sort. rewrite insert_stable.
  - simpl. rewrite IH by now apply keyed_tail with x. reflexivity.
  - intros a b Ha Hb. apply K; simpl in *.
    + destruct Ha as [-> | Ha]; [now left | right].
      now apply stable_sort_In in Ha.
    + destruct Hb as [-> | Hb]; [now left | right].
      now apply stable_sort_In in Hb.
Qed.

End SortFacts.

(* ================================================================== *)
(** * Top and bottom employees of a summary *)
(* ================================================================== *)

Section TopBottom.
Import Reading.

Lemma StronglySorted_impl (A : Type) (R R' : A -> A -> Prop) (l : list A) :
  (forall a b, R a b -> R' a b) -> StronglySorted R l -> StronglySorted R' l.
Proof.
  intros H S. induction S as [| x l S IH Hx]; constructor; [exact IH |].
  rewrite Forall_forall in Hx |- *. intros y Hy. now apply H, Hx.
Qed.

Lemma filter_opp_key (l : list PayrollRecord.t) (key : PayrollRecord.t -> Q)
  (k : Q) :
  filter (fun a => Qeq_bool (- key a) (- k)) l
  = filter (fun a => Qeq_bool (key a) k) l.
Proof.
  apply filter_ext. intro a.
  destruct (Qeq_bool (key a) k) eqn:E.
  - apply Qeq_bool_iff in E. apply Qeq_bool_iff. now rewrite E.
  - destruct (Qeq_bool (- key a) (- k)) eqn:E'; [| reflexivity].
    apply Qeq_bool_iff in E'. apply Qeq_bool_neq in E. lra.
Qed.

(** X4: the top and bottom lists of a summary whose records carry finite
    gross profits: each is made of the first five records of a rearrangement of
    the records of the period, by gross profit from the largest (top) or from
    the smallest (bottom), records of equal gross profit in their original
    order. *)
Theorem top_bottom_sorted_stable
  (st : Store.AppState) (period : str) (s : MonthlySummary.t) :
  Store.calculateMonthlySummary st period = Some s ->
  (forall r, In r (Store.periodRecordsOf st period) ->
             JS.finite r.[grossProfit] = true) ->
  let recs := Store.periodRecordsOf st period in
  let gp := fun r : PayrollRecord.t => rational r.[grossProfit] in
  exists top bottom : list PayrollRecord.t,
    MonthlySummary.topProfitEmployees s
    = map (Store.profitEntry (Store.employees st)) (firstn 5 top) /\
    MonthlySummary.bottomProfitEmployees s
    = map (Store.profitEntry (Store.employees st)) (firstn 5 bottom) /\
    Permutation top recs /\ Permutation bottom recs /\
    StronglySorted (fun a b => (gp b <= gp a)%Q) top /\
    StronglySorted (fun a b => (gp a <= gp b)%Q) bottom /\
    (forall k, filter (fun r => Qeq_bool (gp r) k) top
               = filter (fun r => Qeq_bool (gp r) k) recs) /\
    (forall k, filter (fun r => Qeq_bool (gp r) k) bottom
               = filter (fun r => Qeq_bool (gp r) k) recs).
Proof.
  intros Hs Hfin recs gp.
  set (desc := fun a b : PayrollRecord.t =>
                 JS.gt (JS.sub b.[grossProfit] a.[grossProfit]) (Fin 0)).
  set (asc := fun a b : PayrollRecord.t =>
                JS.gt (JS.sub a.[grossProfit] b.[grossProfit]) (Fin 0)).
  set (top := Array.stable_sort desc recs).
  set (bottom := Array.stable_sort asc top).
  assert (Cmp : forall a b, In a recs -> In b recs ->
            (JS.gt (JS.sub a.[grossProfit] b.[grossProfit]) (Fin 0) = true
             <-> (gp b < gp a)%Q)).
  { intros a b Ha Hb. unfold gp.
    pose proof (Hfin a Ha) as Fa. pose proof (Hfin b Hb) as Fb.
    destruct a.[grossProfit] as [| | sa | qa]; try discriminate.
    destruct b.[grossProfit] as [| | sb | qb]; try discriminate.
    change (JS.sub (Fin qa) (Fin qb)) with (Fin (qa + - qb)).
    rewrite gt_Fin. simpl. split; intro; lra. }
  assert (Kd : Array.keyed desc (fun r => - gp r)%Q recs).
  { intros a b Ha Hb. unfold desc. rewrite (Cmp b a Hb Ha).
    split; intro; lra. }
  assert (Intop : forall r, In r top <-> In r recs)
    by (intro r; apply stable_sort_In).
  assert (Ka : Array.keyed asc gp top).
  { intros a b Ha Hb. unfold asc. apply Cmp; now apply Intop. }
  exists top, bottom.
  unfold Store.calculateMonthlySummary in Hs. fold recs in Hs.
  destruct (List.length recs =? 0)%nat; [discriminate |].
  injection Hs as <-.
  split; [reflexivity |]. split; [reflexivity |].
  assert (Pt : Permutation top recs) by apply stable_sort_perm.
  split; [exact Pt |].
  split; [transitivity top; [apply stable_sort_perm | exact Pt] |].
  split.
  { apply StronglySorted_impl
      with (R := fun a b => (- gp a <= - gp b)%Q);
      [intros a b H; lra |].
    now apply stable_sort_sorted. }
  split; [now apply stable_sort_sorted |].
  assert (St : forall k, filter (fun r => Qeq_bool (gp r) k) top
                         = filter (fun r => Qeq_bool (gp r) k) recs).
  { intro k. rewrite <- !(filter_opp_key _ gp k).
    now apply stable_sort_stable. }
  split; [exact St |].
  intro k. rewrite <- St. now apply stable_sort_stable.
Qed.

Lemma top_bottom_sorted_stable_witness :
  exists s,
    Store.calculateMonthlySummary Sample.twoMargins Sample.p2025_9 = Some s /\
    map ProfitEntry.profit (MonthlySummary.topProfitEmployees s)
    = [Fin 50; Fin 30] /\
    map ProfitEntry.profit (MonthlySummary.bottomProfitEmployees s)
    = [Fin 30; Fin 50].
Proof.
  eexists. split; [reflexivity |].
  destruct (@top_bottom_sorted_stable Sample.twoMargins Sample.p2025_9 _
              eq_refl) as (top & bottom & Ht & Hb & _).
  - intros r [<- | [<- | []]]; reflexivity.
  - split; reflexivity.
Defined.

End TopBottom.

(* ================================================================== *)
(** * The order of strings and the available periods *)
(* ================================================================== *)

Section StringOrder.

Lemma str_ltb_irrefl (a : str) : JS.str_ltb a a = false.
Proof.
  induction a as [| x a IH]; simpl; [reflexivity |].
  now rewrite N.ltb_irrefl.
Qed.

Lemma str_ltb_trans (a b c : str) :
  JS.str_ltb a b = true -> JS.str_ltb b c = true -> JS.str_ltb a c = true.
Proof.
  revert b c. induction a as [| x a IH]; intros [| y b] [| z c]; simpl;
    try discriminate; try reflexivity.
  destruct (N.ltb_spec x y), (N.ltb_spec y x), (N.ltb_spec y z),
    (N.ltb_spec z y), (N.ltb_spec x z), (N.ltb_spec z x);
    try lia; try discriminate; try reflexivity.
  apply IH.
Qed.

Lemma str_ltb_total (a b : str) :
  JS.str_ltb a b = false -> JS.str_ltb b a = false -> a = b.
Proof.
  revert b. induction a as [| x a IH]; intros [| y b]; simpl;
    try discriminate; try reflexivity.
  destruct (N.ltb_spec x y), (N.ltb_spec y x); try lia; try discriminate.
  intros H1 H2. assert (x = y) by lia. subst y. f_equal. now apply IH.
Qed.

Lemma str_ltb_asym (a b : str) :
  JS.str_ltb a b = true -> JS.str_ltb b a = false.
Proof.
  intro H. destruct (JS.str_ltb b a) eqn:E; [| reflexivity].
  pose proof (str_ltb_trans _ _ _ H E) as T.
  rewrite str_ltb_irrefl in T. discriminate.
Qed.

Lemma str_not_ltb_trans (a b c : str) :
  JS.str_ltb b a = false -> JS.str_ltb c b = false -> JS.str_ltb c a = false.
Proof.
  intros H1 H2. destruct (JS.str_ltb c a) eqn:E; [| reflexivity].
  destruct (JS.str_ltb a b) eqn:F.
  - pose proof (str_ltb_trans _ _ _ E F) as T. congruence.
  - assert (a = b) by now apply str_ltb_total. subst b. congruence.
Qed.

End StringOrder.

Section OrderedSort.
Variable A : Type.
Variable after : A -> A -> bool.
Hypothesis after_asym : forall x y, after x y = true -> after y x = false.
Hypothesis before_trans :
  forall x y z, after x y = false -> after y z = false -> after x z = false.

Lemma insert_ordered (x : A) (l : list A) :
  StronglySorted (fun a b => after a b = false) l ->
  StronglySorted (fun a b => after a b = false) (Array.insert after x l).
Proof.
  induction 1 as [| y l S IH F]; simpl.
  - constructor; constructor.
  - destruct (after x y) eqn:E.
    + constructor; [exact IH |].
      apply Forall_forall. intros z Hz. apply insert_In in Hz.
      destruct Hz as [-> | Hz]; [now apply after_asym |].
      rewrite Forall_forall in F. now apply F.
    + constructor; [now constructor |].
      constructor; [exact E |].
      apply Forall_forall. intros z Hz. rewrite Forall_forall in F.
      apply before_trans with y; [exact E | now apply F].
Qed.

Lemma stable_sort_ordered (l : list A) :
  StronglySorted (fun a b => after a b = false) (Array.stable_sort after l).
Proof.
  induction l as [| x l IH]; simpl; [constructor | now apply insert_ordered].
Qed.

End OrderedSort.

Section Periods.

Lemma StronglySorted_snoc (A : Type) (R : A -> A -> Prop) (l : list A) (x : A) :
  StronglySorted R l -> Forall (fun y => R y x) l ->
  StronglySorted R (l ++ [x]).
Proof.
  induction 1 as [| y l S IH F]; intro H; simpl.
  - constructor; constructor.
  - inversion H as [| ? ? Hy Hl]; subst. constructor; [now apply IH |].
    apply Forall_app. split; [exact F | now constructor].
Qed.

Lemma StronglySorted_rev (A : Type) (R : A -> A -> Prop) (l : list A) :
  StronglySorted R l -> StronglySorted (fun a b => R b a) (rev l).
Proof.
  induction 1 as [| y l S IH F]; simpl; [constructor |].
  apply StronglySorted_snoc; [exact IH |].
  apply Forall_forall. intros z Hz. apply in_rev in Hz.
  rewrite Forall_forall in F. now apply F.
Qed.

Lemma StronglySorted_strict (A : Type) (R R' : A -> A -> Prop) (l : list A) :
  (forall a b, R a b -> a <> b -> R' a b) ->
  NoDup l -> StronglySorted R l -> StronglySorted R' l.
Proof.
  intros HR N S. induction S as [| y l S IH F]; [constructor |].
  inversion N as [| ? ? Hy Hl]; subst. constructor; [now apply IH |].
  apply Forall_forall. intros z Hz. rewrite Forall_forall in F.
  apply HR; [now apply F |]. intros ->. contradiction.
Qed.

Lemma seen_In (x : str) (seen : list str) :
  existsb (JS.str_eqb x) seen = true <-> In x seen.
Proof.
  rewrite existsb_exists. split.
  - intros (y & Hy & E). apply str_eqb_eq in E. now subst.
  - intro H. exists x. split; [exact H | now apply str_eqb_eq].
Qed.

Lemma uniq_from_In (seen l : list str) (x : str) :
  In x (Array.uniq_from seen l) <-> In x l /\ ~ In x seen.
Proof.
  revert seen. induction l as [| y l IH]; intro seen; simpl.
  - tauto.
  - destruct (existsb (JS.str_eqb y) seen) eqn:E.
    + apply seen_In in E. rewrite IH. split.
      * tauto.
      * intros [[-> | H] N]; tauto.
    + assert (N : ~ In y seen)
        by (intro H; apply seen_In in H; congruence).
      simpl. rewrite IH. simpl. split.
      * intros [-> | [H1 H2]]; tauto.
      * intros [[-> | H] N']; [tauto |].
        destruct (list_eq_dec N.eq_dec y x) as [-> | D]; [tauto |].
        right. split; [exact H |]. intros [? | ?]; tauto.
Qed.

Lemma uniq_from_NoDup (seen l : list str) : NoDup (Array.uniq_from seen l).
Proof.
  revert seen. induction l as [| y l IH]; intro seen; simpl; [constructor |].
  destruct (existsb (JS.str_eqb y) seen); [apply IH |].
  constructor; [| apply IH].
  rewrite uniq_from_In. simpl. tauto.
Qed.

(** The periods listed for an array of records: exactly the periods that
    occur, each once, every one above (as a string) those that follow. *)
Lemma periodsOf_In (records : list PayrollRecord.t) (p : str) :
  In p (Store.periodsOf records) <->
  exists r, In r records /\ PayrollRecord.period r = p.
Proof.
  unfold Store.periodsOf, Array.sort_default, Array.uniq.
  rewrite <- in_rev, stable_sort_In, uniq_from_In, in_map_iff. simpl.
  split.
  - intros [(r & E & H) _]. now exists r.
  - intros (r & H & E). split; [now exists r | tauto].
Qed.

Lemma periodsOf_NoDup (records : list PayrollRecord.t) :
  NoDup (Store.periodsOf records).
Proof.
  unfold Store.periodsOf, Array.sort_default, Array.uniq.
  apply NoDup_rev.
  apply Permutation_NoDup
    with (Array.uniq_from [] (map PayrollRecord.period records)).
  - symmetry. apply stable_sort_perm.
  - apply uniq_from_NoDup.
Qed.

Lemma periodsOf_descending (records : list PayrollRecord.t) :
  StronglySorted (fun a b => JS.str_ltb b a = true) (Store.periodsOf records).
Proof.
  pose proof (periodsOf_NoDup records) as N.
  unfold Store.periodsOf in *.
  apply StronglySorted_rev with (R := fun a b => JS.str_ltb a b = true).
  apply StronglySorted_strict with (R := fun a b => JS.str_ltb b a = false).
  - intros a b H D. destruct (JS.str_ltb a b) eqn:E; [reflexivity |].
    exfalso. apply D. now apply str_ltb_total.
  - apply NoDup_rev in N. now rewrite rev_involutive in N.
  - unfold Array.sort_default.
    apply (@stable_sort_ordered str (fun x y => JS.str_ltb y x)).
    + intros x y. apply str_ltb_asym.
    + intros x y z H1 H2. now apply str_not_ltb_trans with y.
Qed.

(** In a list where every string is above those that follow it, the larger
    of two members comes first. *)
Lemma descending_listed_before (l : list str) (p q : str) :
  StronglySorted (fun a b => JS.str_ltb b a = true) l ->
  In p l -> In q l -> JS.str_ltb q p = true ->
  exists l1 l2 l3, l = l1 ++ p :: l2 ++ q :: l3.
Proof.
  intros S. revert p q. induction S as [| x t S IH F]; intros p q Hp Hq L;
    [destruct Hp |].
  rewrite Forall_forall in F.
  destruct Hp as [-> | Hp].
  - destruct Hq as [-> | Hq].
    + rewrite str_ltb_irrefl in L. discriminate.
    + apply in_split in Hq. destruct Hq as (l2 & l3 & ->).
      now exists [], l2, l3.
  - destruct Hq as [-> | Hq].
    + apply F in Hp. apply str_ltb_asym in Hp. congruence.
    + destruct (IH p q Hp Hq L) as (l1 & l2 & l3 & ->).
      now exists (x :: l1), l2, l3.
Qed.

End Periods.

Section StoreActions.

Lemma summary_depends (st st' : Store.AppState) (period : str) :
  Store.employees st = Store.employees st' ->
  Store.periodRecordsOf st period = Store.periodRecordsOf st' period ->
  Store.calculateMonthlySummary st period
  = Store.calculateMonthlySummary st' period.
Proof.
  intros He Hp. unfold Store.calculateMonthlySummary. cbv zeta.
  now rewrite He, Hp.
Qed.

Lemma periodRecordsOf_add (records : list PayrollRecord.t)
  (st : Store.AppState) (period : str) :
  Store.periodRecordsOf (Store.addPayrollRecords records st) period
  = Store.periodRecordsOf st period
    ++ filter (fun r => JS.str_eqb (PayrollRecord.period r) period) records.
Proof. unfold Store.periodRecordsOf. simpl. apply filter_app. Qed.

Lemma filter_none (A : Type) (f : A -> bool) (l : list A) :
  (forall x, In x l -> f x = false) -> filter f l = [].
Proof.
  induction l as [| x l IH]; intro H; simpl; [reflexivity |].
  rewrite (H x (or_introl eq_refl)). apply IH. intros y Hy. apply H.
  now right.
Qed.

End StoreActions.

(** X2: after [addPayrollRecords] the available periods are exactly the
    periods of the stored and of the added records, each listed once, and
    every period of the list is above, as a string of code units, the ones
    that follow it. *)
Theorem addPayrollRecords_availablePeriods
  (records : list PayrollRecord.t) (st : Store.AppState) :
  let st' := Store.addPayrollRecords records st in
  (forall p, In p (Store.availablePeriods st') <->
             exists r, (In r (Store.payrollRecords st) \/ In r records)
                       /\ PayrollRecord.period r = p)
  /\ NoDup (Store.availablePeriods st')
  /\ StronglySorted (fun a b => JS.str_ltb b a = true)
                    (Store.availablePeriods st').
Proof.
  cbv zeta. simpl. repeat split.
  - intro H. apply periodsOf_In in H. destruct H as (r & H & E).
    exists r. apply in_app_or in H. tauto.
  - intros (r & H & E). apply periodsOf_In. exists r.
    split; [apply in_or_app; tauto | exact E].
  - apply periodsOf_NoDup.
  - apply periodsOf_descending.
Qed.

(** X5: the months of a year in the list of available periods.  When the
    stored and the added records hold a period of a two-digit month of a
    year (October, November, December: the digit 1 and one more digit) and
    a period of a month from February to September of the same year (one
    digit from 2 to 9), [addPayrollRecords] lists the one-digit month before
    the two-digit month, that is as the more recent of the two. *)
Theorem two_digit_month_listed_after (y : str) (c d : N)
  (records : list PayrollRecord.t) (st : Store.AppState) :
  (50 <= d)%N ->
  (exists r, (In r (Store.payrollRecords st) \/ In r records)
             /\ PayrollRecord.period r
                = y ++ [Period.nen; 49%N; c; Period.gatsu]) ->
  (exists r, (In r (Store.payrollRecords st) \/ In r records)
             /\ PayrollRecord.period r = y ++ [Period.nen; d; Period.gatsu]) ->
  exists l1 l2 l3,
    Store.availablePeriods (Store.addPayrollRecords records st)
    = l1 ++ (y ++ [Period.nen; d; Period.gatsu])
         :: l2 ++ (y ++ [Period.nen; 49%N; c; Period.gatsu]) :: l3.
Proof.
  intros Hd (r2 & H2 & E2) (r1 & H1 & E1). simpl.
  apply descending_listed_before.
  - apply periodsOf_descending.
  - apply periodsOf_In. exists r1. split; [apply in_or_app; tauto | exact E1].
  - apply periodsOf_In. exists r2. split; [apply in_or_app; tauto | exact E2].
  - now apply two_digit_month_sorts_first.
Qed.

Lemma two_digit_month_listed_after_witness :
  exists l1 l2 l3,
    Store.availablePeriods
      (Store.addPayrollRecords [Sample.october] Sample.twoMargins)
    = l1 ++ Sample.p2025_9 :: l2 ++ Sample.p2025_10 :: l3.
Proof.
  apply (@two_digit_month_listed_after (lit "2025") 48 57 [Sample.october]
           Sample.twoMargins).
  - vm_compute. discriminate.
  - exists Sample.october. split; [right; now left | reflexivity].
  - exists Sample.september. split; [left; now left | reflexivity].
Defined.

(** X6: [addPayrollRecords] appends and never replaces.  The records of a
    period after the call are those before it followed by the added ones of
    that period, so the head count of the period's summary is the sum of the
    two counts (a record added a second time is counted twice); the
    employees and the selected period are left as they were; and the summary
    of a period that no added record carries does not change. *)
Theorem addPayrollRecords_accumulates
  (records : list PayrollRecord.t) (st : Store.AppState) (period : str) :
  let st' := Store.addPayrollRecords records st in
  let added :=
    filter (fun r => JS.str_eqb (PayrollRecord.period r) period) records in
  Store.periodRecordsOf st' period = Store.periodRecordsOf st period ++ added
  /\ (forall s', Store.calculateMonthlySummary st' period = Some s' ->
        MonthlySummary.totalEmployees s'
        = Fin (inject_Z (Z.of_nat
                 (List.length (Store.periodRecordsOf st period)
                  + List.length added))))
  /\ Store.employees st' = Store.employees st
  /\ Store.selectedPeriod st' = Store.selectedPeriod st
  /\ ((forall r, In r records -> PayrollRecord.period r <> period) ->
      Store.calculateMonthlySummary st' period
      = Store.calculateMonthlySummary st period).
Proof.
  cbv zeta. split; [apply periodRecordsOf_add |]. split.
  - intros s' H. apply summary_some in H. destruct H as (_ & H & _).
    rewrite H, periodRecordsOf_add. unfold Array.length_num.
    now rewrite length_app.
  - split; [reflexivity |]. split; [reflexivity |].
    intro H. apply summary_depends; [reflexivity |].
    rewrite periodRecordsOf_add, filter_none, app_nil_r; [reflexivity |].
    intros r Hr. destruct (JS.str_eqb (PayrollRecord.period r) period) eqn:E;
      [| reflexivity].
    apply str_eqb_eq in E. now apply H in Hr.
Qed.

Lemma addPayrollRecords_accumulates_witness :
  Store.calculateMonthlySummary
    (Store.addPayrollRecords [Sample.september] Sample.twoMargins)
    Sample.p2025_10
  = Store.calculateMonthlySummary Sample.twoMargins Sample.p2025_10.
Proof.
  destruct (addPayrollRecords_accumulates [Sample.september]
              Sample.twoMargins Sample.p2025_10) as (_ & _ & _ & _ & H).
  apply H. intros r [<- | []]. vm_compute. discriminate.
Defined.

(** X7: [loadSampleData] replaces the employees and the records by the
    sample data, whatever the store held.  When a sample record carries a
    non-empty period, the selected period is one of the available periods
    and no available period is above it as a string of code units; when
    every sample record carries the empty period (or there is none), the
    selected period is the token of January 2025. *)
Theorem loadSampleData_selectedPeriod
  (sampleEmployees : list Employee.t)
  (samplePayrollRecords : list PayrollRecord.t) (st : Store.AppState) :
  let st' := Store.loadSampleData sampleEmployees samplePayrollRecords st in
  Store.employees st' = sampleEmployees
  /\ Store.payrollRecords st' = samplePayrollRecords
  /\ ((exists r, In r samplePayrollRecords /\ PayrollRecord.period r <> []) ->
      In (Store.selectedPeriod st') (Store.availablePeriods st')
      /\ forall p, In p (Store.availablePeriods st') ->
                   JS.str_ltb (Store.selectedPeriod st') p = false)
  /\ ((forall r, In r samplePayrollRecords -> PayrollRecord.period r = []) ->
      Store.selectedPeriod st' = Period.token "2025" "1").
Proof.
  cbv zeta. split; [reflexivity |]. split; [reflexivity |].
  unfold Store.loadSampleData. cbv zeta. simpl.
  pose proof (periodsOf_descending samplePayrollRecords) as S.
  pose proof (periodsOf_In samplePayrollRecords) as I.
  destruct (Store.periodsOf samplePayrollRecords) as [| h l] eqn:E.
  - split.
    + intros (r & Hr & N). exfalso.
      apply (proj2 (I (PayrollRecord.period r))). now exists r.
    + reflexivity.
  - inversion S as [| ? ? S' F]; subst. rewrite Forall_forall in F. split.
    + intros (r & Hr & N).
      assert (Hh : h <> []).
      { intros ->.
        assert (Hin : In (PayrollRecord.period r) ([] :: l))
          by (apply I; now exists r).
        destruct Hin as [Hin | Hin]; [congruence |].
        apply F in Hin. destruct (PayrollRecord.period r); discriminate. }
      destruct h as [| c t]; [congruence |]. split; [now left |].
      intros p [<- | Hp]; [apply str_ltb_irrefl |].
      apply str_ltb_asym. now apply F.
    + intro H. destruct (proj1 (I h) (or_introl eq_refl)) as (r & Hr & Er).
      rewrite (H r Hr) in Er. now subst h.
Qed.

Lemma loadSampleData_selectedPeriod_witness :
  In (Store.selectedPeriod
        (Store.loadSampleData [] [Sample.september; Sample.october]
           Sample.emptyState))
     (Store.availablePeriods
        (Store.loadSampleData [] [Sample.september; Sample.october]
           Sample.emptyState)).
Proof.
  destruct (loadSampleData_selectedPeriod [] [Sample.september; Sample.october]
              Sample.emptyState) as (_ & _ & H & _).
  apply H. exists Sample.september.
  split; [now left | vm_compute; discriminate].
Defined.

(* ================================================================== *)
(** * Updating and deleting employees *)
(* ================================================================== *)

Section RosterFacts.
Variable E : Type.
Variable id : E -> str.

Lemma updateEmployee_ids (employee : E) (employees : list E) :
  map id (Roster.updateEmployee id employee employees) = map id employees.
Proof.
  unfold Roster.updateEmployee. rewrite map_map. apply map_ext_in.
  intros e _. destruct (JS.str_eqb (id e) (id employee)) eqn:T;
    [| reflexivity].
  apply str_eqb_eq in T. now symmetry.
Qed.

Lemma updateEmployee_absent (employee : E) (employees : list E) :
  ~ In (id employee) (map id employees) ->
  Roster.updateEmployee id employee employees = employees.
Proof.
  intro N. unfold Roster.updateEmployee.
  rewrite <- (map_id employees) at 2. apply map_ext_in. intros e He.
  destruct (JS.str_eqb (id e) (id employee)) eqn:T; [| reflexivity].
  apply str_eqb_eq in T. exfalso. apply N. rewrite <- T. now apply in_map.
Qed.

Lemma deleteEmployee_In (i : str) (employees : list E) (e : E) :
  In e (Roster.deleteEmployee id i employees) <-> In e employees /\ id e <> i.
Proof.
  unfold Roster.deleteEmployee. rewrite filter_In, negb_true_iff.
  split; intros [H T]; split; try exact H.
  - intro X. apply str_eqb_eq in X. congruence.
  - destruct (JS.str_eqb (id e) i) eqn:X; [| reflexivity].
    apply str_eqb_eq in X. contradiction.
Qed.

Lemma filter_all (A : Type) (f : A -> bool) (l : list A) :
  (forall x, In x l -> f x = true) -> filter f l = l.
Proof.
  induction l as [| x l IH]; intro H; simpl; [reflexivity |].
  rewrite (H x (or_introl eq_refl)). f_equal. apply IH. intros y Hy.
  apply H. now right.
Qed.

End RosterFacts.

(** X8: [updateEmployee] replaces in place and never adds.  The identifiers
    of the list, their order and their number stay the same; every entry
    that carries the identifier of the given employee becomes that employee,
    and the other entries stay; when no entry carries the identifier the
    list is unchanged; and of two updates for one identifier the second one
    wins. *)
Theorem updateEmployee_in_place (E : Type) (id : E -> str)
  (employee : E) (employees : list E) :
  let updated := Roster.updateEmployee id employee employees in
  map id updated = map id employees
  /\ (forall e, In e updated -> id e = id employee -> e = employee)
  /\ (forall e, In e employees -> id e <> id employee -> In e updated)
  /\ (~ In (id employee) (map id employees) -> updated = employees)
  /\ (forall employee', id employee' = id employee ->
        Roster.updateEmployee id employee' updated
        = Roster.updateEmployee id employee' employees).
Proof.
  cbv zeta. split; [apply updateEmployee_ids |]. split; [| split; [| split]].
  - intros e He Hid. unfold Roster.updateEmployee in He.
    apply in_map_iff in He. destruct He as (x & Hx & _).
    destruct (JS.str_eqb (id x) (id employee)) eqn:T; [now symmetry |].
    subst x. assert (JS.str_eqb (id e) (id employee) = true)
      by now apply str_eqb_eq.
    congruence.
  - intros e He Hid. unfold Roster.updateEmployee. apply in_map_iff.
    exists e. split; [| exact He].
    destruct (JS.str_eqb (id e) (id employee)) eqn:T; [| reflexivity].
    apply str_eqb_eq in T. contradiction.
  - apply updateEmployee_absent.
  - intros employee' Hid. unfold Roster.updateEmployee. rewrite map_map.
    apply map_ext. intro e. rewrite Hid.
    destruct (JS.str_eqb (id e) (id employee)) eqn:T; [| now rewrite T].
    assert (T' : JS.str_eqb (id employee) (id employee) = true)
      by now apply str_eqb_eq.
    now rewrite T'.
Qed.

Lemma updateEmployee_in_place_witness :
  Roster.updateEmployee Employee.employeeId Sample.trainee [Sample.employee]
  = [Sample.employee].
Proof.
  destruct (updateEmployee_in_place Employee.employeeId Sample.trainee
              [Sample.employee]) as (_ & _ & _ & H & _).
  apply H. vm_compute. intros [X | []]. discriminate.
Defined.

(** X9: [deleteEmployee] keeps exactly the entries that do not carry the
    identifier, in their order: every entry with the identifier goes, a
    second deletion changes nothing, an identifier that no entry carries
    leaves the list as it is, an update made before the deletion is lost
    with the entry, and an update for the deleted identifier made after it
    does not bring the entry back. *)
Theorem deleteEmployee_removes (E : Type) (id : E -> str)
  (i : str) (employees : list E) :
  let rest := Roster.deleteEmployee id i employees in
  (forall e, In e rest <-> In e employees /\ id e <> i)
  /\ Roster.deleteEmployee id i rest = rest
  /\ (~ In i (map id employees) -> rest = employees)
  /\ (forall employee, id employee = i ->
        Roster.deleteEmployee id i
          (Roster.updateEmployee id employee employees) = rest
        /\ Roster.updateEmployee id employee rest = rest).
Proof.
  cbv zeta. split; [intro e; apply deleteEmployee_In |].
  split; [| split].
  - apply filter_all. intros e He. apply deleteEmployee_In in He.
    destruct He as [_ N]. apply negb_true_iff.
    destruct (JS.str_eqb (id e) i) eqn:T; [| reflexivity].
    apply str_eqb_eq in T. contradiction.
  - intro N. apply filter_all. intros e He. apply negb_true_iff.
    destruct (JS.str_eqb (id e) i) eqn:T; [| reflexivity].
    apply str_eqb_eq in T. exfalso. apply N. rewrite <- T. now apply in_map.
  - intros employee Hid. split.
    + unfold Roster.deleteEmployee, Roster.updateEmployee. rewrite Hid.
      induction employees as [| e l IH]; simpl; [reflexivity |].
      destruct (JS.str_eqb (id e) i) eqn:T; simpl.
      * rewrite Hid.
        assert (T' : JS.str_eqb i i = true) by now apply str_eqb_eq.
        rewrite T'. simpl. exact IH.
      * rewrite T. simpl. now rewrite IH.
    + apply updateEmployee_absent. rewrite Hid. intro H.
      apply in_map_iff in H. destruct H as (e & He & Hin).
      apply deleteEmployee_In in Hin. tauto.
Qed.

Lemma deleteEmployee_removes_witness :
  Roster.deleteEmployee Employee.employeeId (lit "E009")
    [Sample.employee; Sample.trainee]
  = [Sample.employee; Sample.trainee].
Proof.
  destruct (deleteEmployee_removes Employee.employeeId (lit "E009")
              [Sample.employee; Sample.trainee]) as (_ & _ & H & _).
  apply H. vm_compute. intros [X | [X | []]]; discriminate.
Defined.

(* ================================================================== *)
(** * The year, the month and the rankings of a summary *)
(* ================================================================== *)

Section SummaryFields.

Lemma digit_not_gatsu (c : N) :
  Period.is_digit c = true -> (c =? Period.gatsu)%N = false.
Proof.
  unfold Period.is_digit, Period.gatsu. intro H.
  apply andb_true_iff in H. destruct H as [_ H]. apply N.leb_le in H.
  apply N.eqb_neq. lia.
Qed.

Lemma year_here_nen (s m : str) :
  Period.year_here s = Some m -> In Period.nen s.
Proof.
  unfold Period.year_here.
  destruct s as [| a [| b [| c [| d [| e s]]]]]; try discriminate.
  destruct (Period.is_digit a && Period.is_digit b && Period.is_digit c
            && Period.is_digit d) ; simpl; [| discriminate].
  destruct (N.eqb_spec e Period.nen) as [-> | _]; [| discriminate].
  intros _. simpl. tauto.
Qed.

Lemma month_here_gatsu (s m : str) :
  Period.month_here s = Some m -> In Period.gatsu s.
Proof.
  unfold Period.month_here.
  destruct s as [| a [| b rest]]; try discriminate.
  destruct (Period.is_digit a); simpl; [| discriminate].
  destruct (Period.is_digit b); simpl.
  - destruct rest as [| c rest]; simpl.
    + destruct (N.eqb_spec b Period.gatsu) as [-> | _]; [| discriminate].
      intros _. tauto.
    + destruct (N.eqb_spec c Period.gatsu) as [-> | _]; [intros _; tauto |].
      destruct (N.eqb_spec b Period.gatsu) as [-> | _]; [| discriminate].
      intros _. tauto.
  - destruct (N.eqb_spec b Period.gatsu) as [-> | _]; [| discriminate].
    intros _. tauto.
Qed.

Lemma search_none (here : str -> option str) (c : N) (s : str) :
  (forall s' m, here s' = Some m -> In c s') ->
  ~ In c s -> Period.search here s = None.
Proof.
  intros Hhere. induction s as [| x s IH]; intro N; simpl.
  - destruct (here []) eqn:E; [| reflexivity].
    apply Hhere in E. destruct E.
  - destruct (here (x :: s)) eqn:E.
    + apply Hhere in E. contradiction.
    + apply IH. intro H. apply N. now right.
Qed.

Lemma summary_year_month_of (st : Store.AppState) (period : str)
  (s : MonthlySummary.t) :
  Store.calculateMonthlySummary st period = Some s ->
  MonthlySummary.year s
  = Period.parseInt
      (Period.capture_or (Period.search Period.year_here period) (lit "2025"))
  /\ MonthlySummary.month s
  = Period.parseInt
      (Period.capture_or (Period.search Period.month_here period) (lit "1")).
Proof.
  unfold Store.calculateMonthlySummary.
  destruct (Store.periodRecordsOf st period) as [| r l]; simpl;
    [discriminate |].
  intro H. injection H as <-. split; reflexivity.
Qed.

End SummaryFields.

(** X10: the year and the month of a summary are read from the period.  For
    a period made of four digits, the year kanji, one or two digits and the
    month kanji, the year is the number that the four digits write and the
    month the number that the one or two digits write, whatever they are
    (a month of 0 or of 13 is returned as it is). *)
Theorem summary_year_month_parsed (st : Store.AppState)
  (a b c d : N) (m : str) (s : MonthlySummary.t) :
  forallb Period.is_digit [a; b; c; d] = true ->
  forallb Period.is_digit m = true ->
  (1 <= List.length m <= 2)%nat ->
  Store.calculateMonthlySummary st
    ([a; b; c; d; Period.nen] ++ m ++ [Period.gatsu]) = Some s ->
  MonthlySummary.year s
  = Fin (inject_Z (1000 * (Z.of_N a - 48) + 100 * (Z.of_N b - 48)
                   + 10 * (Z.of_N c - 48) + (Z.of_N d - 48)))
  /\ MonthlySummary.month s
  = Fin (inject_Z (fold_left (fun acc x => acc * 10 + (Z.of_N x - 48)) m 0))%Z.
Proof.
  intros Hy Hm Hl H. apply summary_year_month_of in H. destruct H as [-> ->].
  simpl in Hy. repeat (apply andb_true_iff in Hy; destruct Hy as [?Ha Hy]).
  pose proof (digit_not_gatsu _ Ha) as Ga.
  pose proof (digit_not_gatsu _ Ha0) as Gb.
  pose proof (digit_not_gatsu _ Ha1) as Gc.
  pose proof (digit_not_gatsu _ Ha2) as Gd.
  split.
  - assert (E : Period.search Period.year_here
                  ([a; b; c; d; Period.nen] ++ m ++ [Period.gatsu])
                = Some [a; b; c; d])
      by (simpl; now rewrite Ha, Ha0, Ha1, Ha2).
    rewrite E. unfold Period.capture_or, Period.parseInt. rewrite Ha.
    cbn [Period.digits_value]. rewrite Ha, Ha0, Ha1, Ha2.
    do 2 f_equal. lia.
  - destruct m as [| x [| y [| z m]]]; simpl in Hl; try lia.
    + simpl in Hm. rewrite andb_true_r in Hm.
      assert (E : Period.search Period.month_here
                    ([a; b; c; d; Period.nen] ++ [x] ++ [Period.gatsu])
                  = Some [x])
        by (repeat (progress (cbn;
              rewrite ?Ha, ?Ha0, ?Ha1, ?Ha2, ?Hm, ?Gb, ?Gc, ?Gd));
            reflexivity).
      rewrite E. unfold Period.capture_or, Period.parseInt. rewrite Hm.
      cbn [Period.digits_value fold_left]. now rewrite Hm.
    + simpl in Hm. rewrite andb_true_r in Hm.
      apply andb_true_iff in Hm. destruct Hm as [Hx Hy'].
      assert (E : Period.search Period.month_here
                    ([a; b; c; d; Period.nen] ++ [x; y] ++ [Period.gatsu])
                  = Some [x; y])
        by (repeat (progress (cbn;
              rewrite ?Ha, ?Ha0, ?Ha1, ?Ha2, ?Hx, ?Hy', ?Gb, ?Gc, ?Gd));
            reflexivity).
      rewrite E. unfold Period.capture_or, Period.parseInt. rewrite Hx.
      cbn [Period.digits_value fold_left]. now rewrite Hx, Hy'.
Qed.

Lemma summary_year_month_parsed_witness :
  exists s,
    Store.calculateMonthlySummary Sample.twoMargins Sample.p2025_10 = Some s
    /\ MonthlySummary.year s = Fin (inject_Z 2025)
    /\ MonthlySummary.month s = Fin (inject_Z 10).
Proof.
  eexists. split; [reflexivity |].
  apply (@summary_year_month_parsed Sample.twoMargins 50 48 50 53
           [49; 48]%N _ eq_refl eq_refl (conj (le_S _ _ (le_n 1)) (le_n 2))
           eq_refl).
Defined.

(** X11: a period without the year kanji is summarised under the year 2025
    and a period without the month kanji under the month 1, whatever else
    the period holds. *)
Theorem summary_year_month_fallback (st : Store.AppState) (period : str)
  (s : MonthlySummary.t) :
  Store.calculateMonthlySummary st period = Some s ->
  (~ In Period.nen period -> MonthlySummary.year s = Fin (inject_Z 2025))
  /\ (~ In Period.gatsu period -> MonthlySummary.month s = Fin (inject_Z 1)).
Proof.
  intro H. apply summary_year_month_of in H. destruct H as [-> ->]. split.
  - intro N. now rewrite (@search_none Period.year_here Period.nen period
                          year_here_nen N).
  - intro N. now rewrite (@search_none Period.month_here Period.gatsu period
                          month_here_gatsu N).
Qed.

Lemma summary_year_month_fallback_witness :
  exists s,
    Store.calculateMonthlySummary Sample.dashedState Sample.dashed = Some s
    /\ MonthlySummary.year s = Fin (inject_Z 2025)
    /\ MonthlySummary.month s = Fin (inject_Z 1).
Proof.
  eexists. split; [reflexivity |].
  destruct (@summary_year_month_fallback Sample.dashedState Sample.dashed _
              eq_refl) as [Hy Hm].
  split; [apply Hy | apply Hm]; vm_compute;
    intros H; repeat (destruct H as [H | H]; [discriminate |]); exact H.
Defined.

Section Rankings.

Lemma summary_rankings (st : Store.AppState) (period : str)
  (s : MonthlySummary.t) :
  Store.calculateMonthlySummary st period = Some s ->
  let periodRecords := Store.periodRecordsOf st period in
  let sortedDesc :=
    Array.sort_with
      (fun a b => JS.sub (b.[grossProfit]) (a.[grossProfit])) periodRecords in
  let sortedAsc :=
    Array.sort_with
      (fun a b => JS.sub (a.[grossProfit]) (b.[grossProfit])) sortedDesc in
  MonthlySummary.topProfitEmployees s
  = map (Store.profitEntry (Store.employees st)) (firstn 5 sortedDesc)
  /\ MonthlySummary.bottomProfitEmployees s
  = map (Store.profitEntry (Store.employees st)) (firstn 5 sortedAsc)
  /\ MonthlySummary.totalPaidLeaveCost s
  = Array.sum_of
      (fun r => JS.mul (r.[paidLeaveHours])
                  (Store.hourlyRateOf
                     (Store.findEmployee (Store.employees st) r)))
      periodRecords.
Proof.
  unfold Store.calculateMonthlySummary.
  destruct (Store.periodRecordsOf st period) as [| r l]; simpl;
    [discriminate |].
  intro H. injection H as <-. repeat split.
Qed.

Lemma findEmployee_none (employees : list Employee.t) (r : PayrollRecord.t) :
  (forall e, In e employees ->
             Employee.employeeId e <> PayrollRecord.employeeId r) ->
  Store.findEmployee employees r = None.
Proof.
  unfold Store.findEmployee. induction employees as [| e l IH]; intro H;
    simpl; [reflexivity |].
  destruct (JS.str_eqb (Employee.employeeId e) (PayrollRecord.employeeId r))
    eqn:T.
  - apply str_eqb_eq in T. exfalso. now apply (H e (or_introl eq_refl)).
  - apply IH. intros x Hx. apply H. now right.
Qed.

Lemma Qsum_zero (l : list Q) :
  (forall q, In q l -> (q == 0)%Q) -> (Reading.Qsum l == 0)%Q.
Proof.
  induction l as [| q l IH]; intro H; simpl; [reflexivity |].
  rewrite (H q (or_introl eq_refl)), IH; [ring |].
  intros x Hx. apply H. now right.
Qed.

End Rankings.

(** X12: the two rankings of a summary have the same number of entries, five
    or the number of records of the period when that is smaller.  With five
    records or fewer, each ranking holds one entry for every record of the
    period, so the bottom ranking is the top ranking in another order. *)
Theorem rankings_of_a_small_period (st : Store.AppState) (period : str)
  (s : MonthlySummary.t) :
  Store.calculateMonthlySummary st period = Some s ->
  let periodRecords := Store.periodRecordsOf st period in
  List.length (MonthlySummary.topProfitEmployees s)
  = Nat.min 5 (List.length periodRecords)
  /\ List.length (MonthlySummary.bottomProfitEmployees s)
     = Nat.min 5 (List.length periodRecords)
  /\ ((List.length periodRecords <= 5)%nat ->
      Permutation (MonthlySummary.topProfitEmployees s)
        (map (Store.profitEntry (Store.employees st)) periodRecords)
      /\ Permutation (MonthlySummary.bottomProfitEmployees s)
           (MonthlySummary.topProfitEmployees s)).
Proof.
  intro H. apply summary_rankings in H. cbv zeta in *.
  destruct H as (-> & -> & _). unfold Array.sort_with.
  rewrite !length_map, !length_firstn, !stable_sort_length.
  split; [reflexivity |]. split; [reflexivity |].
  intro L. rewrite !firstn_all2 by (now rewrite ?stable_sort_length).
  split.
  - apply Permutation_map, stable_sort_perm.
  - apply Permutation_map, stable_sort_perm.
Qed.

Lemma rankings_of_a_small_period_witness :
  exists s,
    Store.calculateMonthlySummary Sample.twoMargins Sample.p2025_9 = Some s
    /\ Permutation (MonthlySummary.bottomProfitEmployees s)
         (MonthlySummary.topProfitEmployees s).
Proof.
  eexists. split; [reflexivity |].
  destruct (@rankings_of_a_small_period Sample.twoMargins Sample.p2025_9 _
              eq_refl) as (_ & _ & H).
  apply H. vm_compute. repeat constructor.
Defined.

(** X13: the records of a period whose employee is not in the store (it was
    deleted, or never loaded) stay in the summary: when no employee of the
    store carries the employeeId of a record of the period, every entry of
    the two rankings has the empty name and, the paid-leave hours being
    finite numbers, the paid-leave cost of the period is 0. *)
Theorem summary_without_employees (st : Store.AppState) (period : str)
  (s : MonthlySummary.t) :
  Store.calculateMonthlySummary st period = Some s ->
  (forall r e, In r (Store.periodRecordsOf st period) ->
               In e (Store.employees st) ->
               Employee.employeeId e <> PayrollRecord.employeeId r) ->
  (forall e, In e (MonthlySummary.topProfitEmployees s
                   ++ MonthlySummary.bottomProfitEmployees s) ->
             ProfitEntry.name e = [])
  /\ ((forall r, In r (Store.periodRecordsOf st period) ->
                 JS.finite (r.[paidLeaveHours]) = true) ->
      JS.equiv (MonthlySummary.totalPaidLeaveCost s) (Fin 0)).
Proof.
  intros H U. apply summary_rankings in H. cbv zeta in H.
  destruct H as (-> & -> & ->). unfold Array.sort_with. split.
  - intros e He. apply in_app_or in He.
    assert (G : forall l, (forall r, In r l ->
                             In r (Store.periodRecordsOf st period)) ->
                In e (map (Store.profitEntry (Store.employees st)) l) ->
                ProfitEntry.name e = []).
    { intros l Hl Hin. apply in_map_iff in Hin.
      destruct Hin as (r & <- & Hr). unfold Store.profitEntry. simpl.
      rewrite findEmployee_none; [reflexivity |].
      intros x Hx. apply U; [now apply Hl | exact Hx]. }
    destruct He as [He | He]; revert He; apply G; intros r Hr;
      apply In_firstn in Hr; repeat (apply stable_sort_In in Hr); exact Hr.
  - intro F.
    destruct (@sum_of_Fin PayrollRecord.t
                (fun r => JS.mul (r.[paidLeaveHours])
                            (Store.hourlyRateOf
                               (Store.findEmployee (Store.employees st) r)))
                (Store.periodRecordsOf st period)
                (map (fun r => Reading.rational (r.[paidLeaveHours]) * 0)%Q
                     (Store.periodRecordsOf st period)))
      as (q & -> & E).
    + rewrite map_map. apply map_ext_in. intros r Hr.
      rewrite findEmployee_none by (intros x Hx; now apply U).
      specialize (F r Hr). destruct (r.[paidLeaveHours]); try discriminate.
      reflexivity.
    + apply equiv_Fin. rewrite E. apply Qsum_zero. intros x Hx.
      apply in_map_iff in Hx. destruct Hx as (r & <- & _). ring.
Qed.

Lemma summary_without_employees_witness :
  exists s,
    Store.calculateMonthlySummary Fixture.orphaned Sample.p2025_10 = Some s
    /\ map ProfitEntry.name (MonthlySummary.topProfitEmployees s) = [[]]
    /\ JS.equiv (MonthlySummary.totalPaidLeaveCost s) (Fin 0).
Proof.
  eexists. split; [reflexivity |]. split; [reflexivity |].
  destruct (@summary_without_employees Fixture.orphaned Sample.p2025_10 _
              eq_refl) as (_ & H).
  - intros r e [<- | []] [<- | []]. vm_compute. discriminate.
  - apply H. intros r [<- | []]. reflexivity.
Defined.

(* ================================================================== *)
(** * The slip: hours, bars and ratings *)
(* ================================================================== *)

Section SlipViewFacts.
Import Reading.

(** [Math.floor] and the integers below a number. *)
Lemma floor_spec (y : Q) (k : Z) : (k <= Qfloor y)%Z <-> (inject_Z k <= y)%Q.
Proof.
  split; intro H.
  - apply Qle_trans with (inject_Z (Qfloor y)); [| apply Qfloor_le].
    now rewrite <- Zle_Qle.
  - destruct (Z_le_gt_dec k (Qfloor y)) as [L | G]; [exact L | exfalso].
    assert (L : (Qfloor y + 1 <= k)%Z) by lia.
    rewrite Zle_Qle in L. pose proof (Qlt_floor y) as F. lra.
Qed.

Lemma bar_width (a T : Q) :
  (0 <= a)%Q -> (a <= T)%Q ->
  exists ws : list Q,
    (if JS.gt (Fin a) (Fin 0)
     then [JS.mul (JS.div (Fin a) (Fin T)) (Fin 100)] else [])
    = map Fin ws
    /\ (Qsum ws * T == a * 100)%Q
    /\ (forall v, In v ws -> (0 < v)%Q /\ (v <= 100)%Q)
    /\ (ws = [] <-> (a == 0)%Q).
Proof.
  intros Ha HT. destruct (JS.gt (Fin a) (Fin 0)) eqn:G.
  - apply gt_Fin in G. assert (P : (0 < T)%Q) by lra.
    rewrite (div_Fin_pos a P). exists [(a / T * 100)%Q]. split; [reflexivity |].
    split; [simpl; field; lra |]. split.
    + intros v [<- | []].
      assert (L : (0 < a / T)%Q) by (apply Qlt_shift_div_l; lra).
      assert (U : (a / T <= 1)%Q) by (apply Qle_shift_div_r; lra).
      split; lra.
    + split; [discriminate | intro; lra].
  - apply gt_Fin_false in G. exists []. split; [reflexivity |].
    split; [simpl; lra |]. split; [intros v [] |].
    split; [intro; lra | reflexivity].
Qed.

End SlipViewFacts.

(** X14: the hours printed on the slip.  For a finite number of hours other
    than 0, [formatHours] prints the integer part [h] (rounded down) and the
    minutes [m], the nearest integer to sixty times the rest.  The minutes
    lie between 0 and 60, both included: a rest of 119/120 of an hour or
    more is printed as 60 minutes under the same hour and is not carried
    (7.995 hours print as 7:60). *)
Theorem formatHours_minutes (q : Q) :
  ~ (q == 0)%Q ->
  exists h m : Z,
    SlipView.formatHours (Fin q)
    = SlipView.Clock (Fin (inject_Z h)) (Fin (inject_Z m))
    /\ (inject_Z h <= q)%Q /\ (q < inject_Z h + 1)%Q
    /\ (0 <= m <= 60)%Z
    /\ (inject_Z m - (1 # 2) <= (q - inject_Z h) * 60)%Q
    /\ ((q - inject_Z h) * 60 < inject_Z m + (1 # 2))%Q
    /\ (m = 60%Z <-> ((119 # 120) <= q - inject_Z h)%Q).
Proof.
  intro N.
  exists (Qfloor q), (Qfloor ((q + - inject_Z (Qfloor q)) * 60 + (1 # 2))).
  pose proof (Qfloor_le q) as L. pose proof (Qlt_floor q) as U.
  rewrite inject_Z_plus in U. change (inject_Z 1) with 1%Q in U.
  set (h := inject_Z (Qfloor q)) in *.
  set (y := ((q + - h) * 60 + (1 # 2))%Q).
  pose proof (Qfloor_le y) as Ly. pose proof (Qlt_floor y) as Uy.
  rewrite inject_Z_plus in Uy. change (inject_Z 1) with 1%Q in Uy.
  assert (M0 : (0 <= Qfloor y)%Z)
    by (apply floor_spec; change (inject_Z 0) with 0%Q; unfold y; lra).
  assert (M60 : (Qfloor y <= 60)%Z).
  { destruct (Z_le_gt_dec (Qfloor y) 60) as [? | G]; [assumption | exfalso].
    assert (G' : (61 <= Qfloor y)%Z) by lia.
    apply floor_spec in G'. change (inject_Z 61) with 61%Q in G'.
    unfold y in G'. lra. }
  split.
  - unfold SlipView.formatHours.
    assert (T : JS.truthy (Fin q) = true) by now apply truthy_Fin.
    rewrite T. reflexivity.
  - repeat split; try assumption; try (unfold y in *; lra).
    + intro E. assert (G : (60 <= Qfloor y)%Z) by lia.
      apply floor_spec in G. change (inject_Z 60) with 60%Q in G.
      unfold y in G. lra.
    + intro H. assert (G : (60 <= Qfloor y)%Z)
        by (apply floor_spec; change (inject_Z 60) with 60%Q; unfold y; lra).
      lia.
Qed.

Lemma formatHours_minutes_witness :
  exists h m : Z,
    SlipView.formatHours (Fin 7.995)
    = SlipView.Clock (Fin (inject_Z h)) (Fin (inject_Z m))
    /\ (inject_Z h <= 7.995)%Q /\ (7.995 < inject_Z h + 1)%Q
    /\ (0 <= m <= 60)%Z
    /\ (inject_Z m - (1 # 2) <= (7.995 - inject_Z h) * 60)%Q
    /\ ((7.995 - inject_Z h) * 60 < inject_Z m + (1 # 2))%Q
    /\ (m = 60%Z <-> ((119 # 120) <= 7.995 - inject_Z h)%Q).
Proof.
  apply (@formatHours_minutes 7.995). intro H. vm_compute in H. discriminate.
Defined.

(** A duration of 7.995 hours is printed with 60 minutes; no hours and a
    missing value are printed as the literal. *)
Example formatHours_example :
  SlipView.formatHours (Fin 7.995) = SlipView.Clock (Fin 7) (Fin 60)
  /\ SlipView.formatHours (Fin 0) = SlipView.ZeroText
  /\ SlipView.formatHours undefined = SlipView.ZeroText.
Proof. repeat split; reflexivity. Qed.

(** X15: the bars of the hour composition.  For a record whose workHours,
    overtimeHours, overtimeOver60h and holidayHours are missing or
    non-negative numbers, every bar that is rendered has a width above 0 and
    at most 100 percent, the widths of the rendered bars add up to 100 (in
    exact arithmetic), and no bar is rendered exactly when the four values
    are zero or missing, so that no width is computed from a total of 0.
    The night hours play no part in the bars. *)
Theorem hourBars_fill (record : PayrollRecord.t) (w o x h : option Q) :
  record.[workHours] = Reading.stored w ->
  record.[overtimeHours] = Reading.stored o ->
  record.[overtimeOver60h] = Reading.stored x ->
  record.[holidayHours] = Reading.stored h ->
  (0 <= Reading.or_zero w)%Q -> (0 <= Reading.or_zero o)%Q ->
  (0 <= Reading.or_zero x)%Q -> (0 <= Reading.or_zero h)%Q ->
  (exists ws : list Q,
     SlipView.hourBars record = map Fin ws
     /\ (forall v, In v ws -> (0 < v)%Q /\ (v <= 100)%Q)
     /\ (ws <> [] -> (Reading.Qsum ws == 100)%Q)
     /\ (ws = [] <->
         (Reading.or_zero w + Reading.or_zero o + Reading.or_zero x
          + Reading.or_zero h == 0)%Q))
  /\ forall v, SlipView.hourBars (PayrollRecord.set record nightHours v)
               = SlipView.hourBars record.
Proof.
  intros Hw Ho Hx Hh Pw Po Px Ph. split; [| reflexivity].
  unfold SlipView.hourBars, Slip.totalWorkHours. rewrite Hw, Ho, Hx, Hh.
  destruct (or_stored w) as (qw & -> & Ew).
  destruct (or_stored o) as (qo & -> & Eo).
  destruct (or_stored x) as (qx & -> & Ex).
  destruct (or_stored h) as (qh & -> & Eh).
  rewrite <- Ew, <- Eo, <- Ex, <- Eh in *.
  change (JS.add (JS.add (JS.add (Fin qw) (Fin qo)) (Fin qx)) (Fin qh))
    with (Fin (qw + qo + qx + qh)).
  set (T := (qw + qo + qx + qh)%Q).
  destruct (@bar_width qw T) as (l1 & -> & S1 & B1 & Z1);
    [lra | unfold T; lra |].
  destruct (@bar_width qo T) as (l2 & -> & S2 & B2 & Z2);
    [lra | unfold T; lra |].
  destruct (@bar_width qx T) as (l3 & -> & S3 & B3 & Z3);
    [lra | unfold T; lra |].
  destruct (@bar_width qh T) as (l4 & -> & S4 & B4 & Z4);
    [lra | unfold T; lra |].
  exists (l1 ++ l2 ++ l3 ++ l4).
  assert (S : (Reading.Qsum (l1 ++ l2 ++ l3 ++ l4) * T == T * 100)%Q).
  { rewrite !Qsum_app. unfold T in *. lra. }
  assert (Z : l1 ++ l2 ++ l3 ++ l4 = [] <-> (T == 0)%Q).
  { split.
    - intro E. apply app_eq_nil in E. destruct E as [E1 E].
      apply app_eq_nil in E. destruct E as [E2 E].
      apply app_eq_nil in E. destruct E as [E3 E4].
      apply Z1 in E1. apply Z2 in E2. apply Z3 in E3. apply Z4 in E4.
      unfold T. lra.
    - intro E. unfold T in E.
      assert (E1 : (qw == 0)%Q) by lra. assert (E2 : (qo == 0)%Q) by lra.
      assert (E3 : (qx == 0)%Q) by lra. assert (E4 : (qh == 0)%Q) by lra.
      apply Z1 in E1. apply Z2 in E2. apply Z3 in E3. apply Z4 in E4.
      now rewrite E1, E2, E3, E4. }
  split; [now rewrite !map_app |]. split; [| split].
  - intros v Hv. repeat (apply in_app_or in Hv; destruct Hv as [Hv | Hv]);
      auto.
  - intro NE. assert (NZ : ~ (T == 0)%Q) by (intro E; apply NE, Z, E).
    apply (Qmult_inj_r _ _ T NZ). rewrite S. ring.
  - rewrite Z. unfold T. rewrite Ew, Eo, Ex, Eh. reflexivity.
Qed.

Lemma hourBars_fill_witness :
  exists ws : list Q,
    SlipView.hourBars Sample.record = map Fin ws
    /\ (ws <> [] -> (Reading.Qsum ws == 100)%Q).
Proof.
  destruct (@hourBars_fill Sample.record (Some 160) (Some 10) None None
              eq_refl eq_refl eq_refl eq_refl)
    as ((ws & E & _ & S & _) & _); try (vm_compute; discriminate).
  exists ws. split; assumption.
Defined.

(** X16: the margin bar of the slip.  With [t] the target in force (the
    configured target, or 15 when that is unset or 0), taken positive, and
    [m] the margin rate of the record, the bar is [m / (2 t)] of the width,
    cut at 100 percent: it is full exactly when the margin is twice the
    target or more, it ends at the target line drawn at 50 percent or beyond
    it exactly when the note says that the target is reached, and for a
    negative margin (a loss) the width is negative. *)
Theorem progressWidth_target (settings : Settings.t)
  (record : PayrollRecord.t) (m t : Q) :
  Slip.marginRate record = Fin m ->
  JS.or (Settings.target_margin settings) (Fin 15) = Fin t ->
  (0 < t)%Q ->
  exists width : Q,
    SlipView.progressWidth settings record = Fin width
    /\ (width <= 100)%Q
    /\ (width * (2 * t) <= m * 100)%Q
    /\ ((m <= 2 * t)%Q -> (width * (2 * t) == m * 100)%Q)
    /\ ((width == 100)%Q <-> (2 * t <= m)%Q)
    /\ (SlipView.targetReached settings record = true <-> (50 <= width)%Q)
    /\ ((width < 0)%Q <-> (m < 0)%Q).
Proof.
  intros Hm Ht P. unfold SlipView.progressWidth, SlipView.targetReached.
  rewrite Hm, Ht. change (JS.mul (Fin t) (Fin 2)) with (Fin (t * 2)).
  assert (P2 : (0 < t * 2)%Q) by lra.
  rewrite (div_Fin_pos m P2).
  change (JS.mul (Fin (m / (t * 2))) (Fin 100))
    with (Fin (m / (t * 2) * 100)).
  set (r := (m / (t * 2))%Q).
  assert (R : (r * (t * 2) == m)%Q) by (unfold r; field; lra).
  assert (G : (JS.ge (Fin m) (Fin t) = true <-> (t <= m)%Q))
    by apply ge_Fin.
  assert (A : (2 * t <= m)%Q <-> (1 <= r)%Q).
  { split; intro H.
    - unfold r. apply Qle_shift_div_l; lra.
    - assert (X : (1 * (t * 2) <= r * (t * 2))%Q)
        by (apply Qmult_le_compat_r; lra).
      lra. }
  assert (B : (t <= m)%Q <-> ((1 # 2) <= r)%Q).
  { split; intro H.
    - unfold r. apply Qle_shift_div_l; lra.
    - assert (X : ((1 # 2) * (t * 2) <= r * (t * 2))%Q)
        by (apply Qmult_le_compat_r; lra).
      lra. }
  assert (C : (m < 0)%Q <-> (r < 0)%Q).
  { split; intro H.
    - unfold r. apply Qlt_shift_div_r; lra.
    - destruct (Qlt_le_dec m 0) as [? | X]; [assumption | exfalso].
      assert (Y : (0 <= r)%Q) by (unfold r; apply Qle_shift_div_l; lra).
      lra. }
  assert (R100 : (r * 100 * (2 * t) == m * 100)%Q)
    by (rewrite <- R; ring).
  unfold JSMath.min.
  destruct (JS.gt (Fin (r * 100)) (Fin 100)) eqn:D;
    [apply gt_Fin in D | apply gt_Fin_false in D].
  - exists 100%Q. split; [reflexivity |].
    assert (R1 : (1 <= r)%Q) by lra.
    assert (M2 : (2 * t <= m)%Q) by now apply A.
    split; [lra |]. split; [lra |]. split; [intro; lra |].
    split; [split; intro; [exact M2 | reflexivity] |].
    split; [split; intro; [lra | apply G; lra] |].
    split; intro; lra.
  - exists (r * 100)%Q. split; [reflexivity |].
    split; [exact D |]. split; [rewrite R100; lra |].
    split; [intros _; exact R100 |].
    split; [split; intro X; [apply A; lra | apply A in X; lra] |].
    split; [split; intro X; [apply G, B in X; lra | apply G, B; lra] |].
    split; intro X; [apply C; lra | apply C in X; lra].
Qed.

Lemma progressWidth_target_witness :
  exists width : Q,
    SlipView.progressWidth Sample.settings Sample.october = Fin width
    /\ (width <= 100)%Q.
Proof.
  destruct (@progressWidth_target Sample.settings Sample.october
              (30 / 300 * 100) 15)
    as (width & E & L & _).
  - reflexivity.
  - reflexivity.
  - reflexivity.
  - exists width. split; assumption.
Defined.

(** X17: the rating of the performance badge is read on a fixed scale (18,
    15, 12, 10) while the colour of the slip and the note under the margin
    bar follow the target in force.  The colour is emerald exactly when the
    note says that the target is reached; but with a target above 18 a
    margin from 18 up to the target is rated Excellent although the target
    is not reached, and with a target below 10 a margin from the target up
    to 10 is rated Warning although the target is reached.  With the target
    at 15, the target is reached exactly when the rating is Excellent or
    Good. *)
Theorem performance_ignores_target (settings : Settings.t)
  (record : PayrollRecord.t) (m t : Q) :
  Slip.marginRate record = Fin m ->
  JS.or (Settings.target_margin settings) (Fin 15) = Fin t ->
  (Slip.getMarginColor settings (Slip.marginRate record) = Slip.emerald
   <-> SlipView.targetReached settings record = true)
  /\ ((18 <= m)%Q -> (m < t)%Q ->
      SlipView.performance record = SlipView.Excellent
      /\ SlipView.targetReached settings record = false)
  /\ ((t <= m)%Q -> (m < 10)%Q ->
      SlipView.performance record = SlipView.Warning
      /\ SlipView.targetReached settings record = true)
  /\ ((t == 15)%Q ->
      (SlipView.targetReached settings record = true
       <-> SlipView.performance record = SlipView.Excellent
           \/ SlipView.performance record = SlipView.Good)).
Proof.
  intros Hm Ht.
  unfold SlipView.targetReached, SlipView.performance, Slip.getMarginColor.
  rewrite Hm, Ht.
  change (JS.sub (Fin t) (Fin 3)) with (Fin (t + - 3)).
  change (JS.sub (Fin t) (Fin 7)) with (Fin (t + - 7)).
  destruct (JS.ge (Fin m) (Fin t)) eqn:G0;
    [apply ge_Fin in G0 | apply ge_Fin_false in G0];
  (destruct (JS.ge (Fin m) (Fin (t + - 3))) eqn:G1;
    [apply ge_Fin in G1 | apply ge_Fin_false in G1]);
  (destruct (JS.ge (Fin m) (Fin (t + - 7))) eqn:G2;
    [apply ge_Fin in G2 | apply ge_Fin_false in G2]);
  (destruct (JS.ge (Fin m) (Fin 18)) eqn:G3;
    [apply ge_Fin in G3 | apply ge_Fin_false in G3]);
  (destruct (JS.ge (Fin m) (Fin 15)) eqn:G4;
    [apply ge_Fin in G4 | apply ge_Fin_false in G4]);
  (destruct (JS.ge (Fin m) (Fin 12)) eqn:G5;
    [apply ge_Fin in G5 | apply ge_Fin_false in G5]);
  (destruct (JS.ge (Fin m) (Fin 10)) eqn:G6;
    [apply ge_Fin in G6 | apply ge_Fin_false in G6]);
  try (exfalso; lra);
  repeat split; intros; try reflexivity; try discriminate; try lra;
  try tauto;
  try (match goal with H : _ \/ _ |- _ => destruct H; discriminate end).
Qed.

Lemma performance_ignores_target_witness :
  SlipView.performance Fixture.november = SlipView.Good
  \/ SlipView.performance Fixture.november = SlipView.Excellent.
Proof.
  destruct (@performance_ignores_target Sample.settings Fixture.november
              (30000 / 200000 * 100) 15) as (_ & _ & _ & H).
  - reflexivity.
  - reflexivity.
  - assert (X : SlipView.targetReached Sample.settings Fixture.november
                = true) by reflexivity.
    apply H in X; [tauto | reflexivity].
Defined.

Section TotalCost.

Lemma or_finite (a b : num) :
  (exists o, a = Reading.stored o) -> JS.finite b = true ->
  JS.finite (JS.or a b) = true.
Proof.
  intros (o & ->) Hb. destruct o as [q |]; [| exact Hb].
  unfold JS.or. simpl. destruct (negb (Qeq_bool q 0)); [reflexivity | exact Hb].
Qed.

Lemma add_finite (a b : num) :
  JS.finite a = true -> JS.finite b = true -> JS.finite (JS.add a b) = true.
Proof. destruct a, b; try discriminate; reflexivity. Qed.

Lemma round_finite (a : num) :
  JS.finite a = true -> JS.finite (JS.round a) = true.
Proof. destruct a; try discriminate; reflexivity. Qed.

End TotalCost.

(** X20: a slip without a gross salary.  For a record that carries neither
    grossSalary nor a total company cost (missing or 0), the statutory
    benefits of the employer are still a finite number, the missing salary
    counting as 0 in them, when the other amounts and the rates are finite
    numbers or missing; but the total cost shown is [NaN], because the salary
    is added there as it is. *)
Theorem totalCostShown_without_salary (settings : Settings.t)
  (record : PayrollRecord.t) :
  record.[grossSalary] = undefined ->
  JS.truthy (record.[totalCompanyCost]) = false ->
  (forall f, In f [ socialInsurance; welfarePension; companySocialInsurance;
                    companyEmploymentInsurance; companyWorkersComp ] ->
             exists o, record.[f] = Reading.stored o) ->
  (exists o, Settings.employment_insurance_rate settings = Reading.stored o) ->
  (exists o, Settings.workers_comp_rate settings = Reading.stored o) ->
  JS.finite (Slip.totalCompanyBenefits settings record) = true
  /\ Slip.totalCostShown settings record = NaN.
Proof.
  intros Hg Ht Hf He Hw. split.
  - unfold Slip.totalCompanyBenefits, Slip.companySocialIns,
      Slip.companyEmploymentIns, Slip.companyWorkersComp,
      Slip.companyHealthIns, Slip.companyWelfarePension,
      Slip.empInsRate, Slip.workersCompRate.
    rewrite Hg. change (JS.or undefined (Fin 0)) with (Fin 0).
    repeat apply add_finite.
    + apply or_finite; [apply Hf; simpl; tauto |].
      apply add_finite; (apply or_finite; [apply Hf; simpl; tauto |]);
        reflexivity.
    + apply or_finite; [apply Hf; simpl; tauto |]. apply round_finite.
      assert (R : JS.finite (JS.or (Settings.employment_insurance_rate
                                      settings) (Fin 0.009)) = true)
        by (apply or_finite; [exact He | reflexivity]).
      destruct (JS.or (Settings.employment_insurance_rate settings)
                      (Fin 0.009)); try discriminate.
      reflexivity.
    + apply or_finite; [apply Hf; simpl; tauto |]. apply round_finite.
      assert (R : JS.finite (JS.or (Settings.workers_comp_rate settings)
                                   (Fin 0.003)) = true)
        by (apply or_finite; [exact Hw | reflexivity]).
      destruct (JS.or (Settings.workers_comp_rate settings) (Fin 0.003));
        try discriminate.
      reflexivity.
  - unfold Slip.totalCostShown. rewrite or_falsy by exact Ht.
    rewrite Hg. reflexivity.
Qed.

Lemma totalCostShown_without_salary_witness :
  JS.finite (Slip.totalCompanyBenefits Sample.unset Fixture.unpaid) = true
  /\ Slip.totalCostShown Sample.unset Fixture.unpaid = NaN.
Proof.
  apply (@totalCostShown_without_salary Sample.unset Fixture.unpaid).
  - reflexivity.
  - reflexivity.
  - intros f [<- | [<- | [<- | [<- | [<- | []]]]]];
      first [ now exists None | eexists (Some _); reflexivity ].
  - now exists None.
  - now exists None.
Defined.

(* ================================================================== *)
(** * The margin gauge *)
(* ================================================================== *)

(** X18: the arc of the gauge.  For every finite margin the gauge shows the
    share [p] of a scale that runs from 0 to 15, whatever the target is: the
    two values of the arc are [p] and [100 - p], both between 0 and 100, [p]
    is [m / 15 * 100] for a margin between 0 and 15, 0 for every margin
    below 0 and 100 for every margin above 15.  A margin that is not a
    number gives an arc of two [NaN]. *)
Theorem gaugeData_scale (m : Q) :
  exists p : Q,
    Gauge.gaugeData (Fin m) = [Fin p; Fin (100 + - p)]
    /\ (0 <= p)%Q /\ (p <= 100)%Q
    /\ ((m <= 0)%Q -> (p == 0)%Q)
    /\ ((15 <= m)%Q -> (p == 100)%Q)
    /\ ((0 <= m)%Q -> (m <= 15)%Q -> (p == m / 15 * 100)%Q)
    /\ Gauge.gaugeData NaN = [NaN; NaN].
Proof.
  unfold Gauge.gaugeData, Gauge.marginPercent, Gauge.displayMargin.
  unfold JSMath.max, JSMath.min.
  destruct (JS.gt (Fin 0) (Fin m)) eqn:G0;
    [apply gt_Fin in G0 | apply gt_Fin_false in G0].
  - exists (0 / 15 * 100)%Q. split; [reflexivity |].
    assert (E : (0 / 15 * 100 == 0)%Q) by reflexivity.
    repeat split; intros; lra.
  - destruct (JS.gt (Fin m) (Fin 15)) eqn:G1;
      [apply gt_Fin in G1 | apply gt_Fin_false in G1].
    + exists (15 / 15 * 100)%Q. split; [reflexivity |].
      assert (E : (15 / 15 * 100 == 100)%Q) by reflexivity.
      repeat split; intros; try lra.
    + exists (m / 15 * 100)%Q. split; [reflexivity |].
      assert (X : (m / 15 * 100 == m * (20 # 3))%Q) by (field; lra).
      repeat split; intros; try lra.
Qed.

Lemma gaugeData_scale_witness :
  exists p : Q,
    Gauge.gaugeData (Fin 7.5) = [Fin p; Fin (100 + - p)] /\ (p == 50)%Q.
Proof.
  destruct (gaugeData_scale 7.5) as (p & E & _ & _ & _ & _ & H & _).
  exists p. split; [exact E |].
  rewrite H by (vm_compute; discriminate). reflexivity.
Defined.

(** X19: the colour of the gauge is read on a fixed scale (10, 7, 3) while
    its status badge follows the target, 15 when none is passed.  A margin
    from 10 up to a target above it is shown in emerald, the colour of the
    best band, under a badge that says that the target is not reached; a
    margin from a target below 3 up to 3 is shown in red under a badge that
    says that the target is reached.  Without a target the badge says
    reached exactly for a margin of 15 or more. *)
Theorem gauge_colour_ignores_target (m t : Q) :
  ((10 <= m)%Q -> (m < t)%Q ->
   Gauge.getMarginColor (Fin m) = Gauge.emerald
   /\ Gauge.isAboveTarget (Fin m) (Fin t) = false)
  /\ ((t <= m)%Q -> (m < 3)%Q ->
      Gauge.getMarginColor (Fin m) = Gauge.red
      /\ Gauge.isAboveTarget (Fin m) (Fin t) = true)
  /\ (Gauge.isAboveTarget (Fin m) undefined = true <-> (15 <= m)%Q)
  /\ (Gauge.isAboveTarget (Fin m) (Fin t) = true <-> (t <= m)%Q).
Proof.
  unfold Gauge.getMarginColor, Gauge.isAboveTarget, Gauge.targetOf.
  pose proof (ge_Fin m 15) as G15. pose proof (ge_Fin m t) as Gt.
  destruct (JS.ge (Fin m) (Fin 10)) eqn:G1;
    [apply ge_Fin in G1 | apply ge_Fin_false in G1];
  (destruct (JS.ge (Fin m) (Fin 7)) eqn:G2;
    [apply ge_Fin in G2 | apply ge_Fin_false in G2]);
  (destruct (JS.ge (Fin m) (Fin 3)) eqn:G3;
    [apply ge_Fin in G3 | apply ge_Fin_false in G3]);
  try (exfalso; lra);
  (split; [| split; [| split; [exact G15 | exact Gt]]]);
  intros; try lra; (split; [reflexivity |]).
  all: try (apply Gt; lra).
  all: destruct (JS.ge (Fin m) (Fin t)) eqn:X; [| reflexivity];
    apply ge_Fin in X; lra.
Qed.

Lemma gauge_colour_ignores_target_witness :
  Gauge.getMarginColor (Fin 12) = Gauge.emerald
  /\ Gauge.isAboveTarget (Fin 12) (Fin 15) = false.
Proof.
  destruct (gauge_colour_ignores_target 12 15) as (H & _).
  apply H; reflexivity || (vm_compute; discriminate).
Defined.

(** X21: the target indicator of the gauge.  For a target [t] its three
    values are [t / 15 * 100 - 1], [2] and [100 - t / 15 * 100 - 1]; they
    add up to 100, and none of them is negative exactly when the target lies
    between 0.15 and 14.85.  With the default target of 15 the last value is
    negative. *)
Theorem targetIndicator_values (t : Q) :
  exists a c : Q,
    Gauge.targetIndicator (Fin t) = [Fin a; Fin 2; Fin c]
    /\ (a + 2 + c == 100)%Q
    /\ (a == t / 15 * 100 - 1)%Q
    /\ ((0 <= a)%Q /\ (0 <= c)%Q <-> ((3 # 20) <= t)%Q /\ (t <= (297 # 20))%Q)
    /\ exists c0 : Q,
         nth 2 (Gauge.targetIndicator undefined) NaN = Fin c0 /\ (c0 < 0)%Q.
Proof.
  exists (t / 15 * 100 + - 1)%Q, (100 + - (t / 15 * 100) + - 1)%Q.
  split; [reflexivity |].
  assert (X : (t / 15 * 100 == t * (20 # 3))%Q) by (field; lra).
  split; [lra |]. split; [lra |]. split.
  - split; intros [H1 H2]; split; lra.
  - eexists. split; [reflexivity |]. reflexivity.
Qed.

(* ================================================================== *)
(** * The file uploader *)
(* ================================================================== *)

Section UploaderFacts.
Import Uploader.

Lemma update_ids (fileId : str) (g : UploadedFileInfo -> UploadedFileInfo)
  (files : list UploadedFileInfo) :
  (forall f, id (g f) = id f) -> map id (update fileId g files) = map id files.
Proof.
  intro H. unfold update. rewrite map_map. apply map_ext. intro f.
  destruct (JS.str_eqb (id f) fileId); [apply H | reflexivity].
Qed.

Lemma update_other (fileId : str) (g : UploadedFileInfo -> UploadedFileInfo)
  (files : list UploadedFileInfo) (f : UploadedFileInfo) :
  id f <> fileId -> In f files -> In f (update fileId g files).
Proof.
  intros N H. unfold update. apply in_map_iff. exists f. split; [| exact H].
  destruct (JS.str_eqb (id f) fileId) eqn:T; [| reflexivity].
  apply str_eqb_eq in T. contradiction.
Qed.

Lemma update_In (fileId : str) (g : UploadedFileInfo -> UploadedFileInfo)
  (files : list UploadedFileInfo) (f' : UploadedFileInfo) :
  (forall f, id (g f) = id f) ->
  In f' (update fileId g files) -> id f' = fileId ->
  exists f, In f files /\ id f = fileId /\ f' = g f.
Proof.
  intros Hg H E. unfold update in H. apply in_map_iff in H.
  destruct H as (f & Hf & Hin).
  destruct (JS.str_eqb (id f) fileId) eqn:T.
  - apply str_eqb_eq in T. exists f. now repeat split.
  - subst f'. assert (JS.str_eqb (id f) fileId = true)
      by now apply str_eqb_eq.
    congruence.
Qed.

(** The interval started with the variable at [p0]. *)
Lemma ticks_progress (fileId : str) (qs : list Q) :
  (forall q, In q qs -> (0 <= q)%Q /\ (q < 1)%Q) ->
  forall (p0 : Q) (files : list UploadedFileInfo),
  (0 <= p0)%Q -> (p0 < 100)%Q ->
  exists (n : nat) (cleared : bool) (files' : list UploadedFileInfo),
    ticks fileId (map Fin qs) (Fin p0) files = (n, cleared, files')
    /\ (n <= List.length qs)%nat
    /\ (cleared = true -> (100 - p0 < 15 * inject_Z (Z.of_nat n))%Q)
    /\ map id files' = map id files
    /\ (forall f, In f files -> id f <> fileId -> In f files')
    /\ (forall f', In f' files' -> id f' = fileId -> qs <> [] ->
          exists p, progress f' = Fin p /\ (p0 <= p)%Q /\ (p <= 100)%Q
                    /\ (cleared = true ->
                        (p == 100)%Q /\ status f' = Processing)).
Proof.
  induction qs as [| q qs IH]; intros Hq p0 files L U.
  - exists 0%nat, false, files. simpl.
    repeat split; try discriminate; try lia; auto.
    intros f' _ _ N. now contradiction N.
  - destruct (Hq q (or_introl eq_refl)) as [Q0 Q1].
    simpl map. cbn [ticks]. unfold tick.
    change (JS.add (Fin p0) (JS.mul (Fin q) (Fin 15)))
      with (Fin (p0 + q * 15)).
    destruct (JS.ge (Fin (p0 + q * 15)) (Fin 100)) eqn:G;
      [apply ge_Fin in G | apply ge_Fin_false in G].
    + eexists 1%nat, true, _. split; [reflexivity |].
      split; [simpl; lia |].
      split; [intros _; change (inject_Z (Z.of_nat 1)) with 1%Q; lra |].
      split; [now apply update_ids |].
      split; [intros f Hf N; now apply update_other |].
      intros f' Hf' E _. apply update_In in Hf'; [| reflexivity | exact E].
      destruct Hf' as (f & _ & _ & ->). exists 100%Q. simpl.
      repeat split; try lra.
    + set (files1 := update fileId _ files).
      destruct (IH (fun x Hx => Hq x (or_intror Hx)) (p0 + q * 15)%Q files1)
        as (n & cleared & files' & E & Ln & C & Ids & Others & Mine);
        [lra | lra |].
      rewrite E. exists (S n), cleared, files'. split; [reflexivity |].
      split; [simpl; lia |]. split.
      { intro X. specialize (C X).
        rewrite Nat2Z.inj_succ, <- Z.add_1_r, inject_Z_plus.
        change (inject_Z 1) with 1%Q. lra. }
      split; [rewrite Ids; now apply update_ids |].
      split; [intros f Hf N; apply Others;
              [now apply update_other | exact N] |].
      intros f' Hf' Eid _. destruct qs as [| q' qs'].
      * simpl in E. injection E as <- <- <-.
        apply update_In in Hf'; [| reflexivity | exact Eid].
        destruct Hf' as (f & _ & _ & ->). exists (p0 + q * 15)%Q. simpl.
        repeat split; try lra; discriminate.
      * destruct (Mine f' Hf' Eid) as (p & Hp & Lp & Up & Cp);
          [discriminate |].
        exists p. repeat split; try assumption; try lra; now apply Cp.
Qed.

End UploaderFacts.

(** X22: the simulated upload.  Whatever the draws of [Math.random] (numbers
    from 0 up to 1), the interval callback never shows a progress below 0 or
    above 100 for the file, it clears the interval only at its seventh run
    or later, the file is then at 100 and 'processing'; the runs keep the
    identifiers and the order of the list, so that a file removed meanwhile
    does not come back, and they leave the other files as they are. *)
Theorem simulateUpload_progress (fileId : str) (qs : list Q)
  (files : list Uploader.UploadedFileInfo) :
  (forall q, In q qs -> (0 <= q)%Q /\ (q < 1)%Q) ->
  exists (n : nat) (cleared : bool)
         (files' : list Uploader.UploadedFileInfo),
    Uploader.simulateUpload fileId (map Fin qs) files = (n, cleared, files')
    /\ (n <= List.length qs)%nat
    /\ (cleared = true -> (7 <= n)%nat)
    /\ map Uploader.id files' = map Uploader.id files
    /\ (forall f, In f files -> Uploader.id f <> fileId -> In f files')
    /\ (forall f', In f' files' -> Uploader.id f' = fileId -> qs <> [] ->
          exists p, Uploader.progress f' = Fin p
                    /\ (0 <= p)%Q /\ (p <= 100)%Q
                    /\ (cleared = true ->
                        (p == 100)%Q
                        /\ Uploader.status f' = Uploader.Processing)).
Proof.
  intro Hq. unfold Uploader.simulateUpload.
  destruct (@ticks_progress fileId qs Hq 0 files)
    as (n & cleared & files' & E & Ln & C & Ids & Others & Mine);
    [lra | lra |].
  exists n, cleared, files'. split; [exact E |]. split; [exact Ln |].
  split; [| split; [exact Ids | split; [exact Others | exact Mine]]].
  intro X. specialize (C X).
  destruct (Nat.le_gt_cases 7 n) as [? | Lt]; [assumption | exfalso].
  assert (Z : (Z.of_nat n <= 6)%Z) by lia.
  rewrite Zle_Qle in Z. change (inject_Z 6) with 6%Q in Z. lra.
Qed.

Lemma simulateUpload_progress_witness :
  exists (n : nat) (cleared : bool)
         (files' : list Uploader.UploadedFileInfo),
    Uploader.simulateUpload (lit "a1") (map Fin [0.5; 0.9])
      [Fixture.dropped]
    = (n, cleared, files')
    /\ (n <= 2)%nat.
Proof.
  destruct (@simulateUpload_progress (lit "a1") [0.5; 0.9]
              [Fixture.dropped])
    as (n & cleared & files' & E & L & _).
  - intros q [<- | [<- | []]]; split; vm_compute; discriminate || reflexivity.
  - exists n, cleared, files'. split; assumption.
Defined.

(** X23: the outcome of the simulated processing depends on the draws alone:
    the file succeeds exactly when the first draw is above 0.2; on success
    it carries an integer number of records from 10 to 59 and no error text,
    on failure the error text and no number of records.  The other files
    stay as they are. *)
Theorem processed_outcome (fileId : str) (u1 u2 : Q)
  (files : list Uploader.UploadedFileInfo) :
  (0 <= u2)%Q -> (u2 < 1)%Q ->
  let files' := Uploader.processed fileId (Fin u1) (Fin u2) files in
  (forall f', In f' files' -> Uploader.id f' = fileId ->
     ((0.2 < u1)%Q
      /\ Uploader.status f' = Uploader.Success
      /\ Uploader.error f' = None
      /\ exists k : Z, Uploader.records f' = Fin (inject_Z k)
                       /\ (10 <= k <= 59)%Z)
     \/ ((u1 <= 0.2)%Q
         /\ Uploader.status f' = Uploader.Error
         /\ Uploader.error f' = Some Uploader.InvalidFormat
         /\ Uploader.records f' = undefined))
  /\ map Uploader.id files' = map Uploader.id files
  /\ (forall f, In f files -> Uploader.id f <> fileId -> In f files').
Proof.
  intros L U. cbv zeta. unfold Uploader.processed. split; [| split].
  - intros f' Hf' E. apply update_In in Hf'; [| reflexivity | exact E].
    destruct Hf' as (f & _ & _ & ->).
    destruct (JS.gt (Fin u1) (Fin 0.2)) eqn:G;
      [apply gt_Fin in G; left | apply gt_Fin_false in G; right]; simpl.
    + repeat split; try assumption.
      exists (Qfloor (u2 * 50) + 10)%Z. split.
      * now rewrite inject_Z_plus.
      * assert (A : (0 <= Qfloor (u2 * 50))%Z)
          by (apply floor_spec; change (inject_Z 0) with 0%Q; lra).
        assert (B : (Qfloor (u2 * 50) <= 49)%Z).
        { destruct (Z_le_gt_dec (Qfloor (u2 * 50)) 49) as [? | X];
            [assumption | exfalso].
          assert (X' : (50 <= Qfloor (u2 * 50))%Z) by lia.
          apply floor_spec in X'. change (inject_Z 50) with 50%Q in X'.
          lra. }
        lia.
    + repeat split; assumption.
  - now apply update_ids.
  - intros f Hf N. now apply update_other.
Qed.

Lemma processed_outcome_witness :
  map Uploader.id
    (Uploader.processed (lit "a1") (Fin 0.5) (Fin 0.5)
       [Fixture.dropped])
  = [lit "a1"].
Proof.
  destruct (@processed_outcome (lit "a1") 0.5 0.5
              [Fixture.dropped])
    as (_ & H & _); [vm_compute; discriminate | reflexivity | exact H].
Defined.

(** X24: the size shown for a file of [n] bytes, [n] an integer.  Below 1024
    the bytes are shown as they are.  From 1024 up to 1024 x 1024 - 1 the
    size is shown in KB with one decimal, the tenth nearest to [n / 1024],
    at least 1.0; from 1,048,525 bytes on that is 1024.0 KB, a size that the
    MB unit also covers.  From 1024 x 1024 on the size is shown in MB with
    one decimal, the tenth nearest to [n / 1048576], at least 1.0. *)
Theorem formatFileSize_units (n : Z) :
  let bytes := Fin (inject_Z n) in
  ((n < 1024)%Z -> Uploader.formatFileSize bytes = Uploader.B bytes)
  /\ ((1024 <= n < 1048576)%Z ->
      exists k : Z,
        Uploader.formatFileSize bytes = Uploader.KB (Uploader.Tenths k)
        /\ (10 <= k <= 10240)%Z
        /\ (inject_Z k - (1 # 2) <= inject_Z n / 1024 * 10)%Q
        /\ (inject_Z n / 1024 * 10 < inject_Z k + (1 # 2))%Q
        /\ (k = 10240%Z <-> (1048525 <= n)%Z))
  /\ ((1048576 <= n)%Z ->
      exists k : Z,
        Uploader.formatFileSize bytes = Uploader.MB (Uploader.Tenths k)
        /\ (10 <= k)%Z
        /\ (inject_Z k - (1 # 2) <= inject_Z n / 1048576 * 10)%Q
        /\ (inject_Z n / 1048576 * 10 < inject_Z k + (1 # 2))%Q).
Proof.
  cbv zeta. unfold Uploader.formatFileSize, JSMath.lt.
  change (JS.mul (Fin 1024) (Fin 1024)) with (Fin (1024 * 1024)).
  assert (K : forall a : Z, (a <= n)%Z <-> (inject_Z a <= inject_Z n)%Q)
    by (intro a; rewrite Zle_Qle; reflexivity).
  assert (K' : forall a : Z, (n < a)%Z <-> (inject_Z n < inject_Z a)%Q)
    by (intro a; rewrite Zlt_Qlt; reflexivity).
  pose proof (K 1024%Z) as K1. pose proof (K 1048576%Z) as K2.
  pose proof (K 1048525%Z) as K3.
  pose proof (K' 1024%Z) as L1. pose proof (K' 1048576%Z) as L2.
  change (inject_Z 1024) with 1024%Q in *.
  change (inject_Z 1048576) with 1048576%Q in *.
  change (inject_Z 1048525) with 1048525%Q in *.
  set (x := inject_Z n) in *.
  assert (T : forall y : Q, (0 <= y)%Q ->
            JSMath.tenths y = Qfloor (y * 10 + (1 # 2))).
  { intros y Hy. unfold JSMath.tenths.
    destruct (Qle_bool 0 y) eqn:E; [reflexivity |].
    apply Qle_bool_iff in Hy. congruence. }
  destruct (JS.gt (Fin 1024) (Fin x)) eqn:G1;
    [apply gt_Fin in G1 | apply gt_Fin_false in G1].
  - split; [reflexivity |]. split; intro H; exfalso.
    + destruct H as [H _]. apply K1 in H. lra.
    + assert (H' : (1024 <= n)%Z) by lia. apply K1 in H'. lra.
  - split; [intro H; apply L1 in H; lra |].
    destruct (JS.gt (Fin (1024 * 1024)) (Fin x)) eqn:G2;
      [apply gt_Fin in G2 | apply gt_Fin_false in G2].
    + split; [| intro H; apply K2 in H; lra].
      intros _. rewrite (@div_Fin_pos x 1024) by reflexivity.
      assert (X : (x / 1024 * 10 == x * (10 # 1024))%Q) by (field; lra).
      unfold Uploader.toFixed1. rewrite T by lra.
      set (y := (x / 1024 * 10 + (1 # 2))%Q).
      assert (Ey : (y == x * (10 # 1024) + (1 # 2))%Q)
        by (unfold y; rewrite X; reflexivity).
      pose proof (Qfloor_le y) as Ly. pose proof (Qlt_floor y) as Uy.
      rewrite inject_Z_plus in Uy. change (inject_Z 1) with 1%Q in Uy.
      assert (A : (10 <= Qfloor y)%Z)
        by (apply floor_spec; change (inject_Z 10) with 10%Q; lra).
      assert (B : (Qfloor y <= 10240)%Z).
      { destruct (Z_le_gt_dec (Qfloor y) 10240) as [? | Y];
          [assumption | exfalso].
        assert (Y' : (10241 <= Qfloor y)%Z) by lia.
        apply floor_spec in Y'. change (inject_Z 10241) with 10241%Q in Y'.
        lra. }
      exists (Qfloor y). split; [reflexivity |]. split; [lia |].
      split; [lra |]. split; [lra |].
      split; intro H.
      * assert (Y : (10240 <= Qfloor y)%Z) by lia.
        apply floor_spec in Y. change (inject_Z 10240) with 10240%Q in Y.
        destruct (Z_le_gt_dec 1048525 n) as [? | Y']; [assumption | exfalso].
        assert (Y3 : (n <= 1048524)%Z) by lia.
        rewrite Zle_Qle in Y3. fold x in Y3.
        change (inject_Z 1048524) with 1048524%Q in Y3. lra.
      * apply K3 in H.
        assert (Y : (10240 <= Qfloor y)%Z)
          by (apply floor_spec; change (inject_Z 10240) with 10240%Q; lra).
        lia.
    + split; [intros [_ H]; apply L2 in H; lra |].
      intros _.
      rewrite (@div_Fin_pos x (1024 * 1024)) by reflexivity.
      assert (X : (x / (1024 * 1024) * 10 == x * (10 # 1048576))%Q)
        by (field; lra).
      assert (X' : (x / 1048576 * 10 == x * (10 # 1048576))%Q)
        by (field; lra).
      unfold Uploader.toFixed1. rewrite T by lra.
      set (y := (x / (1024 * 1024) * 10 + (1 # 2))%Q).
      assert (Ey : (y == x * (10 # 1048576) + (1 # 2))%Q)
        by (unfold y; rewrite X; reflexivity).
      pose proof (Qfloor_le y) as Ly. pose proof (Qlt_floor y) as Uy.
      rewrite inject_Z_plus in Uy. change (inject_Z 1) with 1%Q in Uy.
      assert (A : (10 <= Qfloor y)%Z)
        by (apply floor_spec; change (inject_Z 10) with 10%Q; lra).
      exists (Qfloor y). split; [reflexivity |]. split; [exact A |].
      split; lra.
Qed.

Lemma formatFileSize_units_witness :
  exists k : Z,
    Uploader.formatFileSize (Fin (inject_Z 1048570))
    = Uploader.KB (Uploader.Tenths k)
    /\ (10 <= k <= 10240)%Z.
Proof.
  destruct (formatFileSize_units 1048570) as (_ & H & _).
  destruct H as (k & E & B & _); [lia |].
  exists k. split; assumption.
Defined.

(* ================================================================== *)
(** * Synchronising from a folder *)
(* ================================================================== *)

Section FolderSyncFacts.

Lemma trimStart_nil (s : str) :
  JSMath.trimStart s = [] <-> forallb JSMath.is_space s = true.
Proof.
  induction s as [| c s IH]; simpl; [tauto |].
  destruct (JSMath.is_space c); simpl; [exact IH |].
  split; discriminate.
Qed.

Lemma trimStart_head (s : str) (c : N) (t : str) :
  JSMath.trimStart s = c :: t -> JSMath.is_space c = false.
Proof.
  induction s as [| x s IH]; simpl; [discriminate |].
  destruct (JSMath.is_space x) eqn:E; [exact IH |].
  intro H. injection H as <- _. exact E.
Qed.

(** A string is blank when it holds white space only. *)
Lemma blank_spaces (s : str) :
  FolderSync.blank s = true <-> forallb JSMath.is_space s = true.
Proof.
  unfold FolderSync.blank, JSMath.trim.
  destruct (JSMath.trimStart s) as [| c t] eqn:E.
  - simpl. apply trimStart_nil in E. tauto.
  - pose proof (trimStart_head s E) as Hc.
    assert (NS : forallb JSMath.is_space s = false).
    { destruct (forallb JSMath.is_space s) eqn:F; [| reflexivity].
      apply trimStart_nil in F. congruence. }
    rewrite NS.
    destruct (rev (JSMath.trimStart (rev (c :: t)))) as [| x l] eqn:R.
    + exfalso. apply (f_equal (@rev N)) in R. rewrite rev_involutive in R.
      change (rev []) with (@nil BinNums.N) in R.
      apply trimStart_nil in R. rewrite forallb_forall in R.
      assert (X : JSMath.is_space c = true)
        by (apply R, (proj1 (in_rev _ _)); now left).
      congruence.
    + split; discriminate.
Qed.

End FolderSyncFacts.

(** X25: a synchronisation that does not start.  With a folder path of white
    space only (or empty), [handleSync] sends no request and sets the error
    that asks for a path; it leaves [isLoading] and the result of an earlier
    run as they are, so an earlier result stays on display beside the error.
    While a run is loading the Enter key starts nothing, and the button is
    disabled exactly when a run is loading or the path is blank. *)
Theorem handleSync_blank (w : FolderSync.World) (st : FolderSync.State) :
  (forallb JSMath.is_space (FolderSync.folderPath st) = true ->
   FolderSync.handleSync w st
   = (FolderSync.mkState (FolderSync.folderPath st)
        (FolderSync.isLoading st) (FolderSync.result st)
        (Some FolderSync.EnterFolderPath), []))
  /\ (FolderSync.isLoading st = true ->
      forall enter, FolderSync.handleKeyPress enter w st = (st, []))
  /\ (FolderSync.disabled st = true <->
      FolderSync.isLoading st = true
      \/ forallb JSMath.is_space (FolderSync.folderPath st) = true).
Proof.
  split; [| split].
  - intro H. apply blank_spaces in H. unfold FolderSync.handleSync.
    now rewrite H.
  - intros H enter. unfold FolderSync.handleKeyPress. rewrite H.
    now rewrite andb_false_r.
  - unfold FolderSync.disabled. rewrite orb_true_iff, blank_spaces.
    reflexivity.
Qed.

Lemma handleSync_blank_witness :
  FolderSync.handleSync Fixture.offline Fixture.spaces
  = (FolderSync.mkState (lit "  ") false
       (Some (FolderSync.mkData None (Fin 3) (Fin 1)))
       (Some FolderSync.EnterFolderPath), []).
Proof.
  destruct (handleSync_blank Fixture.offline Fixture.spaces) as (H & _).
  apply H. reflexivity.
Defined.

Ltac sync_step :=
  match goal with
  | |- _ /\ _ => split
  | |- _ <-> _ => split
  | |- forall _, _ => intro
  | |- ~ _ => intro
  | H : exists _, _ |- _ => destruct H
  | H : _ /\ _ |- _ => destruct H
  | H : False |- _ => destruct H
  | H : _ \/ _ |- _ => destruct H
  | H : FolderSync.Returns _ = FolderSync.Returns _ |- _ =>
      injection H as H; subst
  | H : FolderSync.Throws _ = FolderSync.Throws _ |- _ =>
      injection H as H; subst
  | H : Some _ = Some _ |- _ => injection H as H; subst
  | H : ?x = FolderSync.Returns _, H' : ?x = _ |- _ => rewrite H in H'
  end.

Ltac sync_done :=
  try discriminate; try congruence; try reflexivity;
  try (left; reflexivity); try (right; reflexivity);
  try (simpl; tauto);
  try (eexists; reflexivity);
  try (do 2 eexists; repeat split; (reflexivity || eassumption));
  try (eexists; repeat split; (reflexivity || eassumption)).

(** X26: a synchronisation that starts.  With a path that is not blank,
    whatever the server and the store answer (a response, a rejection, a
    body that cannot be parsed, a refresh that fails), [handleSync] ends
    with [isLoading] false and with either a result or an error, never both
    and never neither.  It sends one request, with the path as typed, and
    calls [refreshFromBackend] at most once, exactly when the response is ok
    and its body counts a saved record or a processed file.  A result is
    shown only for an ok response whose refresh, if there was one, did not
    fail: a failing refresh replaces the result by its error. *)
Theorem handleSync_completes (w : FolderSync.World) (st : FolderSync.State) :
  FolderSync.blank (FolderSync.folderPath st) = false ->
  let st' := fst (FolderSync.handleSync w st) in
  let calls := snd (FolderSync.handleSync w st) in
  let refreshed :=
    exists response data,
      FolderSync.fetch w = FolderSync.Returns response
      /\ FolderSync.json response = FolderSync.Returns data
      /\ FolderSync.ok response = true
      /\ (JS.gt (FolderSync.total_records_saved data) (Fin 0)
          || JS.gt (FolderSync.files_processed data) (Fin 0))%bool = true in
  FolderSync.isLoading st' = false
  /\ FolderSync.folderPath st' = FolderSync.folderPath st
  /\ (FolderSync.result st' = None <-> FolderSync.error st' <> None)
  /\ (calls = [FolderSync.Fetch (FolderSync.folderPath st)]
      \/ calls = [FolderSync.Fetch (FolderSync.folderPath st);
                  FolderSync.Refresh])
  /\ (In FolderSync.Refresh calls <-> refreshed)
  /\ (forall data, FolderSync.result st' = Some data ->
        exists response,
          FolderSync.fetch w = FolderSync.Returns response
          /\ FolderSync.json response = FolderSync.Returns data
          /\ FolderSync.ok response = true
          /\ (refreshed ->
              exists u, FolderSync.refreshFromBackend w
                        = FolderSync.Returns u))
  /\ (forall e, refreshed ->
        FolderSync.refreshFromBackend w = FolderSync.Throws e ->
        FolderSync.result st' = None
        /\ FolderSync.error st' = Some (FolderSync.messageOf e)).
Proof.
  intro NB. cbv zeta. unfold FolderSync.handleSync. rewrite NB.
  destruct (FolderSync.fetch w) as [response | e] eqn:F;
    [destruct (FolderSync.json response) as [data | e] eqn:J;
     [destruct (FolderSync.ok response) eqn:K;
      [destruct (JS.gt (FolderSync.total_records_saved data) (Fin 0)
                 || JS.gt (FolderSync.files_processed data) (Fin 0))%bool
         eqn:C;
       [destruct (FolderSync.refreshFromBackend w) as [u | e] eqn:R |] |] |]
    |];
    simpl; repeat sync_step; sync_done.
  all: exists response; repeat split; try assumption; intro X;
    repeat sync_step; sync_done.
Qed.

Lemma handleSync_completes_witness :
  FolderSync.isLoading
    (fst (FolderSync.handleSync Fixture.offline Fixture.typed)) = false
  /\ FolderSync.error
       (fst (FolderSync.handleSync Fixture.offline Fixture.typed))
     = Some FolderSync.NetworkError.
Proof.
  split; [| reflexivity].
  apply (@handleSync_completes Fixture.offline Fixture.typed). reflexivity.
Defined.

(* ================================================================== *)
(** * The table of the employee detail modal *)
(* ================================================================== *)

(** X27: the rows of the employee detail modal are the payroll records of
    the employee, each one once and no other record, whatever order the
    comparison of periods gives them. *)
Theorem employeeRecords_of_the_employee
  (payrollRecords : list PayrollRecord.t) (employee : Employee.t) :
  let rows := EmployeeDetail.employeeRecords payrollRecords employee in
  Permutation rows
    (filter (fun r => JS.str_eqb (PayrollRecord.employeeId r)
                                 (Employee.employeeId employee))
            payrollRecords)
  /\ (forall r, In r rows <->
                In r payrollRecords
                /\ PayrollRecord.employeeId r = Employee.employeeId employee)
  /\ (List.length rows <= List.length payrollRecords)%nat.
Proof.
  cbv zeta. unfold EmployeeDetail.employeeRecords, Array.sort_with.
  split; [apply stable_sort_perm |]. split.
  - intro r. rewrite stable_sort_In, filter_In, str_eqb_eq. reflexivity.
  - rewrite stable_sort_length. apply filter_length_le.
Qed.

(** X28: the footer of the table.  The attendance totals (work days, work
    hours, overtime hours, paid-leave days) count a missing value as 0:
    when the values stored are finite numbers or missing, the four totals
    are finite numbers.  The money totals (gross salary, billing amount,
    gross profit) add the values as they are: one record without the value
    makes the total [NaN]. *)
Theorem footer_totals (employeeRecords : list PayrollRecord.t) :
  (forall r f, In r employeeRecords ->
               In f [workDays; workHours; overtimeHours; paidLeaveDays] ->
               exists o, r.[f] = Reading.stored o) ->
  (JS.finite (DetailFooter.totalWorkDays employeeRecords) = true
   /\ JS.finite (DetailFooter.totalWorkHours employeeRecords) = true
   /\ JS.finite (DetailFooter.totalOvertimeHours employeeRecords) = true
   /\ JS.finite (DetailFooter.totalPaidLeaveDays employeeRecords) = true)
  /\ (forall r, In r employeeRecords ->
        (r.[grossSalary] = undefined ->
         DetailFooter.totalGrossSalary employeeRecords = NaN)
        /\ (r.[billingAmount] = undefined ->
            DetailFooter.totalBillingAmount employeeRecords = NaN)
        /\ (r.[grossProfit] = undefined ->
            DetailFooter.totalGrossProfit employeeRecords = NaN)).
Proof.
  intro H. split.
  - assert (G : forall f,
              In f [workDays; workHours; overtimeHours; paidLeaveDays] ->
              JS.finite
                (Array.sum_of (fun r => JS.or (r.[f]) (Fin 0))
                              employeeRecords) = true).
    { intros f Hf. apply sum_of_finite. intros r Hr.
      destruct (H r f Hr Hf) as (o & ->).
      destruct (or_stored o) as (q & -> & _). reflexivity. }
    repeat split; apply G; simpl; tauto.
  - intros r Hr. repeat split; intro E;
      apply (@sum_of_poisoned _ _ employeeRecords r Hr); now right.
Qed.

Lemma footer_totals_witness :
  JS.finite (DetailFooter.totalWorkDays [Sample.record; Sample.noProfit])
  = true.
Proof.
  apply (@footer_totals [Sample.record; Sample.noProfit]).
  intros r f [<- | [<- | []]] [<- | [<- | [<- | [<- | []]]]];
    first [ now exists None | eexists (Some _); reflexivity ].
Defined.

(* ================================================================== *)
(** * Synchronising the employees *)
(* ================================================================== *)

(** X29: the synchronisation of the settings page.  Whatever the answer,
    [handleSync] ends with [isSyncing] false and with the status of this
    run alone: the failure with the error text when the answer carries an
    error (the data, if any, is then ignored), the report of the data when
    it carries data and no error, and no status at all when it carries
    neither.  A timeout that clears the status is added exactly for a
    report of success and is never cancelled: when a second run follows a
    successful one, the timeout of the first run clears the status of the
    second, whatever it is. *)
Theorem settings_handleSync_status (a : SettingsSync.Answer)
  (st : SettingsSync.State) :
  let st' := SettingsSync.handleSync a st in
  SettingsSync.isSyncing st' = false
  /\ (SettingsSync.truthy (SettingsSync.error a) = true ->
      exists e, SettingsSync.error a = Some e
                /\ SettingsSync.syncStatus st'
                   = Some (SettingsSync.mkStatus false e None)
                /\ SettingsSync.timers st' = SettingsSync.timers st)
  /\ (SettingsSync.truthy (SettingsSync.error a) = false ->
      forall d, SettingsSync.data a = Some d ->
        SettingsSync.syncStatus st'
        = Some (SettingsSync.mkStatus (SettingsSync.success d)
                  (SettingsSync.message d) (SettingsSync.stats d))
        /\ SettingsSync.timers st'
           = (if SettingsSync.success d then S (SettingsSync.timers st)
              else SettingsSync.timers st))
  /\ (SettingsSync.truthy (SettingsSync.error a) = false ->
      SettingsSync.data a = None ->
      SettingsSync.syncStatus st' = None
      /\ SettingsSync.timers st' = SettingsSync.timers st)
  /\ (forall d a2,
        SettingsSync.truthy (SettingsSync.error a) = false ->
        SettingsSync.data a = Some d -> SettingsSync.success d = true ->
        SettingsSync.syncStatus
          (SettingsSync.autoClear (SettingsSync.handleSync a2 st')) = None).
Proof.
  cbv zeta. unfold SettingsSync.handleSync.
  destruct a as [d e]. simpl.
  destruct (SettingsSync.truthy e) eqn:T.
  - split; [reflexivity |]. split.
    + intros _. destruct e as [[| c t] |]; try discriminate.
      eexists. repeat split.
    + repeat split; try discriminate.
  - split; [destruct d; reflexivity |]. split; [discriminate |].
    split; [| split].
    + intros _ d' ->. split; reflexivity.
    + intros _ ->. split; reflexivity.
    + intros d' a2 _ -> S. simpl. rewrite S.
      destruct (SettingsSync.truthy (SettingsSync.error a2)); simpl;
        [reflexivity |].
      destruct (SettingsSync.data a2) as [d2 |]; simpl; [| reflexivity].
      destruct (SettingsSync.success d2); reflexivity.
Qed.

Lemma settings_handleSync_status_witness :
  SettingsSync.syncStatus
    (SettingsSync.autoClear
       (SettingsSync.handleSync Fixture.refused
          (SettingsSync.handleSync Fixture.synced Fixture.idlePage)))
  = None.
Proof.
  destruct (settings_handleSync_status Fixture.synced Fixture.idlePage)
    as (_ & _ & _ & _ & H).
  apply (H (SettingsSync.mkData true (lit "synced") None) Fixture.refused);
    reflexivity.
Defined.
